(** * CSV reconciliation scripts of the theme repository

    A shallow embedding of the two command-line scripts that export product
    variants to CSV ([scripts/export-variants.js]) and import the edited CSV
    back ([import-variants.js]), followed by the properties of the
    encoder/decoder pair, of the column naming convention and of the batch
    writer.

    Modelling conventions.
    - A JavaScript string is the list of its UTF-16 code units ([jsstring]).
    - A JavaScript object used as a record is the list of its own enumerable
      properties in [Object.keys] order ([obj]); property assignment follows
      the ordinary-object rules (array-index keys first, in ascending order,
      then the other keys in creation order).  A read that finds no own
      property goes to [Object.prototype]; a write of [__proto__] goes to
      the setter inherited from it.
    - The remote GraphQL endpoint is a parameter: a state type [World] and
      a transition function for [makeGraphQLRequest].  Every call is also
      appended to a trace so that the requests a run issues can be stated.
    - [console.warn] of the CSV reader is returned next to the parsed rows;
      the other console output is not modelled, and the pause between two
      batches, which only takes time, has no counterpart. *)

From Stdlib Require Import String Ascii DecimalString.
From Stdlib Require Import List NArith ZArith Arith Lia Bool.
Local Open Scope list_scope.
Import ListNotations.

Set Implicit Arguments.

(* ================================================================== *)
(** * JavaScript strings *)
(* ================================================================== *)

Module Js.

(** A UTF-16 code unit. *)
Definition char := N.
Definition jsstring := list char.

(** A string literal of the source, as code units. *)
Definition lit (s : string) : jsstring :=
  map N_of_ascii (list_ascii_of_string s).

Definition COMMA : char := 44%N.       (* comma *)
Definition QUOTE : char := 34%N.       (* double quote *)
Definition NEWLINE : char := 10%N.     (* line feed *)
Definition UNDERSCORE : char := 95%N.  (* underscore *)

Definition char_eqb : char -> char -> bool := N.eqb.

Fixpoint str_eqb (a b : jsstring) : bool :=
  match a, b with
  | [], [] => true
  | x :: a', y :: b' => char_eqb x y && str_eqb a' b'
  | _, _ => false
  end.

(** [s.includes(c)] for a one-code-unit needle. *)
Definition includes (c : char) (s : jsstring) : bool :=
  existsb (char_eqb c) s.

(** [s.startsWith(p)]. *)
Fixpoint startsWith (p s : jsstring) : bool :=
  match p, s with
  | [], _ => true
  | x :: p', y :: s' => char_eqb x y && startsWith p' s'
  | _ :: _, [] => false
  end.

(** [s.replace(p, r)] with a string pattern: only the first occurrence of
    [p] is replaced (the replacement strings of the source contain no
    [$] pattern). *)
Fixpoint replace_first (p r s : jsstring) : jsstring :=
  if startsWith p s then r ++ skipn (length p) s
  else match s with
       | [] => []
       | c :: s' => c :: replace_first p r s'
       end.

(** [s.replace(q, r)] with the global regular expression [q] matching one
    double quote: every double quote is replaced by [r]. *)
Definition replace_all_quotes (r s : jsstring) : jsstring :=
  flat_map (fun c => if char_eqb c QUOTE then r else [c]) s.

(** [s.split(sep)] for a one-code-unit separator; never returns the empty
    array. *)
Fixpoint split (sep : char) (s : jsstring) : list jsstring :=
  match s with
  | [] => [[]]
  | c :: s' =>
      if char_eqb c sep then [] :: split sep s'
      else match split sep s' with
           | [] => [[c]]
           | cur :: rest => (c :: cur) :: rest
           end
  end.

(** [parts.join(sep)] on an array of strings. *)
Fixpoint join (sep : jsstring) (parts : list jsstring) : jsstring :=
  match parts with
  | [] => []
  | [p] => p
  | p :: rest => p ++ sep ++ join sep rest
  end.

(** WhiteSpace and LineTerminator code units of ECMAScript, the ones
    [String.prototype.trim] strips. *)
Definition is_whitespace (c : char) : bool :=
  ((9 <=? c) && (c <=? 13))%N          (* TAB LF VT FF CR *)
  || (c =? 32)%N                       (* SPACE *)
  || (c =? 160)%N                      (* NO-BREAK SPACE *)
  || (c =? 5760)%N                     (* U+1680 *)
  || ((8192 <=? c) && (c <=? 8202))%N  (* U+2000 .. U+200A *)
  || (c =? 8232)%N || (c =? 8233)%N    (* U+2028 U+2029 *)
  || (c =? 8239)%N                     (* U+202F *)
  || (c =? 8287)%N                     (* U+205F *)
  || (c =? 12288)%N                    (* U+3000 *)
  || (c =? 65279)%N.                   (* U+FEFF *)

Fixpoint trimStart (s : jsstring) : jsstring :=
  match s with
  | [] => []
  | c :: s' => if is_whitespace c then trimStart s' else s
  end.

Definition trimEnd (s : jsstring) : jsstring := rev (trimStart (rev s)).

(** [s.trim()]. *)
Definition trim (s : jsstring) : jsstring := trimEnd (trimStart s).

(** Truthiness of a string: non-empty. *)
Definition truthy (s : jsstring) : bool :=
  match s with [] => false | _ :: _ => true end.

(** Decimal rendering of a non-negative integer, as template literals
    produce it. *)
Definition of_nat (n : nat) : jsstring :=
  lit (NilZero.string_of_uint (Nat.to_uint n)).

End Js.

(* ================================================================== *)
(** * JavaScript objects used as records *)
(* ================================================================== *)

Module JsObject.
Import Js.

(** Own enumerable string-keyed properties, in [Object.keys] order. *)
Definition obj (A : Type) := list (jsstring * A).

(** [Object.keys(o)]. *)
Definition keys {A} (o : obj A) : list jsstring := map fst o.

(** [o[k]]; [None] is [undefined]. *)
Fixpoint get {A} (o : obj A) (k : jsstring) : option A :=
  match o with
  | [] => None
  | (k', v) :: o' => if str_eqb k k' then Some v else get o' k
  end.

Definition has {A} (o : obj A) (k : jsstring) : bool :=
  match get o k with Some _ => true | None => false end.

Definition is_digit (c : char) : bool := ((48 <=? c) && (c <=? 57))%N.

Definition digits_value (s : jsstring) : N :=
  fold_left (fun acc c => (10 * acc + (c - 48))%N) s 0%N.

(** A property key that is an array index: the canonical decimal form of
    an integer below [2^32 - 1].  Such keys are enumerated first. *)
Definition array_index (k : jsstring) : option N :=
  match k with
  | [] => None
  | c :: rest =>
      if forallb is_digit k
         && (negb (char_eqb c 48%N) || match rest with [] => true | _ => false end)
         && (digits_value k <? 4294967295)%N
      then Some (digits_value k)
      else None
  end.

(** Assignment to a property that exists: the value changes, the
    position does not. *)
Fixpoint update {A} (k : jsstring) (v : A) (o : obj A) : obj A :=
  match o with
  | [] => []
  | (k', v') :: o' =>
      if str_eqb k k' then (k', v) :: o' else (k', v') :: update k v o'
  end.

(** A new array-index key goes among the array-index keys, in ascending
    numeric order. *)
Fixpoint insert_index {A} (n : N) (k : jsstring) (v : A) (o : obj A) : obj A :=
  match o with
  | [] => [(k, v)]
  | (k', v') :: o' =>
      match array_index k' with
      | Some n' =>
          if (n' <? n)%N then (k', v') :: insert_index n k v o'
          else (k, v) :: o
      | None => (k, v) :: o
      end
  end.

Definition PROTO : jsstring := Eval cbv in lit "__proto__".

(** [o[k] = v] on an object created by the literal [{}] and filled by
    assignments only, [v] a string: the key [__proto__] reaches the
    setter inherited from [Object.prototype], which ignores a value that
    is neither an object nor [null]; no own property is created. *)
Definition set {A} (k : jsstring) (v : A) (o : obj A) : obj A :=
  if str_eqb k PROTO then o
  else if has o k then update k v o
  else match array_index k with
       | Some n => insert_index n k v o
       | None => o ++ [(k, v)]
       end.

(** The text [String] gives in Node for a built-in function. *)
Definition native_function (name : jsstring) : jsstring :=
  lit "function " ++ name ++ lit "() { [native code] }".

(** The members an object literal inherits from [Object.prototype], each
    with the text [String] gives for it: functions, and for [__proto__]
    the prototype object itself. *)
Definition OBJECT_PROTOTYPE : obj jsstring :=
  Eval cbv in
    [ (lit "constructor", native_function (lit "Object"));
      (lit "__defineGetter__", native_function (lit "__defineGetter__"));
      (lit "__defineSetter__", native_function (lit "__defineSetter__"));
      (lit "hasOwnProperty", native_function (lit "hasOwnProperty"));
      (lit "__lookupGetter__", native_function (lit "__lookupGetter__"));
      (lit "__lookupSetter__", native_function (lit "__lookupSetter__"));
      (lit "isPrototypeOf", native_function (lit "isPrototypeOf"));
      (lit "propertyIsEnumerable", native_function (lit "propertyIsEnumerable"));
      (lit "toString", native_function (lit "toString"));
      (lit "valueOf", native_function (lit "valueOf"));
      (PROTO, lit "[object Object]");
      (lit "toLocaleString", native_function (lit "toLocaleString")) ].

(** What a read of [k] finds on the prototype when the object has no own
    property [k]: the text of the inherited member, or nothing. *)
Definition inherited (k : jsstring) : option jsstring :=
  get OBJECT_PROTOTYPE k.

End JsObject.

(* ================================================================== *)
(** * The data both scripts exchange *)
(* ================================================================== *)

Import Js JsObject.

(** A metafield node: [{ namespace, key, value, type }]. *)
Record Metafield := mkMetafield {
  namespace : jsstring;
  key : jsstring;
  value : jsstring;
  type : jsstring
}.

(** The prefix of a metafield column. *)
Definition METAFIELD_PREFIX : jsstring := Eval cbv in lit "metafield_".

(* ================================================================== *)
(** * scripts/export-variants.js *)
(* ================================================================== *)

(** The functions of the exporter that build column names and text:
    [flattenMetafields] (lines 344-354) and [arrayToCSV] (lines 357-381). *)

Module Exporter.

(** A cell of an exported record.  [arrayToCSV] distinguishes strings from
    the other values ([typeof value === "string"]); of a value that is
    not a string only its truthiness and the text [Array.prototype.join]
    renders for it matter. *)
Inductive cell :=
| VString (s : jsstring)
| VOther (is_truthy : bool) (text : jsstring).

Definition row := obj cell.

(** The template literal that names the column of a metafield, used by
    [flattenMetafields] and by [exportVariants]. *)
Definition column_name (ns k : jsstring) : jsstring :=
  METAFIELD_PREFIX ++ ns ++ [UNDERSCORE] ++ k.

(** [flattenMetafields(metafields)]. *)
Definition flattenMetafields (metafields : list Metafield) : obj jsstring :=
  fold_left
    (fun flattened metafield =>
       JsObject.set (column_name (namespace metafield) (key metafield))
                    (value metafield) flattened)
    metafields [].

(** [row[header]], or the empty string when that is falsy. *)
Definition cell_or_empty (r : row) (header : jsstring) : cell :=
  match get r header with
  | Some (VString s) => VString s   (* the falsy string is the empty one *)
  | Some (VOther true t) => VOther true t
  | Some (VOther false _) => VString []
  | None =>
      match inherited header with
      | Some text => VOther true text   (* an inherited member is truthy *)
      | None => VString []
      end
  end.

Definition needs_quoting (s : jsstring) : bool :=
  includes COMMA s || includes QUOTE s || includes NEWLINE s.

(** What the callback of the inner [headers.map] returns for a string. *)
Definition encode_string (s : jsstring) : jsstring :=
  if needs_quoting s
  then [QUOTE] ++ replace_all_quotes [QUOTE; QUOTE] s ++ [QUOTE]
  else s.

(** The callback of the inner [headers.map] of [arrayToCSV], followed by
    the conversion to text that [join] applies to what it returns. *)
Definition encode_cell (r : row) (header : jsstring) : jsstring :=
  match cell_or_empty r header with
  | VString s => encode_string s
  | VOther _ t => t
  end.

(** [arrayToCSV(data)]. *)
Definition arrayToCSV (data : list row) : jsstring :=
  match data with
  | [] => []
  | first :: _ =>
      let headers := keys first in
      join [NEWLINE]
        (join [COMMA] headers
         :: map (fun r => join [COMMA] (map (encode_cell r) headers)) data)
  end.

End Exporter.

(* ================================================================== *)
(** * import-variants.js *)
(* ================================================================== *)

(** The importer, source file [src/unnamed/part_000]: [parseCSV] (lines
    96-126), [parseCSVLine] (129-156), [makeGraphQLRequest] (159-200),
    [updateVariantMetafields] (203-293), [getProductIdFromVariantId]
    (296-318), [extractMetafields] (321-342), [processBatch] (345-408) and
    [importVariants] (411-478). *)

Module Importer.

(** A parsed CSV row: every cell is a string. *)
Definition row := obj jsstring.

(** What a call either returns or throws. *)
Inductive result (A : Type) :=
| Return (a : A)
| Throw (message : jsstring).
Arguments Return {A} a.
Arguments Throw {A} message.

(** ** Reading CSV *)

(** The loop of [parseCSVLine(line)] over the code units still to read;
    [line[i + 1]] is the head of what follows the current one. *)
Fixpoint parseCSVLine_loop (line : jsstring) (values : list jsstring)
         (current : jsstring) (inQuotes : bool) : list jsstring :=
  match line with
  | [] => values ++ [trim current]
  | c :: rest =>
      if char_eqb c QUOTE then
        match inQuotes, rest with
        | true, c' :: rest' =>
            if char_eqb c' QUOTE
            then parseCSVLine_loop rest' values (current ++ [QUOTE]) inQuotes
            else parseCSVLine_loop rest values current (negb inQuotes)
        | _, _ => parseCSVLine_loop rest values current (negb inQuotes)
        end
      else if char_eqb c COMMA && negb inQuotes then
        parseCSVLine_loop rest (values ++ [trim current]) [] inQuotes
      else
        parseCSVLine_loop rest values (current ++ [c]) inQuotes
  end.

Definition parseCSVLine (line : jsstring) : list jsstring :=
  parseCSVLine_loop line [] [] false.

(** The text of the [console.warn] for data line [i] (counted from 0, the
    header being line 0). *)
Definition warning (i nvalues nheaders : nat) : jsstring :=
  lit "Warning: Row " ++ of_nat (i + 1) ++ lit " has " ++ of_nat nvalues
  ++ lit " values but expected " ++ of_nat nheaders.

(** [values[index]], or the empty string when that is falsy. *)
Definition value_at (values : list jsstring) (index : nat) : jsstring :=
  match nth_error values index with
  | Some v => v
  | None => []
  end.

(** The [headers.forEach] that fills a row. *)
Fixpoint fill_row (headers : list jsstring) (index : nat)
         (values : list jsstring) (r : row) : row :=
  match headers with
  | [] => r
  | header :: headers' =>
      fill_row headers' (S index) values
               (JsObject.set header (value_at values index) r)
  end.

Definition make_row (headers values : list jsstring) : row :=
  fill_row headers 0 values [].

(** The [for] loop of [parseCSV] from line [i] on: the rows pushed to
    [data] and the warnings printed. *)
Fixpoint parseCSV_loop (headers : list jsstring) (lines : list jsstring)
         (i : nat) (data : list row) (warnings : list jsstring)
  : list row * list jsstring :=
  match lines with
  | [] => (data, warnings)
  | line :: rest =>
      let values := parseCSVLine line in
      if negb (length values =? length headers) then
        parseCSV_loop headers rest (S i) data
                      (warnings ++ [warning i (length values) (length headers)])
      else
        parseCSV_loop headers rest (S i)
                      (data ++ [make_row headers values]) warnings
  end.

Definition non_blank (line : jsstring) : bool := truthy (trim line).

Definition parse_headers (line : jsstring) : list jsstring :=
  map (fun h => trim (replace_all_quotes [] h)) (split COMMA line).

Definition TOO_SHORT : jsstring :=
  Eval cbv in lit "CSV file must have at least a header row and one data row".

(** [parseCSV(content)]: the rows, with the warnings printed on the way. *)
Definition parseCSV (content : jsstring)
  : result (list row * list jsstring) :=
  let lines := filter non_blank (split NEWLINE content) in
  match lines with
  | header :: ((_ :: _) as rest) =>
      Return (parseCSV_loop (parse_headers header) rest 1 [] [])
  | _ => Throw TOO_SHORT
  end.

(** ** Metafields of a row *)

(** [parts]: the column name with the first occurrence of the prefix
    replaced by the empty string, split at every underscore. *)
Definition column_parts (k : jsstring) : list jsstring :=
  split UNDERSCORE (replace_first METAFIELD_PREFIX [] k).

Definition SINGLE_LINE_TEXT_FIELD : jsstring :=
  Eval cbv in lit "single_line_text_field".

(** The callback of [Object.keys(row).forEach] in [extractMetafields]:
    what one column pushes. *)
Definition extract_column (r : row) (k : jsstring) : list Metafield :=
  match get r k with
  | Some v =>
      if startsWith METAFIELD_PREFIX k && truthy v then
        match column_parts k with
        | ns :: ((_ :: _) as rest) =>
            [ {| namespace := ns;
                 key := join [UNDERSCORE] rest;
                 value := v;
                 type := SINGLE_LINE_TEXT_FIELD |} ]
        | _ => []
        end
      else []
  | None => []
  end.

(** [extractMetafields(row)]. *)
Definition extractMetafields (r : row) : list Metafield :=
  flat_map (extract_column r) (keys r).

(** The property names [variant_id] and [variant_title]; [Object.prototype]
    has no member of either name, so a row without the column reads as
    [undefined]. *)
Definition VARIANT_ID : jsstring := Eval cbv in lit "variant_id".
Definition VARIANT_TITLE : jsstring := Eval cbv in lit "variant_title".

(** ** The remote endpoint *)

(** What [makeGraphQLRequest] is asked: the [getVariant] query of
    [getProductIdFromVariantId] with its [id] variable, or the
    [productVariantsBulkUpdate] mutation of [updateVariantMetafields] with
    its [productId] and its one variant.  A [variant_id] that the row
    lacks is [undefined], here [None]. *)
Inductive Request :=
| GetVariant (id : option jsstring)
| ProductVariantsBulkUpdate (productId : jsstring)
                            (variantId : option jsstring)
                            (metafields : list Metafield).

(** Evaluating a property path on the data of a reply either throws a
    [TypeError] or yields a value. *)
Inductive access (A : Type) :=
| Throws (message : jsstring)
| Yields (a : A).
Arguments Throws {A} message.
Arguments Yields {A} a.

(** [userErrors] of a mutation payload, as far as the script looks at it:
    its [length] and the text [JSON.stringify] gives for it. *)
Record UserErrors := {
  userErrors_length : nat;
  userErrors_json : jsstring
}.

(** The [data] of a reply, as far as the script looks at it:
    [response.productVariant?.product?.id] ([None] is [undefined] or
    [null]) and [response.productVariantsBulkUpdate.userErrors]. *)
Record Data := {
  productVariant_product_id : access (option jsstring);
  productVariantsBulkUpdate_userErrors : access UserErrors
}.

(** The promise of [makeGraphQLRequest] settles: rejected with an error
    (transport error, unparsable body, top-level GraphQL [errors]) or
    resolved with the [data] of the body. *)
Inductive Response :=
| Reject (message : jsstring)
| Resolve (data : Data).

(** [config], as far as the import reads it after start-up.  The batch
    size is 10 unless [--batch-size] gives another number; here it is a
    natural number, and with 0 the batch loop of the source never ends. *)
Record Config := {
  dryRun : bool;
  batchSize : nat
}.

(** One entry of the array [updateVariantMetafields] returns:
    [{ success: true, metafield, action: "dry-run" }],
    [{ success: true, metafield, response }] or
    [{ success: false, metafield, error }]. *)
Inductive MetafieldResult :=
| DryRunResult (metafield : Metafield)
| UpdatedResult (metafield : Metafield) (response : Data)
| FailedResult (metafield : Metafield) (error : jsstring).

Definition result_success (r : MetafieldResult) : bool :=
  match r with
  | DryRunResult _ | UpdatedResult _ _ => true
  | FailedResult _ _ => false
  end.

Definition result_metafield (r : MetafieldResult) : Metafield :=
  match r with
  | DryRunResult m | UpdatedResult m _ | FailedResult m _ => m
  end.

(** One entry of [results.details]. *)
Record Detail := {
  variantId : option jsstring;
  variantTitle : option jsstring;
  metafieldResults : list MetafieldResult
}.

(** The aggregate [processBatch] returns and [importVariants] sums. *)
Record Results := {
  success : nat;
  failed : nat;
  skipped : nat;
  details : list Detail
}.

Definition no_results : Results :=
  {| success := 0; failed := 0; skipped := 0; details := [] |}.

(** The four updates of [totalResults] after a batch. *)
Definition add_results (total batchResults : Results) : Results :=
  {| success := success total + success batchResults;
     failed := failed total + failed batchResults;
     skipped := skipped total + skipped batchResults;
     details := details total ++ details batchResults |}.

(** [`${v}`] for a value that may be [undefined]. *)
Definition template_text (v : option jsstring) : jsstring :=
  match v with
  | Some s => s
  | None => lit "undefined"
  end.

Section Remote.

(** The state of everything behind the endpoint, and how it answers. *)
Variable World : Type.
Variable endpoint : Request -> World -> Response * World.

(** The state a run threads: the remote world and the requests issued
    so far, oldest first. *)
Record Net := {
  world : World;
  trace : list Request
}.

Definition M (A : Type) := Net -> A * Net.

Definition ret {A} (a : A) : M A := fun net => (a, net).

Definition bind {A B} (m : M A) (f : A -> M B) : M B :=
  fun net => let (a, net') := m net in f a net'.

Notation "x <- m ;; k" := (bind m (fun x => k))
  (at level 61, m at next level, right associativity).

(** [await makeGraphQLRequest(query, variables)]. *)
Definition makeGraphQLRequest (request : Request) : M Response :=
  fun net =>
    let (response, w) := endpoint request (world net) in
    (response, {| world := w; trace := trace net ++ [request] |}).

(** [getProductIdFromVariantId(variantId)]: every failure is caught and
    turned into [null]. *)
Definition getProductIdFromVariantId (variantId : option jsstring)
  : M (option jsstring) :=
  response <- makeGraphQLRequest (GetVariant variantId) ;;
  match response with
  | Reject _ => ret None
  | Resolve data =>
      match productVariant_product_id data with
      | Throws _ => ret None
      | Yields id => ret id
      end
  end.

(** The [metafields] array of the mutation variables. *)
Definition mutation_metafields (metafields : list Metafield)
  : list Metafield :=
  map (fun metafield =>
         {| namespace := namespace metafield;
            key := key metafield;
            value := value metafield;
            type := if truthy (type metafield) then type metafield
                    else SINGLE_LINE_TEXT_FIELD |})
      metafields.

(** The [catch] block of [updateVariantMetafields]. *)
Definition all_failed (metafields : list Metafield) (message : jsstring)
  : list MetafieldResult :=
  map (fun metafield => FailedResult metafield message) metafields.

(** [updateVariantMetafields(variantId, metafields)]. *)
Definition updateVariantMetafields (config : Config)
           (variantId : option jsstring) (metafields : list Metafield)
  : M (list MetafieldResult) :=
  if length metafields =? 0 then ret []
  else if dryRun config then ret (map DryRunResult metafields)
  else
    productId <- getProductIdFromVariantId variantId ;;
    match productId with
    | Some ((_ :: _) as productId) =>
        response <- makeGraphQLRequest
                      (ProductVariantsBulkUpdate
                         productId variantId
                         (mutation_metafields metafields)) ;;
        match response with
        | Reject message => ret (all_failed metafields message)
        | Resolve data =>
            match productVariantsBulkUpdate_userErrors data with
            | Throws message => ret (all_failed metafields message)
            | Yields errors =>
                if 0 <? userErrors_length errors
                then ret (all_failed metafields
                            (lit "GraphQL errors: " ++ userErrors_json errors))
                else ret (map (fun metafield =>
                                 UpdatedResult metafield data)
                              metafields)
            end
        end
    | _ =>
        ret (all_failed metafields
               (lit "Could not find product for variant "
                ++ template_text variantId))
    end.

(** The body of the [for] loop of [processBatch].  Nothing inside its
    [try] block throws ([updateVariantMetafields] catches its own
    errors), so the [catch] block has no counterpart here. *)
Definition process_variant (config : Config) (results : Results)
           (variant : row) : M Results :=
  let variantId := get variant VARIANT_ID in
  let metafields := extractMetafields variant in
  if length metafields =? 0 then
    ret {| success := success results;
           failed := failed results;
           skipped := S (skipped results);
           details := details results |}
  else
    metafieldResults <- updateVariantMetafields config variantId metafields ;;
    let failCount :=
      length (filter (fun r => negb (result_success r)) metafieldResults) in
    let entry := {| variantId := variantId;
                    variantTitle := get variant VARIANT_TITLE;
                    metafieldResults := metafieldResults |} in
    if failCount =? 0 then
      ret {| success := S (success results);
             failed := failed results;
             skipped := skipped results;
             details := details results ++ [entry] |}
    else
      ret {| success := success results;
             failed := S (failed results);
             skipped := skipped results;
             details := details results ++ [entry] |}.

Fixpoint process_variants (config : Config) (results : Results)
         (variants : list row) : M Results :=
  match variants with
  | [] => ret results
  | variant :: rest =>
      results' <- process_variant config results variant ;;
      process_variants config results' rest
  end.

(** [processBatch(variants)]. *)
Definition processBatch (config : Config) (variants : list row)
  : M Results :=
  process_variants config no_results variants.

(** The batch loop of [importVariants] from index [i] on.  The source
    loop ends when [i] reaches [variants.length]; [fuel] bounds the
    number of batches, and [None] says that the bound was reached
    first.  The pause between two batches of a live run (lines 449-453)
    sends nothing and is left out here: this is the loop against a remote
    state that a second without a request leaves as it is.  The loop with
    the pause acting on the remote state is [import_loop_timed], further
    down. *)
Fixpoint import_loop (fuel : nat) (config : Config) (variants : list row)
         (i : nat) (totalResults : Results) : M (option Results) :=
  if i <? length variants then
    match fuel with
    | 0 => ret None
    | S fuel' =>
        let batch := firstn (batchSize config) (skipn i variants) in
        batchResults <- processBatch config batch ;;
        import_loop fuel' config variants (i + batchSize config)
                    (add_results totalResults batchResults)
    end
  else ret (Some totalResults).

(** [importVariants()] on the content of the input file: the aggregate
    written to the results file with the warnings printed while parsing,
    or the message of the error that makes the run exit with status 1;
    [None] when [fuel] batches were not enough. *)
Definition importVariants (fuel : nat) (config : Config)
           (csvContent : jsstring)
  : M (option (result (Results * list jsstring))) :=
  match parseCSV csvContent with
  | Throw message => ret (Some (Throw message))
  | Return (variants, warnings) =>
      total <- import_loop fuel config variants 0 no_results ;;
      match total with
      | Some totalResults => ret (Some (Return (totalResults, warnings)))
      | None => ret None
      end
  end.

End Remote.

End Importer.

Import Exporter Importer.

(* ================================================================== *)
(** * Vocabulary of the statements *)
(* ================================================================== *)

(** A string [trim] leaves alone: no white space at either end. *)
Definition trimmed (s : jsstring) : Prop := trim s = s.

(** A row of strings as an exported record. *)
Definition to_cells (r : Importer.row) : Exporter.row :=
  map (fun kv => (fst kv, VString (snd kv))) r.

(** The values of a row, in column order. *)
Definition values_of {A} (r : obj A) : list A := map snd r.

(** Own keys in the order every ordinary object keeps: an array-index key
    is preceded by smaller array-index keys only. *)
Fixpoint keys_ordered_from (lower : N) (ks : list jsstring) : bool :=
  match ks with
  | [] => true
  | k :: ks' =>
      match array_index k with
      | Some n => (lower <=? n)%N && keys_ordered_from (n + 1) ks'
      | None =>
          forallb (fun k' => match array_index k' with
                             | Some _ => false
                             | None => true
                             end) ks'
      end
  end.

Definition keys_ordered (ks : list jsstring) : bool := keys_ordered_from 0 ks.

(** What follows a closing quote: the end of the line or a code unit that
    is not a quote. *)
Definition no_leading_quote (tail : jsstring) : Prop :=
  match tail with
  | [] => True
  | c :: _ => char_eqb c QUOTE = false
  end.

(** A column name the reader takes as the encoder wrote it. *)
Definition plain_header (h : jsstring) : Prop :=
  includes COMMA h = false /\ includes QUOTE h = false
  /\ includes NEWLINE h = false /\ trimmed h /\ h <> PROTO.

(** A value on one line, without white space at either end; commas and
    double quotes are allowed. *)
Definition plain_value (v : jsstring) : Prop :=
  includes NEWLINE v = false /\ trimmed v.

(** The encoded line of the strings [vs]. *)
Definition line_of (vs : list jsstring) : jsstring :=
  join [COMMA] (map encode_string vs).

(** A row the reader gives back as it was: the columns of the header, plain
    values, and not the lone empty value that would make a blank line. *)
Definition plain_row (headers : list jsstring) (r : Importer.row) : Prop :=
  keys r = headers /\ Forall plain_value (values_of r)
  /\ values_of r <> [[]].

(** A row with something to write: the extraction is not empty. *)
Definition would_update (variant : Importer.row) : bool :=
  negb (length (extractMetafields variant) =? 0).

(** The aggregate of one row that is skipped, fails or succeeds. *)
Definition skipped_one : Results :=
  {| success := 0; failed := 0; skipped := 1; details := [] |}.

Definition failed_one (entry : Detail) : Results :=
  {| success := 0; failed := 1; skipped := 0; details := [entry] |}.

Definition succeeded_one (entry : Detail) : Results :=
  {| success := 1; failed := 0; skipped := 0; details := [entry] |}.

(** The detail entry of a row with the results of its metafields. *)
Definition entry_of (variant : Importer.row)
           (metafieldResults : list MetafieldResult) : Detail :=
  {| variantId := get variant VARIANT_ID;
     variantTitle := get variant VARIANT_TITLE;
     metafieldResults := metafieldResults |}.

(** What a detail entry says apart from the outcome: which variant, which
    metafields. *)
Definition entry_payload (entry : Detail)
  : option jsstring * option jsstring * list Metafield :=
  (variantId entry, variantTitle entry,
   map result_metafield (metafieldResults entry)).

Definition row_payload (variant : Importer.row)
  : option jsstring * option jsstring * list Metafield :=
  (get variant VARIANT_ID, get variant VARIANT_TITLE,
   extractMetafields variant).

(** The mutation request of a row under the product [productId]. *)
Definition mutation_of (productId : jsstring) (variant : Importer.row)
  : Request :=
  ProductVariantsBulkUpdate productId (get variant VARIANT_ID)
    (mutation_metafields (extractMetafields variant)).

Definition lookup_of (variant : Importer.row) : Request :=
  GetVariant (get variant VARIANT_ID).

(** The requests of the network stage of one row in a live run: the
    lookup alone, or the lookup followed by the mutation. *)
Definition network_stage (variant : Importer.row) (requests : list Request)
  : Prop :=
  requests = [lookup_of variant]
  \/ exists productId,
      requests = [lookup_of variant; mutation_of productId variant].

Definition is_mutation (request : Request) : bool :=
  match request with
  | ProductVariantsBulkUpdate _ _ _ => true
  | GetVariant _ => false
  end.

(** The error text of a reply to the mutation, if it is a failure: the
    rejection of the promise (transport error, unparsable body, top-level
    errors), a payload the script cannot read, or reported [userErrors]. *)
Definition mutation_error (response : Response) : option jsstring :=
  match response with
  | Reject message => Some message
  | Resolve data =>
      match productVariantsBulkUpdate_userErrors data with
      | Throws message => Some message
      | Yields errors =>
          if 0 <? userErrors_length errors
          then Some (lit "GraphQL errors: " ++ userErrors_json errors)
          else None
      end
  end.

(** A mutation request carries no empty value. *)
Definition writes_no_empty_value (request : Request) : Prop :=
  match request with
  | ProductVariantsBulkUpdate _ _ metafields =>
      Forall (fun metafield => value metafield <> []) metafields
  | GetVariant _ => True
  end.

Definition live (size : nat) : Config := {| dryRun := false; batchSize := size |}.
Definition dry (size : nat) : Config := {| dryRun := true; batchSize := size |}.

(** ** The reader, line by line *)

(** A data line is kept when the line reader finds as many fields as there
    are headers. *)
Definition kept (headers : list jsstring) (line : jsstring) : bool :=
  length (parseCSVLine line) =? length headers.

(** The row of a data line. *)
Definition row_of_line (headers : list jsstring) (line : jsstring)
  : Importer.row :=
  make_row headers (parseCSVLine line).

(** Lines with their index, the first one being line [i]. *)
Definition numbered (i : nat) (lines : list jsstring)
  : list (nat * jsstring) :=
  combine (seq i (length lines)) lines.

Definition dropped_lines (headers : list jsstring) (lines : list jsstring)
  : list (nat * jsstring) :=
  filter (fun il => negb (kept headers (snd il))) (numbered 1 lines).

(** The warning printed for a dropped line. *)
Definition warning_of (headers : list jsstring) (il : nat * jsstring)
  : jsstring :=
  warning (fst il) (length (parseCSVLine (snd il))) (length headers).

(** ** The write path in the words of the specification *)

(** A value is quoted when it contains a comma, a double quote or a line
    feed; quoting wraps it in double quotes and doubles the double quotes
    inside. *)
Definition spec_must_quote (s : jsstring) : bool :=
  existsb (fun c => char_eqb c COMMA || char_eqb c QUOTE || char_eqb c NEWLINE) s.

Definition spec_quoted (s : jsstring) : jsstring :=
  [QUOTE] ++ flat_map (fun c => if char_eqb c QUOTE then [QUOTE; QUOTE] else [c]) s
  ++ [QUOTE].

Definition spec_field (s : jsstring) : jsstring :=
  if spec_must_quote s then spec_quoted s else s.

(** The cell of a row of strings under a column; a missing cell is empty. *)
Definition cell_text (r : Importer.row) (column : jsstring) : jsstring :=
  match get r column with
  | Some v => v
  | None => []
  end.

(** The value of a row under a column, as a read of the property finds
    it: the row's own value, else the member of that name every object
    inherits, else nothing. *)
Definition column_value (r : Exporter.row) (column : jsstring) : option cell :=
  match get r column with
  | Some c => Some c
  | None =>
      match inherited column with
      | Some text => Some (VOther true text)
      | None => None
      end
  end.

(** The text of a value: nothing for an absent or falsy one (the empty
    string, 0, [false], [null]). *)
Definition value_text (v : option cell) : jsstring :=
  match v with
  | Some (VString s) => s
  | Some (VOther true t) => t
  | Some (VOther false _) | None => []
  end.

(** The field written for a value: a string by the quoting rule, a value
    that is not a string as its text, an absent or falsy value as the
    empty text. *)
Definition spec_cell (v : option cell) : jsstring :=
  match v with
  | Some (VString s) => spec_field s
  | Some (VOther true t) => t
  | Some (VOther false _) | None => []
  end.

(** A value whose text, when it is not a string, holds no comma, double
    quote or line feed: so are numbers and booleans. *)
Definition scalar_value (v : option cell) : Prop :=
  match v with
  | Some (VOther true t) => spec_must_quote t = false
  | _ => True
  end.

(** Given an ordered column list and a sequence of rows: the comma-joined
    column names, then one comma-joined line of fields per row, the lines
    joined by a single line feed. *)
Definition encode_spec (columns : list jsstring) (rows : list Exporter.row)
  : jsstring :=
  join [NEWLINE]
       (join [COMMA] columns
        :: map (fun r => join [COMMA]
                              (map (fun c => spec_cell (column_value r c))
                                   columns))
               rows).

(** A row with every value trimmed. *)
Definition trimmed_row (r : Importer.row) : Importer.row :=
  map (fun kv => (fst kv, trim (snd kv))) r.

(** A row the reader gives back with its values trimmed: the columns of
    the header, values on one line, and a line that is not blank. *)
Definition readable_row (headers : list jsstring) (r : Importer.row) : Prop :=
  keys r = headers
  /\ Forall (fun v => includes NEWLINE v = false) (values_of r)
  /\ non_blank (line_of (values_of r)) = true.

(** ** Inputs of the examples *)

Definition QUOTED_NOTE : jsstring :=
  Eval cbv in lit "a," ++ [QUOTE] ++ lit "b" ++ [QUOTE].

(** Two variants of one product; the note of the first holds a comma and
    double quotes. *)
Definition sample_rows : list Importer.row :=
  [ [ (VARIANT_ID, lit "gid://shopify/ProductVariant/1");
      (VARIANT_TITLE, lit "Small / Black frame");
      (lit "metafield_custom_note", QUOTED_NOTE) ];
    [ (VARIANT_ID, lit "gid://shopify/ProductVariant/2");
      (VARIANT_TITLE, lit "Large");
      (lit "metafield_custom_note", []) ] ].

(** A value of two lines. *)
Definition line_feed_value : jsstring :=
  Eval cbv in lit "x" ++ [NEWLINE] ++ lit "y".

(** One row whose first value starts with a space. *)
Definition padded_rows : list Importer.row :=
  [ [ (lit "a", lit " x"); (lit "b", lit "y") ] ].

Definition padded_rows_read : list Importer.row :=
  [ [ (lit "a", lit "x"); (lit "b", lit "y") ] ].

(** A header of two columns and a data line whose first field is quoted and
    holds a comma. *)
Definition quoted_comma_file : jsstring :=
  Eval cbv in
    lit "a,b" ++ [NEWLINE] ++ [QUOTE] ++ lit "x,y" ++ [QUOTE] ++ lit ",z".

Definition quoted_comma_line : jsstring :=
  Eval cbv in [QUOTE] ++ lit "x,y" ++ [QUOTE] ++ lit ",z".

(** A header of two columns, a line of three fields between two lines of
    two. *)
Definition ragged_file : jsstring :=
  Eval cbv in
    lit "variant_id,metafield_custom_popular" ++ [NEWLINE]
    ++ lit "v1,true" ++ [NEWLINE]
    ++ lit "v2,true,extra" ++ [NEWLINE]
    ++ lit "v3,".

(** A variant with one populated metafield column. *)
Definition variant_row (id title : string) : Importer.row :=
  [ (VARIANT_ID, lit id); (VARIANT_TITLE, lit title);
    (lit "metafield_custom_popular", lit "true") ].

(** A variant with one empty and one populated metafield column. *)
Definition mixed_row : Importer.row :=
  [ (VARIANT_ID, lit "v1");
    (lit "metafield_custom_popular", []);
    (lit "metafield_custom_size", lit "L") ].

Definition custom_size : Metafield :=
  {| namespace := lit "custom"; key := lit "size"; value := lit "L";
     type := lit "single_line_text_field" |}.

(** A variant whose metafield column is empty. *)
Definition untouched_row (id title : string) : Importer.row :=
  [ (VARIANT_ID, lit id); (VARIANT_TITLE, lit title);
    (lit "metafield_custom_popular", []) ].

Definition five_rows : list Importer.row :=
  [ variant_row "v1" "One"; variant_row "v2" "Two"; variant_row "v3" "Three";
    variant_row "v4" "Four"; variant_row "v5" "Five" ].

Definition FOUND (productId : jsstring) : Data :=
  {| productVariant_product_id := Yields (Some productId);
     productVariantsBulkUpdate_userErrors :=
       Throws (lit "Cannot read properties of undefined") |}.

Definition NOT_FOUND : Data :=
  {| productVariant_product_id := Yields None;
     productVariantsBulkUpdate_userErrors :=
       Throws (lit "Cannot read properties of undefined") |}.

Definition APPLIED : Data :=
  {| productVariant_product_id := Yields None;
     productVariantsBulkUpdate_userErrors :=
       Yields {| userErrors_length := 0; userErrors_json := lit "[]" |} |}.

Definition same_id (a b : option jsstring) : bool :=
  match a, b with
  | Some x, Some y => str_eqb x y
  | None, None => true
  | _, _ => false
  end.

(** A shop that finds the product of every variant and applies every
    mutation but those of the variant [refused], which it rejects; its
    state is the number of requests it has served. *)
Definition shop (refused : option jsstring) (request : Request) (served : nat)
  : Response * nat :=
  match request with
  | GetVariant _ => (Resolve (FOUND (lit "gid://shopify/Product/7")), S served)
  | ProductVariantsBulkUpdate _ variantId _ =>
      if same_id variantId refused
      then (Reject (lit "Throttled"), S served)
      else (Resolve APPLIED, S served)
  end.

(** A shop that knows no variant. *)
Definition empty_shop (request : Request) (served : nat) : Response * nat :=
  match request with
  | GetVariant _ => (Resolve NOT_FOUND, S served)
  | ProductVariantsBulkUpdate _ _ _ => (Resolve APPLIED, S served)
  end.

Definition fresh : Net nat := {| world := 0; trace := [] |}.

(** The request is about the variant [id]. *)
Definition about (id : string) (request : Request) : bool :=
  match request with
  | GetVariant variantId
  | ProductVariantsBulkUpdate _ variantId _ => same_id variantId (Some (lit id))
  end.

(** The metafield [custom.popular = true]. *)
Definition custom_popular : Metafield :=
  {| namespace := lit "custom"; key := lit "popular"; value := lit "true";
     type := lit "boolean" |}.

(** A metafield whose namespace holds an underscore. *)
Definition cross_sell_x : Metafield :=
  {| namespace := lit "cross_sell"; key := lit "x"; value := lit "1";
     type := SINGLE_LINE_TEXT_FIELD |}.

(** ** Replies of the endpoint, row by row *)

(** Whatever its state, the endpoint finds the product of the row. *)
Definition finds_product {World} (endpoint : Request -> World -> Response * World)
           (variant : Importer.row) : Prop :=
  forall w, exists data productId w',
      endpoint (lookup_of variant) w = (Resolve data, w')
      /\ productVariant_product_id data = Yields (Some productId)
      /\ productId <> [].

(** Whatever its state, the endpoint finds the product of the row and
    accepts the mutation of the row. *)
Definition accepts {World} (endpoint : Request -> World -> Response * World)
           (variant : Importer.row) : Prop :=
  finds_product endpoint variant
  /\ forall w productId, exists data w',
        endpoint (mutation_of productId variant) w = (Resolve data, w')
        /\ mutation_error (Resolve data) = None.

(** Whatever its state, the endpoint finds the product of the row and the
    mutation of the row fails. *)
Definition rejects {World} (endpoint : Request -> World -> Response * World)
           (variant : Importer.row) : Prop :=
  finds_product endpoint variant
  /\ forall w productId, exists response w' message,
        endpoint (mutation_of productId variant) w = (response, w')
        /\ mutation_error response = Some message.

(** The mutation of the row is among the requests. *)
Definition attempted (variant : Importer.row) (requests : list Request) : Prop :=
  exists productId, In (mutation_of productId variant) requests.

(* ================================================================== *)
(** * The rest of the exporter: records and columns *)
(* ================================================================== *)

(** What [exportVariants] (export-variants.js, lines 384-484) does between
    the replies of the API and the text it writes, with
    [extractVariantMetafields] (lines 339-341) and the namespace filter of
    [getVariantMetafieldDefinitions] (lines 258-336). *)

(** Truthiness of a cell, and [a || b]. *)
Definition cell_truthy (c : cell) : bool :=
  match c with
  | VString s => truthy s
  | VOther b _ => b
  end.

Definition cell_or (a b : cell) : cell := if cell_truthy a then a else b.

Definition EMPTY : cell := VString [].
Definition ZERO : cell := VOther false (lit "0").
Definition UNDEFINED : cell := VOther false (lit "undefined").

(** One of [variant.selectedOptions]. *)
Module SelectedOption.
Record t := { name : cell; value : cell }.
End SelectedOption.

(** A variant node of the reply, as far as [exportVariants] reads it.
    [price_amount] is [variant.price?.amount], [metafields_edges] the nodes
    of [variant.metafields?.edges] ([None] when a link of that chain is
    missing). *)
Module Variant.
Record t := {
  id : cell;
  title : cell;
  sku : cell;
  barcode : cell;
  price_amount : cell;
  compareAtPrice_amount : cell;
  inventoryQuantity : cell;
  inventoryPolicy : cell;
  taxable : cell;
  createdAt : cell;
  updatedAt : cell;
  selectedOptions : option (list SelectedOption.t);
  metafields_edges : option (list Metafield)
}.
End Variant.

(** A product of the reply; [variants] are the nodes of
    [product.variants.edges]. *)
Module Product.
Record t := {
  id : cell;
  title : cell;
  handle : cell;
  variants : list Variant.t
}.
End Product.

(** A node of the metafield definitions of the reply. *)
Module MetafieldDefinition.
Record t := { namespace : jsstring; key : jsstring }.
End MetafieldDefinition.

(** [extractVariantMetafields(variant)]. *)
Definition extractVariantMetafields (variant : Variant.t) : list Metafield :=
  match Variant.metafields_edges variant with
  | Some nodes => nodes
  | None => []
  end.

(** [excludedNamespaces]. *)
Definition excludedNamespaces : list jsstring :=
  Eval cbv in
    map lit
        [ "shopify"; "global"; "reviews"; "judge_me"; "yotpo"; "stamped";
          "loox"; "okendo"; "gorgias"; "klaviyo"; "mailchimp"; "privy";
          "bold"; "recharge"; "subscription"; "upsell"; "cross_sell";
          "product_bundles"; "inventory_quantity";
          "inventory_management" ]%string.

Definition CUSTOM : jsstring := Eval cbv in lit "custom".

(** The callback of the filter in [getVariantMetafieldDefinitions]. *)
Definition keeps_definition (metafield : MetafieldDefinition.t) : bool :=
  let namespace := MetafieldDefinition.namespace metafield in
  str_eqb namespace CUSTOM
  || negb (existsb (str_eqb namespace) excludedNamespaces).

(** [getVariantMetafieldDefinitions()] on the reply to its query: [None]
    when the request fails or the payload cannot be read, which the
    function catches. *)
Definition getVariantMetafieldDefinitions (includeAllMetafields : bool)
           (reply : option (list MetafieldDefinition.t))
  : list MetafieldDefinition.t :=
  match reply with
  | None => []
  | Some nodes =>
      if negb includeAllMetafields then filter keeps_definition nodes
      else nodes
  end.

(** [allMetafieldKeys.add(key)] on a [Set], kept in insertion order. *)
Definition set_add (k : jsstring) (s : list jsstring) : list jsstring :=
  if existsb (str_eqb k) s then s else s ++ [k].

(** [allMetafieldKeys] after the loop over the definitions. *)
Definition allMetafieldKeys (definitions : list MetafieldDefinition.t)
  : list jsstring :=
  fold_left
    (fun keys metafield =>
       set_add (column_name (MetafieldDefinition.namespace metafield)
                            (MetafieldDefinition.key metafield)) keys)
    definitions [].

(** [variant.selectedOptions?.find(opt => opt.name === wanted)?.value],
    or the empty string when that is falsy. *)
Definition option_value (variant : Variant.t) (wanted : jsstring) : cell :=
  cell_or
    match Variant.selectedOptions variant with
    | None => UNDEFINED
    | Some options =>
        match find (fun opt => match SelectedOption.name opt with
                               | VString s => str_eqb s wanted
                               | VOther _ _ => false
                               end) options with
        | Some opt => SelectedOption.value opt
        | None => UNDEFINED
        end
    end
    EMPTY.

(** The object literal [variantRecord]. *)
Definition variantRecord_literal (product : Product.t) (variant : Variant.t)
  : Exporter.row :=
  [ (lit "product_id", Product.id product);
    (lit "product_title", Product.title product);
    (lit "product_handle", Product.handle product);
    (lit "variant_id", Variant.id variant);
    (lit "variant_title", Variant.title variant);
    (lit "variant_sku", cell_or (Variant.sku variant) EMPTY);
    (lit "variant_barcode", cell_or (Variant.barcode variant) EMPTY);
    (lit "variant_price", cell_or (Variant.price_amount variant) EMPTY);
    (lit "variant_compare_at_price",
     cell_or (Variant.compareAtPrice_amount variant) EMPTY);
    (lit "variant_inventory_quantity",
     cell_or (Variant.inventoryQuantity variant) ZERO);
    (lit "variant_inventory_policy",
     cell_or (Variant.inventoryPolicy variant) EMPTY);
    (lit "variant_taxable", Variant.taxable variant);
    (lit "variant_option1", option_value variant (lit "Option1"));
    (lit "variant_option2", option_value variant (lit "Option2"));
    (lit "variant_option3", option_value variant (lit "Option3"));
    (lit "variant_created_at", Variant.createdAt variant);
    (lit "variant_updated_at", Variant.updatedAt variant) ].

(** [flattenedMetafields[key]], or the empty string when that is falsy. *)
Definition metafield_cell (flattened : obj jsstring) (k : jsstring) : cell :=
  match get flattened k with
  | Some v => VString v
  | None =>
      match inherited k with
      | Some text => VOther true text
      | None => EMPTY
      end
  end.

(** The record pushed to [allVariants] for one variant: the literal, then
    one assignment per key of [allMetafieldKeys]. *)
Definition variant_record (metafieldKeys : list jsstring)
           (product : Product.t) (variant : Variant.t) : Exporter.row :=
  let flattenedMetafields :=
    flattenMetafields (extractVariantMetafields variant) in
  fold_left
    (fun variantRecord k =>
       JsObject.set k (metafield_cell flattenedMetafields k) variantRecord)
    metafieldKeys (variantRecord_literal product variant).

(** [allVariants] after the loops over products and variants. *)
Definition allVariants (metafieldKeys : list jsstring)
           (products : list Product.t) : list Exporter.row :=
  flat_map (fun product =>
              map (variant_record metafieldKeys product)
                  (Product.variants product))
           products.

(** The text [exportVariants] writes to the output file, from the replies
    to its two queries.  [Throw] stands for every way the products end in
    the [catch] block, which exits without a file: the query fails, or
    its reply cannot be walked (no product of the given id, so that
    [getProducts] returns an array holding [null]). *)
Definition exportVariants (includeAllMetafields : bool)
           (definitions_reply : option (list MetafieldDefinition.t))
           (products_reply : result (list Product.t)) : result jsstring :=
  let metafieldDefinitions :=
    getVariantMetafieldDefinitions includeAllMetafields definitions_reply in
  match products_reply with
  | Throw message => Throw message
  | Return products =>
      Return (arrayToCSV (allVariants (allMetafieldKeys metafieldDefinitions)
                                      products))
  end.

(** The columns of the literal. *)
Definition FIXED_COLUMNS : list jsstring :=
  Eval cbv in
    map lit
        [ "product_id"; "product_title"; "product_handle"; "variant_id";
          "variant_title"; "variant_sku"; "variant_barcode"; "variant_price";
          "variant_compare_at_price"; "variant_inventory_quantity";
          "variant_inventory_policy"; "variant_taxable"; "variant_option1";
          "variant_option2"; "variant_option3"; "variant_created_at";
          "variant_updated_at" ]%string.

(** The text of a cell once [arrayToCSV] has replaced a falsy one by the
    empty string. *)
Definition written_text (c : cell) : jsstring :=
  match c with
  | VString s => s
  | VOther true t => t
  | VOther false _ => []
  end.

(* ================================================================== *)
(** * The batch loop on JavaScript numbers *)
(* ================================================================== *)

(** [config.batchSize] is what [parseInt] made of the argument of
    [--batch-size]: an integer, or [NaN] when the argument does not start
    with a digit or is missing.  (An integer beyond the exact range of a
    Number is rounded by [parseInt]; the loop cannot tell it from any
    other integer above the number of rows.) *)
Inductive number :=
| NaN
| Num (z : Z).

(** [a + b] and [a < n]. *)
Definition number_add (a b : number) : number :=
  match a, b with
  | Num x, Num y => Num (x + y)
  | _, _ => NaN
  end.

Definition number_lt (a : number) (n : nat) : bool :=
  match a with
  | Num x => (x <? Z.of_nat n)%Z
  | NaN => false
  end.

(** A relative index of [Array.prototype.slice] into an array of [len]
    elements: [NaN] is 0, a negative index counts from the end. *)
Definition relative_index (k : number) (len : nat) : nat :=
  match k with
  | NaN => 0
  | Num z =>
      if (z <? 0)%Z then Z.to_nat (Z.max (Z.of_nat len + z) 0)
      else Z.to_nat (Z.min z (Z.of_nat len))
  end.

(** [l.slice(start, stop)]. *)
Definition slice {A} (l : list A) (start stop : number) : list A :=
  let from := relative_index start (length l) in
  let to := relative_index stop (length l) in
  firstn (to - from) (skipn from l).

Section NumberLoop.

Variable World : Type.
Variable endpoint : Request -> World -> Response * World.

(** The batch loop of [importVariants] (lines 434-454) with the index and
    the batch size as JavaScript numbers, without its pauses like
    [import_loop]. *)
Fixpoint import_loop_number (fuel : nat) (config : Config)
         (size : number) (variants : list Importer.row) (i : number)
         (totalResults : Results) : M World (option Results) :=
  if number_lt i (length variants) then
    match fuel with
    | 0 => ret None
    | S fuel' =>
        let batch := slice variants i (number_add i size) in
        bind (processBatch endpoint config batch)
             (fun batchResults =>
                import_loop_number fuel' config size variants
                                   (number_add i size)
                                   (add_results totalResults batchResults))
    end
  else ret (Some totalResults).

End NumberLoop.

(** ** More inputs of the examples *)

Definition CR : char := 13%N.

(** A file with carriage returns before the line feeds, a blank line and a
    line feed at the end. *)
Definition windows_file : jsstring :=
  Eval cbv in
    lit "variant_id,metafield_custom_popular" ++ [CR; NEWLINE]
    ++ lit "v1,true" ++ [CR; NEWLINE]
    ++ [CR; NEWLINE]
    ++ lit "v2," ++ [CR; NEWLINE].

Definition unix_file : jsstring :=
  Eval cbv in
    lit "variant_id,metafield_custom_popular" ++ [NEWLINE]
    ++ lit "v1,true" ++ [NEWLINE]
    ++ lit "v2,".

(** Two definitions, one of them in an excluded namespace. *)
Definition sample_definitions : list MetafieldDefinition.t :=
  [ {| MetafieldDefinition.namespace := lit "custom";
       MetafieldDefinition.key := lit "popular" |};
    {| MetafieldDefinition.namespace := lit "judge_me";
       MetafieldDefinition.key := lit "badge" |};
    {| MetafieldDefinition.namespace := lit "custom";
       MetafieldDefinition.key := lit "size" |} ].

Definition text_cell (s : string) : cell := VString (lit s).

(** A variant with two metafields, one of them without a definition, no
    stock and no barcode. *)
Definition sample_variant (id : string) (metafields : list Metafield)
  : Variant.t :=
  {| Variant.id := text_cell id;
     Variant.title := text_cell "Small";
     Variant.sku := text_cell "SKU-1";
     Variant.barcode := UNDEFINED;
     Variant.price_amount := UNDEFINED;
     Variant.compareAtPrice_amount := UNDEFINED;
     Variant.inventoryQuantity := VOther false (lit "0");
     Variant.inventoryPolicy := text_cell "DENY";
     Variant.taxable := VOther true (lit "true");
     Variant.createdAt := text_cell "2024-01-01T00:00:00Z";
     Variant.updatedAt := text_cell "2024-01-02T00:00:00Z";
     Variant.selectedOptions :=
       Some [ {| SelectedOption.name := text_cell "Size";
                 SelectedOption.value := text_cell "Small" |} ];
     Variant.metafields_edges := Some metafields |}.

Definition secret_note : Metafield :=
  {| namespace := lit "internal"; key := lit "note"; value := lit "x";
     type := SINGLE_LINE_TEXT_FIELD |}.

Definition sample_product : Product.t :=
  {| Product.id := text_cell "gid://shopify/Product/7";
     Product.title := text_cell "Print";
     Product.handle := text_cell "print";
     Product.variants :=
       [ sample_variant "gid://shopify/ProductVariant/1"
                        [custom_popular; secret_note];
         sample_variant "gid://shopify/ProductVariant/2" [] ] |}.

(** ** Vocabulary of the further properties *)

(** What [getProductIdFromVariantId] makes of a reply. *)
Definition product_of (response : Response) : option jsstring :=
  match response with
  | Reject _ => None
  | Resolve data =>
      match productVariant_product_id data with
      | Throws _ => None
      | Yields id => id
      end
  end.

(** An endpoint that never names a product: whatever the variant and its
    state, the lookup is rejected, unreadable, or yields nothing or the
    empty string. *)
Definition never_finds {World}
           (endpoint : Request -> World -> Response * World) : Prop :=
  forall id w, product_of (fst (endpoint (GetVariant id) w)) = None
               \/ product_of (fst (endpoint (GetVariant id) w)) = Some [].

(** The message of the failure when no product is found. *)
Definition NOT_FOUND_MESSAGE (variant : Importer.row) : jsstring :=
  lit "Could not find product for variant "
  ++ template_text (get variant VARIANT_ID).

(** The results of the metafields of one row are of one kind: all from a
    dry run, all updated with the same reply, or all failed with the same
    text. *)
Definition uniform_results (metafields : list Metafield)
           (results : list MetafieldResult) : Prop :=
  results = map DryRunResult metafields
  \/ (exists data,
         results = map (fun metafield => UpdatedResult metafield data)
                       metafields)
  \/ exists message, results = all_failed metafields message.

(** What a mutation may write: a namespace without underscore, the type
    [single_line_text_field]. *)
Definition writes_plain_text_only (request : Request) : Prop :=
  match request with
  | ProductVariantsBulkUpdate _ _ metafields =>
      Forall (fun metafield =>
                includes UNDERSCORE (namespace metafield) = false
                /\ type metafield = SINGLE_LINE_TEXT_FIELD) metafields
  | GetVariant _ => True
  end.

(** The text with a carriage return put before every line feed. *)
Definition crlf (content : jsstring) : jsstring :=
  flat_map (fun c => if char_eqb c NEWLINE then [CR; NEWLINE] else [c]) content.

(** A record as the text of its cells. *)
Definition shown (r : Exporter.row) : Importer.row :=
  map (fun kv => (fst kv, written_text (snd kv))) r.

(** The results of a row that failed with the error text [message]: one
    failure for each of its metafields, each with that text. *)
Definition each_failed_with (message : jsstring) (metafields : list Metafield)
  : list MetafieldResult :=
  map (fun metafield => FailedResult metafield message) metafields.

(** The network stage of one row of a live run from the remote state [w]:
    the lookup, followed, when its reply names a product, by the mutation
    under that product; with the state the stage leaves. *)
Definition stage_requests {World}
           (endpoint : Request -> World -> Response * World)
           (variant : Importer.row) (w : World) : list Request * World :=
  let (reply, w1) := endpoint (lookup_of variant) w in
  match product_of reply with
  | Some ((_ :: _) as productId) =>
      ([lookup_of variant; mutation_of productId variant],
       snd (endpoint (mutation_of productId variant) w1))
  | _ => ([lookup_of variant], w1)
  end.

(** The stages of the rows with something to write, in row order, each
    from the state the one before left. *)
Fixpoint live_requests {World}
         (endpoint : Request -> World -> Response * World)
         (variants : list Importer.row) (w : World) : list Request * World :=
  match variants with
  | [] => ([], w)
  | variant :: rest =>
      if would_update variant then
        let (requests, w1) := stage_requests endpoint variant w in
        let (more, w2) := live_requests endpoint rest w1 in
        (requests ++ more, w2)
      else live_requests endpoint rest w
  end.

(** The variants of an export with their products, in the order of the
    records. *)
Definition exported_variants (products : list Product.t)
  : list (Product.t * Variant.t) :=
  flat_map (fun product => map (pair product) (Product.variants product))
           products.

(* ================================================================== *)
(** * The batch loop with its pauses *)
(* ================================================================== *)

Section Timed.

Variable World : Type.
Variable endpoint : Request -> World -> Response * World.

(** What a second without a request does to the remote state: a rate
    limit recovers, a bucket refills. *)
Variable pause : World -> World.

(** [await new Promise((resolve) => setTimeout(resolve, 1000))]. *)
Definition wait : M World unit :=
  fun net => (tt, {| world := pause (world net); trace := trace net |}).

(** The batch loop of [importVariants] (lines 434-454) with the pause
    between two batches of a live run (lines 449-453). *)
Fixpoint import_loop_timed (fuel : nat) (config : Config)
         (variants : list Importer.row) (i : nat) (totalResults : Results)
  : M World (option Results) :=
  if i <? length variants then
    match fuel with
    | 0 => ret None
    | S fuel' =>
        let batch := firstn (batchSize config) (skipn i variants) in
        bind (processBatch endpoint config batch)
             (fun batchResults =>
                bind (if (i + batchSize config <? length variants)
                         && negb (dryRun config)
                      then wait else ret tt)
                     (fun _ =>
                        import_loop_timed fuel' config variants
                                          (i + batchSize config)
                                          (add_results totalResults
                                                       batchResults)))
    end
  else ret (Some totalResults).


End Timed.

(** A shop with a rate limit: its state is the number of requests served
    since the last pause; it finds the product of every variant and
    applies a mutation unless four requests or more came before it
    without a pause. *)
Definition throttled_shop (request : Request) (served : nat)
  : Response * nat :=
  match request with
  | GetVariant _ => (Resolve (FOUND (lit "gid://shopify/Product/7")), S served)
  | ProductVariantsBulkUpdate _ _ _ =>
      if 4 <=? served then (Reject (lit "Throttled"), S served)
      else (Resolve APPLIED, S served)
  end.

(** A pause lets the rate limit recover. *)
Definition recover (served : nat) : nat := 0.

(** Two records that do not have the same columns: the second lacks the
    first column of the first and has one more; the first holds a string
    with a comma and a number. *)
Definition irregular_records : list Exporter.row :=
  [ [ (lit "a", VString (lit "x,y")); (lit "b", VOther true (lit "5")) ];
    [ (lit "b", VString (lit "q")); (lit "c", VString (lit "extra")) ] ].

(** The text of the export of the sample product under the sample
    definitions: the stock of zero and the cells that are not defined are
    empty, the boolean is written as its text. *)
Definition EXPORTED_SAMPLE : jsstring :=
  Eval cbv in
    lit "product_id,product_title,product_handle,variant_id,variant_title,variant_sku,variant_barcode,variant_price,variant_compare_at_price,variant_inventory_quantity,variant_inventory_policy,variant_taxable,variant_option1,variant_option2,variant_option3,variant_created_at,variant_updated_at,metafield_custom_popular,metafield_custom_size"
    ++ [NEWLINE]
    ++ lit "gid://shopify/Product/7,Print,print,gid://shopify/ProductVariant/1,Small,SKU-1,,,,,DENY,true,,,,2024-01-01T00:00:00Z,2024-01-02T00:00:00Z,true,"
    ++ [NEWLINE]
    ++ lit "gid://shopify/Product/7,Print,print,gid://shopify/ProductVariant/2,Small,SKU-1,,,,,DENY,true,,,,2024-01-01T00:00:00Z,2024-01-02T00:00:00Z,,".

(** A cell the reader gives back as its text: the text on one line and
    without white space at either end, and the text of a truthy value that
    is not a string (a number, [true]) without comma or double quote. *)
Definition plain_cell (c : cell) : Prop :=
  plain_value (written_text c)
  /\ match c with
     | VOther true t => needs_quoting t = false
     | _ => True
     end.

(** A definition whose column name the reader takes as it is written. *)
Definition plain_definition (d : MetafieldDefinition.t) : Prop :=
  plain_header (column_name (MetafieldDefinition.namespace d)
                            (MetafieldDefinition.key d)).

Arguments char_eqb : simpl never.
Arguments is_whitespace : simpl never.

(* ================================================================== *)
(** * Strings: equality, prefixes, splitting and joining *)
(* ================================================================== *)

Lemma char_eqb_eq (a b : char) : char_eqb a b = true <-> a = b.
Proof. unfold char_eqb. apply N.eqb_eq. Qed.

Lemma char_eqb_refl (a : char) : char_eqb a a = true.
Proof. apply char_eqb_eq. reflexivity. Qed.

Lemma char_eqb_neq (a b : char) : char_eqb a b = false <-> a <> b.
Proof. unfold char_eqb. apply N.eqb_neq. Qed.

Lemma char_eqb_sym (a b : char) : char_eqb a b = char_eqb b a.
Proof. unfold char_eqb. apply N.eqb_sym. Qed.

Lemma str_eqb_eq (a b : jsstring) : str_eqb a b = true <-> a = b.
Proof.
  revert b. induction a as [|x a IH]; intros [|y b]; simpl;
    try (split; [discriminate | congruence]).
  - split; reflexivity.
  - rewrite andb_true_iff, char_eqb_eq, IH. split.
    + intros [-> ->]. reflexivity.
    + intros E. inversion E. auto.
Qed.

Lemma str_eqb_refl (a : jsstring) : str_eqb a a = true.
Proof. apply str_eqb_eq. reflexivity. Qed.

Lemma str_eqb_neq (a b : jsstring) : str_eqb a b = false <-> a <> b.
Proof.
  destruct (str_eqb a b) eqn:E.
  - apply str_eqb_eq in E. split; [discriminate | contradiction].
  - split; [|reflexivity]. intros _ Heq. apply str_eqb_eq in Heq. congruence.
Qed.

Lemma includes_app (c : char) (a b : jsstring) :
  includes c (a ++ b) = includes c a || includes c b.
Proof. unfold includes. apply existsb_app. Qed.

Lemma includes_false_In (c : char) (s : jsstring) :
  includes c s = false <-> ~ In c s.
Proof.
  unfold includes. induction s as [|x s IH]; simpl.
  - tauto.
  - rewrite orb_false_iff, IH, char_eqb_neq. split.
    + intros [Hx Hs] [E | Hin]; [congruence | tauto].
    + intros H. split; [intros E; apply H; left; congruence | tauto].
Qed.

Lemma startsWith_app (p s : jsstring) : startsWith p (p ++ s) = true.
Proof.
  induction p as [|x p IH]; simpl.
  - destruct s; reflexivity.
  - rewrite char_eqb_refl. exact IH.
Qed.

Lemma startsWith_inv (p s : jsstring) :
  startsWith p s = true -> exists t, s = p ++ t.
Proof.
  revert s. induction p as [|x p IH]; intros s H.
  - exists s. reflexivity.
  - destruct s as [|y s]; simpl in H; [discriminate|].
    apply andb_true_iff in H. destruct H as [Hxy Hp].
    apply char_eqb_eq in Hxy. subst y.
    destruct (IH _ Hp) as [t ->]. exists t. reflexivity.
Qed.

Lemma skipn_length_app {A} (p s : list A) : skipn (length p) (p ++ s) = s.
Proof. induction p; simpl; auto. Qed.

(** Replacing the first occurrence of a prefix removes the prefix. *)
Lemma replace_first_prefix (p r s : jsstring) :
  replace_first p r (p ++ s) = r ++ s.
Proof.
  destruct (p ++ s) as [|c t] eqn:E; simpl.
  - destruct p; [|discriminate]. simpl in E. subst s. reflexivity.
  - rewrite <- E, startsWith_app, skipn_length_app. reflexivity.
Qed.

Lemma split_nonempty (c : char) (s : jsstring) : split c s <> [].
Proof.
  destruct s as [|x s]; simpl; [discriminate|].
  destruct (char_eqb x c); [discriminate|].
  destruct (split c s); discriminate.
Qed.

(** A string without the separator is one part. *)
Lemma split_no_sep (c : char) (s : jsstring) :
  includes c s = false -> split c s = [s].
Proof.
  unfold includes. induction s as [|x s IH]; simpl; intros H; [reflexivity|].
  apply orb_false_iff in H. destruct H as [Hx Hs].
  assert (E : char_eqb x c = false).
  { rewrite char_eqb_sym. exact Hx. }
  rewrite E, (IH Hs). reflexivity.
Qed.

(** The first separator ends the first part. *)
Lemma split_app_sep (c : char) (a b : jsstring) :
  includes c a = false -> split c (a ++ c :: b) = a :: split c b.
Proof.
  unfold includes. induction a as [|x a IH]; simpl; intros H.
  - rewrite char_eqb_refl. reflexivity.
  - apply orb_false_iff in H. destruct H as [Hx Ha].
    assert (E : char_eqb x c = false).
    { rewrite char_eqb_sym. exact Hx. }
    rewrite E, (IH Ha). reflexivity.
Qed.

Lemma join_cons (sep p : jsstring) (q : jsstring) (rest : list jsstring) :
  join sep (p :: q :: rest) = p ++ sep ++ join sep (q :: rest).
Proof. reflexivity. Qed.

(** Joining what [split] returned gives the string back. *)
Lemma join_split (c : char) (s : jsstring) : join [c] (split c s) = s.
Proof.
  induction s as [|x s IH]; simpl; [reflexivity|].
  destruct (char_eqb x c) eqn:E.
  - apply char_eqb_eq in E. subst x.
    pose proof (split_nonempty c s) as Hne.
    destruct (split c s) as [|q rest]; [congruence|].
    rewrite join_cons. simpl. f_equal. exact IH.
  - pose proof (split_nonempty c s) as Hne.
    destruct (split c s) as [|q rest]; [congruence|].
    destruct rest as [|q' rest].
    + simpl in *. f_equal. exact IH.
    + rewrite join_cons in *. simpl. f_equal. exact IH.
Qed.

(** Splitting what [join] built gives the parts back when no part holds
    the separator. *)
Lemma split_join (c : char) (parts : list jsstring) :
  parts <> [] ->
  Forall (fun p => includes c p = false) parts ->
  split c (join [c] parts) = parts.
Proof.
  induction parts as [|p rest IH]; intros Hne Hall; [congruence|].
  inversion Hall as [|? ? Hp Hrest]; subst.
  destruct rest as [|q rest].
  - simpl. apply split_no_sep. exact Hp.
  - rewrite join_cons. simpl app.
    rewrite split_app_sep by exact Hp.
    f_equal. apply IH; [discriminate | exact Hrest].
Qed.

(* ================================================================== *)
(** * White space *)
(* ================================================================== *)

Lemma trimStart_keeps_non_ws (s : jsstring) :
  (exists c, In c s /\ is_whitespace c = false) ->
  exists c t, trimStart s = c :: t /\ is_whitespace c = false.
Proof.
  induction s as [|x s IH]; intros [c [Hin Hc]]; [destruct Hin|].
  simpl. destruct (is_whitespace x) eqn:Ex.
  - apply IH. destruct Hin as [-> | Hin]; [congruence|]. eauto.
  - eauto.
Qed.

(** A line with a code unit that is not white space is not blank. *)
Lemma non_blank_intro (c : char) (s : jsstring) :
  In c s -> is_whitespace c = false -> non_blank s = true.
Proof.
  intros Hin Hc. unfold non_blank, trim, trimEnd.
  destruct (trimStart_keeps_non_ws s) as [d [t [E Hd]]]; [eauto|].
  rewrite E.
  destruct (trimStart_keeps_non_ws (rev (d :: t))) as [e [u [E' _]]].
  { exists d. split; [|exact Hd]. apply in_rev. rewrite rev_involutive. left. reflexivity. }
  rewrite E'. simpl. destruct (rev u); reflexivity.
Qed.

Lemma non_blank_trimmed (s : jsstring) :
  trimmed s -> s <> [] -> non_blank s = true.
Proof.
  unfold trimmed, non_blank. intros -> H. destruct s; [congruence | reflexivity].
Qed.

(* ================================================================== *)
(** * The line reader on what the encoder writes *)
(* ================================================================== *)

Lemma replace_all_quotes_none (r s : jsstring) :
  includes QUOTE s = false -> replace_all_quotes r s = s.
Proof.
  unfold includes, replace_all_quotes.
  induction s as [|x s IH]; simpl; intros H; [reflexivity|].
  apply orb_false_iff in H. destruct H as [Hx Hs].
  assert (E : char_eqb x QUOTE = false).
  { rewrite char_eqb_sym. exact Hx. }
  rewrite E. simpl. f_equal. auto.
Qed.

(** Outside quotes, code units that are neither a comma nor a quote are
    appended to the current field. *)
Lemma loop_plain (v tail : jsstring) (values : list jsstring)
      (current : jsstring) :
  includes COMMA v = false -> includes QUOTE v = false ->
  parseCSVLine_loop (v ++ tail) values current false
  = parseCSVLine_loop tail values (current ++ v) false.
Proof.
  unfold includes. revert current.
  induction v as [|x v IH]; intros current Hc Hq; simpl.
  - rewrite app_nil_r. reflexivity.
  - simpl in Hc, Hq.
    apply orb_false_iff in Hc. destruct Hc as [Hxc Hc].
    apply orb_false_iff in Hq. destruct Hq as [Hxq Hq].
    assert (E1 : char_eqb x QUOTE = false).
    { rewrite char_eqb_sym. exact Hxq. }
    assert (E2 : char_eqb x COMMA = false).
    { rewrite char_eqb_sym. exact Hxc. }
    rewrite E1, E2. simpl. rewrite IH by assumption.
    rewrite <- app_assoc. reflexivity.
Qed.

(** Inside quotes, the escaped text of [v] followed by the closing quote
    appends [v] itself to the current field and leaves the quotes. *)
Lemma loop_quoted (v tail : jsstring) (values : list jsstring)
      (current : jsstring) :
  no_leading_quote tail ->
  parseCSVLine_loop (replace_all_quotes [QUOTE; QUOTE] v ++ QUOTE :: tail)
                    values current true
  = parseCSVLine_loop tail values (current ++ v) false.
Proof.
  intros Htail. revert current.
  induction v as [|x v IH]; intros current.
  - simpl. rewrite app_nil_r.
    destruct tail as [|c tail']; [reflexivity|].
    simpl in Htail. rewrite Htail. reflexivity.
  - unfold replace_all_quotes in *. simpl flat_map.
    destruct (char_eqb x QUOTE) eqn:E.
    + apply char_eqb_eq in E. subst x. simpl.
      rewrite IH. rewrite <- app_assoc. reflexivity.
    + simpl. rewrite E. simpl.
      replace (char_eqb x COMMA && false) with false by (destruct (char_eqb x COMMA); reflexivity).
      rewrite IH. rewrite <- app_assoc. reflexivity.
Qed.

(** One encoded string is read back whole. *)
Lemma loop_encode_string (v tail : jsstring) (values : list jsstring) :
  no_leading_quote tail ->
  parseCSVLine_loop (encode_string v ++ tail) values [] false
  = parseCSVLine_loop tail values v false.
Proof.
  intros Htail. unfold encode_string.
  destruct (needs_quoting v) eqn:E.
  - simpl. rewrite <- app_assoc. simpl. apply (loop_quoted v tail values [] Htail).
  - unfold needs_quoting in E.
    apply orb_false_iff in E. destruct E as [E _].
    apply orb_false_iff in E. destruct E as [Ec Eq].
    apply (loop_plain v tail values [] Ec Eq).
Qed.

Lemma loop_encoded_line (vs : list jsstring) (values : list jsstring) :
  vs <> [] ->
  parseCSVLine_loop (join [COMMA] (map encode_string vs)) values [] false
  = values ++ map trim vs.
Proof.
  revert values. induction vs as [|v vs IH]; intros values Hne; [congruence|].
  destruct vs as [|w vs].
  - simpl. rewrite <- (app_nil_r (encode_string v)).
    rewrite loop_encode_string by exact I. reflexivity.
  - simpl map. rewrite join_cons. simpl app.
    rewrite loop_encode_string by reflexivity.
    simpl parseCSVLine_loop.
    change (parseCSVLine_loop (join [COMMA] (map encode_string (w :: vs)))
              (values ++ [trim v]) [] false
            = values ++ trim v :: map trim (w :: vs)).
    rewrite IH by discriminate. rewrite <- app_assoc. reflexivity.
Qed.

(** Reading an encoded line gives the strings back, trimmed. *)
Lemma parseCSVLine_encoded (vs : list jsstring) :
  vs <> [] ->
  parseCSVLine (join [COMMA] (map encode_string vs)) = map trim vs.
Proof. intros H. unfold parseCSVLine. apply (loop_encoded_line [] H). Qed.

(* ================================================================== *)
(** * Objects: reading and assigning properties *)
(* ================================================================== *)

Lemma get_In {A} (o : obj A) (k : jsstring) (v : A) :
  get o k = Some v -> In (k, v) o.
Proof.
  induction o as [|[k' v'] o IH]; simpl; [discriminate|].
  destruct (str_eqb k k') eqn:E.
  - apply str_eqb_eq in E. subst k'. intros H. inversion H. left. reflexivity.
  - intros H. right. auto.
Qed.

Lemma get_In_keys {A} (o : obj A) (k : jsstring) (v : A) :
  get o k = Some v -> In k (keys o).
Proof.
  intros H. apply get_In in H. unfold keys.
  change k with (fst (k, v)). apply in_map. exact H.
Qed.

Lemma get_not_In {A} (o : obj A) (k : jsstring) :
  ~ In k (keys o) -> get o k = None.
Proof.
  induction o as [|[k' v'] o IH]; simpl; intros H; [reflexivity|].
  destruct (str_eqb k k') eqn:E.
  - apply str_eqb_eq in E. subst k'. exfalso. apply H. left. reflexivity.
  - apply IH. intros Hin. apply H. right. exact Hin.
Qed.

Lemma has_not_In {A} (o : obj A) (k : jsstring) :
  ~ In k (keys o) -> has o k = false.
Proof. intros H. unfold has. rewrite (get_not_In o k H). reflexivity. Qed.

(** Every own key is read back with its value when keys are distinct. *)
Lemma get_own {A} (o : obj A) :
  NoDup (keys o) -> map (get o) (keys o) = map Some (values_of o).
Proof.
  induction o as [|[k v] o IH]; intros Hnd; [reflexivity|].
  simpl in Hnd. inversion Hnd as [|? ? Hk Hrest]; subst.
  simpl. rewrite str_eqb_refl. f_equal.
  rewrite <- (IH Hrest). apply map_ext_in.
  intros h Hh. destruct (str_eqb h k) eqn:E; [|reflexivity].
  apply str_eqb_eq in E. subst h. contradiction.
Qed.

Lemma combine_keys_values {A} (o : obj A) :
  combine (keys o) (values_of o) = o.
Proof.
  induction o as [|[k v] o IH]; simpl; [reflexivity|]. f_equal. exact IH.
Qed.

Lemma keys_app {A} (o1 o2 : obj A) : keys (o1 ++ o2) = keys o1 ++ keys o2.
Proof. unfold keys. apply map_app. Qed.

(** A new array-index key above all the keys present goes last. *)
Lemma insert_index_last {A} (n : N) (k : jsstring) (v : A) (o : obj A) :
  (forall k', In k' (keys o) ->
              exists n', array_index k' = Some n' /\ (n' < n)%N) ->
  insert_index n k v o = o ++ [(k, v)].
Proof.
  induction o as [|[k' v'] o IH]; intros H; [reflexivity|].
  simpl. destruct (H k') as [n' [E Hlt]]; [left; reflexivity|].
  rewrite E. apply N.ltb_lt in Hlt. rewrite Hlt.
  f_equal. apply IH. intros k'' Hin. apply H. right. exact Hin.
Qed.

Lemma keys_ordered_from_bound (lower : N) (ks : list jsstring)
      (k : jsstring) (n : N) :
  keys_ordered_from lower ks = true -> In k ks -> array_index k = Some n ->
  (lower <= n)%N.
Proof.
  revert lower. induction ks as [|a ks IH]; intros lower H Hin E; [destruct Hin|].
  simpl in H. destruct (array_index a) as [na|] eqn:Ea.
  - apply andb_true_iff in H. destruct H as [Hlo Hks].
    apply N.leb_le in Hlo.
    destruct Hin as [-> | Hin].
    + rewrite E in Ea. inversion Ea. subst. exact Hlo.
    + specialize (IH _ Hks Hin E). lia.
  - destruct Hin as [-> | Hin]; [congruence|].
    rewrite forallb_forall in H. specialize (H _ Hin). rewrite E in H. discriminate.
Qed.

(** In key order, what precedes an array-index key is a smaller one. *)
Lemma keys_ordered_before (lower : N) (l1 l2 : list jsstring)
      (k : jsstring) (n : N) :
  keys_ordered_from lower (l1 ++ k :: l2) = true ->
  array_index k = Some n ->
  forall k', In k' l1 -> exists n', array_index k' = Some n' /\ (n' < n)%N.
Proof.
  revert lower. induction l1 as [|a l1 IH]; intros lower H E k' Hin; [destruct Hin|].
  simpl in H. destruct (array_index a) as [na|] eqn:Ea.
  - apply andb_true_iff in H. destruct H as [_ Hks].
    destruct Hin as [-> | Hin].
    + exists na. split; [exact Ea|].
      assert (Hb : (na + 1 <= n)%N).
      { apply (keys_ordered_from_bound _ _ k Hks); [|exact E].
        apply in_or_app. right. left. reflexivity. }
      lia.
    + apply (IH _ Hks E _ Hin).
  - rewrite forallb_forall in H.
    assert (Hk : In k (l1 ++ k :: l2)) by (apply in_or_app; right; left; reflexivity).
    specialize (H _ Hk). rewrite E in H. discriminate.
Qed.

(** Assigning a key that is new, is not [__proto__] and comes next in key
    order appends the property. *)
Lemma set_next_key {A} (o : obj A) (k : jsstring) (v : A)
      (later : list jsstring) :
  NoDup (keys o ++ k :: later) ->
  k <> PROTO ->
  keys_ordered (keys o ++ k :: later) = true ->
  JsObject.set k v o = o ++ [(k, v)].
Proof.
  intros Hnd Hproto Hord. unfold JsObject.set.
  apply str_eqb_neq in Hproto. rewrite Hproto.
  rewrite has_not_In.
  2:{ apply NoDup_remove_2 in Hnd. intros Hin. apply Hnd.
      apply in_or_app. left. exact Hin. }
  destruct (array_index k) as [n|] eqn:E; [|reflexivity].
  apply insert_index_last.
  apply (keys_ordered_before _ _ _ _ Hord E).
Qed.

Lemma value_at_app (pre vs : list jsstring) (v : jsstring) :
  value_at (pre ++ v :: vs) (length pre) = v.
Proof.
  unfold value_at. rewrite nth_error_app2 by lia.
  rewrite Nat.sub_diag. reflexivity.
Qed.

(** Filling a row with distinct headers in key order pairs every header
    with the value at its index. *)
Lemma fill_row_combine (headers : list jsstring) :
  forall (pre vs : list jsstring) (r : Importer.row),
    length vs = length headers ->
    NoDup (keys r ++ headers) ->
    ~ In PROTO headers ->
    keys_ordered (keys r ++ headers) = true ->
    fill_row headers (length pre) (pre ++ vs) r = r ++ combine headers vs.
Proof.
  induction headers as [|h headers IH]; intros pre vs r Hlen Hnd Hproto Hord.
  - simpl. rewrite app_nil_r. reflexivity.
  - destruct vs as [|v vs]; [discriminate|].
    simpl fill_row. rewrite value_at_app.
    rewrite (set_next_key r v headers Hnd) by
        (try exact Hord; intros E; apply Hproto; left; exact E).
    replace (pre ++ v :: vs) with ((pre ++ [v]) ++ vs)
      by (rewrite <- app_assoc; reflexivity).
    replace (S (length pre)) with (length (pre ++ [v]))
      by (rewrite length_app; simpl; lia).
    rewrite IH.
    + rewrite <- app_assoc. reflexivity.
    + simpl in Hlen. lia.
    + rewrite keys_app. simpl. rewrite <- app_assoc. exact Hnd.
    + intros Hin. apply Hproto. right. exact Hin.
    + rewrite keys_app. simpl. rewrite <- app_assoc. exact Hord.
Qed.

Lemma make_row_combine (headers vs : list jsstring) :
  length vs = length headers ->
  NoDup headers ->
  ~ In PROTO headers ->
  keys_ordered headers = true ->
  make_row headers vs = combine headers vs.
Proof.
  intros Hlen Hnd Hproto Hord. unfold make_row.
  apply (fill_row_combine headers [] vs [] Hlen Hnd Hproto Hord).
Qed.

(* ================================================================== *)
(** * The encoder's text, line by line *)
(* ================================================================== *)

Lemma includes_join (c sepc : char) (parts : list jsstring) :
  c <> sepc ->
  Forall (fun p => includes c p = false) parts ->
  includes c (join [sepc] parts) = false.
Proof.
  intros Hc. induction parts as [|p rest IH]; intros H; [reflexivity|].
  inversion H as [|? ? Hp Hrest]; subst.
  destruct rest as [|q rest]; [exact Hp|].
  rewrite join_cons, !includes_app, Hp, (IH Hrest).
  unfold includes. simpl. apply char_eqb_neq in Hc. rewrite Hc. reflexivity.
Qed.

Lemma includes_replace_all_quotes (c : char) (s : jsstring) :
  c <> QUOTE -> includes c (replace_all_quotes [QUOTE; QUOTE] s) = includes c s.
Proof.
  intros Hc. apply char_eqb_neq in Hc.
  unfold replace_all_quotes, includes.
  induction s as [|x s IH]; [reflexivity|].
  simpl flat_map. rewrite existsb_app, IH.
  destruct (char_eqb x QUOTE) eqn:E.
  - apply char_eqb_eq in E. subst x. simpl. rewrite Hc. reflexivity.
  - simpl. rewrite orb_false_r. reflexivity.
Qed.

(** Quoting adds no line feed. *)
Lemma encode_string_no_newline (v : jsstring) :
  includes NEWLINE v = false -> includes NEWLINE (encode_string v) = false.
Proof.
  intros H. unfold encode_string. destruct (needs_quoting v); [|exact H].
  rewrite !includes_app, includes_replace_all_quotes, H by discriminate.
  reflexivity.
Qed.

Lemma line_of_no_newline (vs : list jsstring) :
  Forall plain_value vs -> includes NEWLINE (line_of vs) = false.
Proof.
  intros H. unfold line_of. apply includes_join; [discriminate|].
  apply Forall_map. eapply Forall_impl; [|exact H].
  intros v [Hv _]. apply encode_string_no_newline. exact Hv.
Qed.

Lemma join_has_sep (c : char) (p q : jsstring) (rest : list jsstring) :
  In c (join [c] (p :: q :: rest)).
Proof. rewrite join_cons. apply in_or_app. right. left. reflexivity. Qed.

(** An encoded string is white space only when it is empty. *)
Lemma encode_string_non_blank (v : jsstring) :
  trimmed v -> v <> [] -> non_blank (encode_string v) = true.
Proof.
  intros Ht Hne. unfold encode_string. destruct (needs_quoting v).
  - apply (non_blank_intro QUOTE); [left; reflexivity | reflexivity].
  - apply non_blank_trimmed; assumption.
Qed.

Lemma line_of_non_blank (vs : list jsstring) :
  Forall plain_value vs -> vs <> [] -> vs <> [[]] ->
  non_blank (line_of vs) = true.
Proof.
  intros H Hne Hne'. unfold line_of.
  destruct vs as [|v [|w vs]]; [congruence | |].
  - inversion H as [|? ? [_ Hv] _]; subst.
    apply encode_string_non_blank; [exact Hv |].
    intros E. apply Hne'. rewrite E. reflexivity.
  - simpl map. apply (non_blank_intro COMMA); [apply join_has_sep | reflexivity].
Qed.

Lemma header_line_non_blank (headers : list jsstring) :
  Forall plain_header headers -> headers <> [] -> headers <> [[]] ->
  non_blank (join [COMMA] headers) = true.
Proof.
  intros H Hne Hne'.
  destruct headers as [|h [|h' hs]]; [congruence | |].
  - inversion H as [|? ? [_ [_ [_ [Hh _]]]] _]; subst.
    apply non_blank_trimmed; [exact Hh |].
    intros E. apply Hne'. simpl in E. rewrite E. reflexivity.
  - apply (non_blank_intro COMMA); [apply join_has_sep | reflexivity].
Qed.

(** The header line is read back as the column names. *)
Lemma parse_headers_join (headers : list jsstring) :
  Forall plain_header headers -> headers <> [] ->
  parse_headers (join [COMMA] headers) = headers.
Proof.
  intros H Hne. unfold parse_headers.
  rewrite split_join; [|exact Hne|].
  - rewrite <- (map_id headers) at 2. apply map_ext_in.
    intros h Hh. rewrite Forall_forall in H.
    destruct (H _ Hh) as [_ [Hq [_ [Ht _]]]].
    rewrite replace_all_quotes_none by exact Hq. exact Ht.
  - eapply Forall_impl; [|exact H]. intros h [Hc _]. exact Hc.
Qed.

Lemma get_to_cells (r : Importer.row) (h : jsstring) :
  get (to_cells r) h
  = match get r h with
    | Some v => Some (VString v)
    | None => None
    end.
Proof.
  induction r as [|[k v] r IH]; [reflexivity|].
  simpl. destruct (str_eqb h k); [reflexivity | exact IH].
Qed.

Lemma In_keys_get {A} (o : obj A) (k : jsstring) :
  In k (keys o) -> exists v, get o k = Some v.
Proof.
  intros Hin. destruct (get o k) as [v|] eqn:E; [eauto|].
  exfalso. revert Hin E. induction o as [|[k' v'] o IH]; simpl; [tauto|].
  intros [-> | Hin].
  - rewrite str_eqb_refl. discriminate.
  - destruct (str_eqb k k'); [discriminate | auto].
Qed.

(** An own cell of a row of strings is written as the encoded string. *)
Lemma encode_cell_own (r : Importer.row) (h v : jsstring) :
  get r h = Some v -> encode_cell (to_cells r) h = encode_string v.
Proof.
  intros Hget. unfold encode_cell, cell_or_empty.
  rewrite get_to_cells, Hget. reflexivity.
Qed.

(** The cells the encoder reads from a row of strings. *)
Lemma encode_cells_of_row (r : Importer.row) :
  NoDup (keys r) ->
  map (encode_cell (to_cells r)) (keys r) = map encode_string (values_of r).
Proof.
  intros Hnd.
  transitivity (map (fun o => match o with
                              | Some v => encode_string v
                              | None => []
                              end) (map (get r) (keys r))).
  - rewrite map_map. apply map_ext_in. intros h Hh.
    destruct (In_keys_get r h Hh) as [v Hv].
    rewrite Hv. apply encode_cell_own. exact Hv.
  - rewrite (get_own r Hnd), map_map. reflexivity.
Qed.

Lemma keys_to_cells (r : Importer.row) : keys (to_cells r) = keys r.
Proof. unfold keys, to_cells. rewrite map_map. reflexivity. Qed.

(** The text [arrayToCSV] writes for rows of strings that share the columns
    of the first one. *)
Lemma arrayToCSV_lines (first : Importer.row) (rest : list Importer.row) :
  NoDup (keys first) ->
  Forall (fun r => keys r = keys first) (first :: rest) ->
  arrayToCSV (map to_cells (first :: rest))
  = join [NEWLINE]
         (join [COMMA] (keys first)
          :: map (fun r => line_of (values_of r)) (first :: rest)).
Proof.
  intros Hnd Hrect.
  change (map to_cells (first :: rest))
    with (to_cells first :: map to_cells rest).
  unfold arrayToCSV. rewrite keys_to_cells.
  change (to_cells first :: map to_cells rest)
    with (map to_cells (first :: rest)).
  f_equal. f_equal. rewrite map_map. apply map_ext_in.
  intros r Hr. rewrite Forall_forall in Hrect.
  pose proof (Hrect r Hr) as Hk. rewrite <- Hk in Hnd |- *. unfold line_of.
  f_equal. apply encode_cells_of_row. exact Hnd.
Qed.

(* ================================================================== *)
(** * Encoding, then decoding *)
(* ================================================================== *)

Lemma filter_all {A} (f : A -> bool) (l : list A) :
  Forall (fun x => f x = true) l -> filter f l = l.
Proof.
  induction 1 as [|x l Hx _ IH]; simpl; [reflexivity|].
  rewrite Hx, IH. reflexivity.
Qed.

Lemma map_trim_plain (vs : list jsstring) :
  Forall plain_value vs -> map trim vs = vs.
Proof.
  induction 1 as [|v vs [_ Hv] _ IH]; simpl; [reflexivity|].
  rewrite Hv, IH. reflexivity.
Qed.

Lemma values_of_length {A} (o : obj A) : length (values_of o) = length (keys o).
Proof. unfold values_of, keys. rewrite !length_map. reflexivity. Qed.

(** The line of a plain row is read back as the row. *)
Lemma decode_plain_row (headers : list jsstring) (r : Importer.row) :
  NoDup headers -> keys_ordered headers = true -> ~ In PROTO headers ->
  headers <> [] -> plain_row headers r ->
  parseCSVLine (line_of (values_of r)) = values_of r
  /\ make_row headers (values_of r) = r.
Proof.
  intros Hnd Hord Hproto Hne [Hk [Hv _]].
  assert (Hlen : length (values_of r) = length headers).
  { rewrite values_of_length, Hk. reflexivity. }
  split.
  - unfold line_of. rewrite parseCSVLine_encoded.
    + apply map_trim_plain. exact Hv.
    + intros E. rewrite E in Hlen. destruct headers; [congruence | discriminate].
  - rewrite make_row_combine by assumption.
    rewrite <- Hk. apply combine_keys_values.
Qed.

Lemma parseCSV_loop_plain (headers : list jsstring) (rows : list Importer.row) :
  NoDup headers -> keys_ordered headers = true -> ~ In PROTO headers ->
  headers <> [] -> Forall (plain_row headers) rows ->
  forall i data warnings,
    parseCSV_loop headers (map (fun r => line_of (values_of r)) rows)
                  i data warnings
    = (data ++ rows, warnings).
Proof.
  intros Hnd Hord Hproto Hne Hrows.
  induction Hrows as [|r rows Hr _ IH]; intros i data warnings.
  - simpl. rewrite app_nil_r. reflexivity.
  - destruct (decode_plain_row Hnd Hord Hproto Hne Hr) as [Hline Hrow].
    simpl. rewrite Hline, Hrow.
    replace (length (values_of r) =? length headers) with true.
    + simpl. rewrite IH, <- app_assoc. reflexivity.
    + symmetry. apply Nat.eqb_eq. destruct Hr as [Hk _].
      rewrite values_of_length, Hk. reflexivity.
Qed.

Lemma plain_headers_no_proto (headers : list jsstring) :
  Forall plain_header headers -> ~ In PROTO headers.
Proof.
  intros H Hin. rewrite Forall_forall in H.
  destruct (H _ Hin) as [_ [_ [_ [_ Hp]]]]. apply Hp. reflexivity.
Qed.

(** Decoding the text of plain rows gives the rows back, without a
    warning. *)
Lemma decode_encode_plain (first : Importer.row) (rest : list Importer.row) :
  NoDup (keys first) -> keys_ordered (keys first) = true ->
  keys first <> [] -> keys first <> [[]] ->
  Forall plain_header (keys first) ->
  Forall (plain_row (keys first)) (first :: rest) ->
  parseCSV (arrayToCSV (map to_cells (first :: rest)))
  = Return (first :: rest, []).
Proof.
  intros Hnd Hord Hne Hne' Hhdr Hrows.
  set (headers := keys first) in *.
  rewrite arrayToCSV_lines.
  2: exact Hnd.
  2:{ eapply Forall_impl; [|exact Hrows]. intros r [Hk _]. exact Hk. }
  fold headers. unfold parseCSV.
  rewrite split_join.
  2: discriminate.
  2:{ constructor.
      - apply includes_join; [discriminate|].
        eapply Forall_impl; [|exact Hhdr]. intros h [_ [_ [Hn _]]]. exact Hn.
      - apply Forall_map. eapply Forall_impl; [|exact Hrows].
        intros r [_ [Hv _]]. apply line_of_no_newline. exact Hv. }
  rewrite filter_all.
  2:{ constructor.
      - apply header_line_non_blank; assumption.
      - apply Forall_map. eapply Forall_impl; [|exact Hrows].
        intros r [Hk [Hv Hb]]. apply line_of_non_blank; [exact Hv | | exact Hb].
        intros E. apply Hne. rewrite <- Hk.
        unfold keys. unfold values_of in E.
        destruct r; [reflexivity | discriminate]. }
  simpl map. rewrite parse_headers_join by assumption.
  change (line_of (values_of first)
          :: map (fun r => line_of (values_of r)) rest)
    with (map (fun r => line_of (values_of r)) (first :: rest)).
  rewrite parseCSV_loop_plain; try assumption.
  - reflexivity.
  - apply plain_headers_no_proto. exact Hhdr.
Qed.

(* ================================================================== *)
(** * The batch writer, row by row *)
(* ================================================================== *)

Lemma results_eq (a b : Results) :
  success a = success b -> failed a = failed b -> skipped a = skipped b ->
  details a = details b -> a = b.
Proof. destruct a, b; simpl; intros; subst; reflexivity. Qed.

Lemma add_results_assoc (a b c : Results) :
  add_results (add_results a b) c = add_results a (add_results b c).
Proof. apply results_eq; simpl; try lia. symmetry. apply app_assoc. Qed.

Lemma add_no_results_l (a : Results) : add_results no_results a = a.
Proof. apply results_eq; reflexivity. Qed.

Lemma add_no_results_r (a : Results) : add_results a no_results = a.
Proof. apply results_eq; simpl; try lia. apply app_nil_r. Qed.

Section BatchWriter.

Variable World : Type.
Variable endpoint : Request -> World -> Response * World.
Variable config : Config.

Local Abbreviation process_variant := (process_variant endpoint config).
Local Abbreviation process_variants := (process_variants endpoint config).
Local Abbreviation processBatch := (processBatch endpoint config).
Local Abbreviation updateVariantMetafields := (updateVariantMetafields endpoint config).

(** The outcome of a row that is not skipped, from the results of its
    metafields. *)
Lemma process_variant_alone (variant : Importer.row) (net : Net World) :
  process_variant no_results variant net
  = if would_update variant then
      let (metafieldResults, net') :=
        updateVariantMetafields (get variant VARIANT_ID)
                                (extractMetafields variant) net in
      (if forallb result_success metafieldResults
       then succeeded_one (entry_of variant metafieldResults)
       else failed_one (entry_of variant metafieldResults), net')
    else (skipped_one, net).
Proof.
  unfold Importer.process_variant, would_update.
  destruct (length (extractMetafields variant) =? 0); [reflexivity|].
  simpl negb. cbv iota. unfold bind.
  destruct (updateVariantMetafields _ _ net) as [rs net'].
  assert (E : (length (filter (fun r => negb (result_success r)) rs) =? 0)
              = forallb result_success rs).
  { induction rs as [|r rs IH]; [reflexivity|].
    simpl. destruct (result_success r); simpl; [exact IH | reflexivity]. }
  rewrite E. destruct (forallb result_success rs); reflexivity.
Qed.

(** The running aggregate only accumulates. *)
Lemma process_variant_acc (results : Results) (variant : Importer.row)
      (net : Net World) :
  process_variant results variant net
  = let (r, net') := process_variant no_results variant net in
    (add_results results r, net').
Proof.
  unfold Importer.process_variant.
  destruct (length (extractMetafields variant) =? 0).
  - unfold ret. f_equal. apply results_eq; simpl; lia || auto.
    symmetry. apply app_nil_r.
  - unfold bind.
    destruct (updateVariantMetafields _ _ net) as [rs net'].
    destruct (length (filter _ rs) =? 0); unfold ret; f_equal;
      apply results_eq; simpl; lia || auto.
Qed.

Lemma process_variants_acc (variants : list Importer.row) :
  forall (results : Results) (net : Net World),
    process_variants results variants net
    = let (r, net') := process_variants no_results variants net in
      (add_results results r, net').
Proof.
  induction variants as [|v vs IH]; intros results net.
  - simpl. unfold ret. rewrite add_no_results_r. reflexivity.
  - simpl. unfold bind.
    rewrite (process_variant_acc results).
    destruct (process_variant no_results v net) as [r1 net1].
    rewrite (IH (add_results results r1)), (IH r1).
    destruct (process_variants no_results vs net1) as [r2 net2].
    rewrite add_results_assoc. reflexivity.
Qed.

Lemma processBatch_nil (net : Net World) : processBatch [] net = (no_results, net).
Proof. reflexivity. Qed.

Lemma processBatch_cons (variant : Importer.row) (rest : list Importer.row)
      (net : Net World) :
  processBatch (variant :: rest) net
  = let (r1, net1) := process_variant no_results variant net in
    let (r2, net2) := processBatch rest net1 in
    (add_results r1 r2, net2).
Proof.
  unfold Importer.processBatch. simpl. unfold bind.
  destruct (process_variant no_results variant net) as [r1 net1].
  apply process_variants_acc.
Qed.

(** A batch is processed front to back: what follows starts from the
    state the front left, whatever happened there. *)
Lemma processBatch_app (front back : list Importer.row) :
  forall net : Net World,
    processBatch (front ++ back) net
    = let (r1, net1) := processBatch front net in
      let (r2, net2) := processBatch back net1 in
      (add_results r1 r2, net2).
Proof.
  induction front as [|v front IH]; intros net.
  - simpl app. rewrite processBatch_nil.
    destruct (processBatch back net) as [r2 net2].
    rewrite add_no_results_l. reflexivity.
  - simpl app. rewrite !processBatch_cons.
    destruct (process_variant no_results v net) as [r0 net0].
    rewrite IH.
    destruct (processBatch front net0) as [r1 net1].
    destruct (processBatch back net1) as [r2 net2].
    rewrite add_results_assoc. reflexivity.
Qed.

End BatchWriter.

(* ================================================================== *)
(** * The network stage of one row *)
(* ================================================================== *)

Section NetworkStage.

Variable World : Type.
Variable endpoint : Request -> World -> Response * World.

Local Abbreviation lookup := (getProductIdFromVariantId endpoint).
Local Abbreviation update := (updateVariantMetafields endpoint).

Lemma length_eqb_0 {A} (l : list A) : (length l =? 0) = false <-> l <> [].
Proof. destruct l; simpl; split; congruence. Qed.

(** The lookup is one request, whatever it returns. *)
Lemma lookup_trace (variantId : option jsstring) (net : Net World) :
  exists w, snd (lookup variantId net)
            = {| world := w; trace := trace net ++ [GetVariant variantId] |}.
Proof.
  unfold getProductIdFromVariantId, bind, makeGraphQLRequest.
  destruct (endpoint (GetVariant variantId) (world net)) as [response w].
  exists w. destruct response as [m | data]; [reflexivity|].
  destruct (productVariant_product_id data); reflexivity.
Qed.

(** Whatever the mode and the replies, the results are about the
    metafields handed in, in order. *)
Lemma update_payload (config : Config) (variantId : option jsstring)
      (metafields : list Metafield) (net : Net World) :
  map result_metafield (fst (update config variantId metafields net))
  = metafields.
Proof.
  assert (Hfail : forall m, map result_metafield (all_failed metafields m)
                            = metafields).
  { intros m. unfold all_failed. rewrite map_map. apply map_id. }
  unfold updateVariantMetafields.
  destruct (length metafields =? 0) eqn:E.
  - destruct metafields; [reflexivity | discriminate].
  - destruct (dryRun config).
    + simpl. rewrite map_map. apply map_id.
    + unfold bind. destruct (lookup variantId net) as [[[|c pid]|] net1];
        try (simpl; apply Hfail).
      unfold makeGraphQLRequest.
      destruct (endpoint _ (world net1)) as [[m | data] w]; [apply Hfail|].
      destruct (productVariantsBulkUpdate_userErrors data) as [m | errors];
        [apply Hfail|].
      destruct (0 <? userErrors_length errors); [apply Hfail|].
      simpl. rewrite map_map. apply map_id.
Qed.

(** A dry run returns before the network stage. *)
Lemma update_dry (config : Config) (variantId : option jsstring)
      (metafields : list Metafield) (net : Net World) :
  dryRun config = true ->
  update config variantId metafields net = (map DryRunResult metafields, net).
Proof.
  intros Hdry. unfold updateVariantMetafields. rewrite Hdry.
  destruct metafields; reflexivity.
Qed.

(** A live run with something to write does the lookup and at most the
    mutation. *)
Lemma update_live_requests (config : Config) (variantId : option jsstring)
      (metafields : list Metafield) (net : Net World) :
  dryRun config = false -> metafields <> [] ->
  exists w requests,
    snd (update config variantId metafields net)
    = {| world := w; trace := trace net ++ requests |}
    /\ (requests = [GetVariant variantId]
        \/ exists productId,
            requests = [GetVariant variantId;
                        ProductVariantsBulkUpdate
                          productId variantId
                          (mutation_metafields metafields)]).
Proof.
  intros Hlive Hne. unfold updateVariantMetafields.
  apply length_eqb_0 in Hne. rewrite Hne, Hlive. unfold bind.
  destruct (lookup_trace variantId net) as [w1 Hnet1].
  destruct (lookup variantId net) as [productId net1]. simpl in Hnet1. subst net1.
  destruct productId as [[|c pid]|];
    try (exists w1, [GetVariant variantId]; split; [reflexivity | left; reflexivity]).
  unfold makeGraphQLRequest. simpl world. simpl trace.
  destruct (endpoint _ w1) as [response w2].
  exists w2, [GetVariant variantId;
              ProductVariantsBulkUpdate (c :: pid) variantId
                                        (mutation_metafields metafields)].
  split; [|right; exists (c :: pid); reflexivity].
  rewrite <- app_assoc.
  destruct response as [m | data]; [reflexivity|].
  destruct (productVariantsBulkUpdate_userErrors data) as [m | errors];
    [reflexivity|].
  destruct (0 <? userErrors_length errors); reflexivity.
Qed.

(** A lookup that yields no product fails every metafield of the row, and
    no mutation is sent. *)
Lemma update_lookup_fails (config : Config) (variantId : option jsstring)
      (metafields : list Metafield) (net net1 : Net World)
      (productId : option jsstring) :
  dryRun config = false -> metafields <> [] ->
  lookup variantId net = (productId, net1) ->
  productId = None \/ productId = Some [] ->
  update config variantId metafields net
  = (all_failed metafields
       (lit "Could not find product for variant " ++ template_text variantId),
     net1).
Proof.
  intros Hlive Hne Hlookup Hnone. unfold updateVariantMetafields.
  apply length_eqb_0 in Hne. rewrite Hne, Hlive. unfold bind.
  rewrite Hlookup. destruct Hnone as [-> | ->]; reflexivity.
Qed.

(** A mutation that fails, in any of the ways [mutation_error] lists,
    fails every metafield of the row with the error text. *)
Lemma update_mutation_fails (config : Config) (variantId : option jsstring)
      (metafields : list Metafield) (net net1 : Net World)
      (productId : jsstring) (response : Response) (w2 : World)
      (message : jsstring) :
  dryRun config = false -> metafields <> [] ->
  lookup variantId net = (Some productId, net1) -> productId <> [] ->
  endpoint (ProductVariantsBulkUpdate productId variantId
                                      (mutation_metafields metafields))
           (world net1) = (response, w2) ->
  mutation_error response = Some message ->
  update config variantId metafields net
  = (all_failed metafields message,
     {| world := w2;
        trace := trace net1
                 ++ [ProductVariantsBulkUpdate
                       productId variantId (mutation_metafields metafields)] |}).
Proof.
  intros Hlive Hne Hlookup Hpid Hreply Herr. unfold updateVariantMetafields.
  apply length_eqb_0 in Hne. rewrite Hne, Hlive. unfold bind.
  rewrite Hlookup. destruct productId as [|c pid]; [congruence|].
  unfold makeGraphQLRequest. rewrite Hreply.
  unfold mutation_error in Herr.
  destruct response as [m | data].
  - inversion Herr. reflexivity.
  - destruct (productVariantsBulkUpdate_userErrors data) as [m | errors].
    + inversion Herr. reflexivity.
    + destruct (0 <? userErrors_length errors); [|discriminate].
      inversion Herr. reflexivity.
Qed.

(** A mutation that is accepted succeeds for every metafield of the row. *)
Lemma update_mutation_accepted (config : Config) (variantId : option jsstring)
      (metafields : list Metafield) (net net1 : Net World)
      (productId : jsstring) (data : Data) (w2 : World) :
  dryRun config = false -> metafields <> [] ->
  lookup variantId net = (Some productId, net1) -> productId <> [] ->
  endpoint (ProductVariantsBulkUpdate productId variantId
                                      (mutation_metafields metafields))
           (world net1) = (Resolve data, w2) ->
  mutation_error (Resolve data) = None ->
  update config variantId metafields net
  = (map (fun metafield => UpdatedResult metafield data) metafields,
     {| world := w2;
        trace := trace net1
                 ++ [ProductVariantsBulkUpdate
                       productId variantId (mutation_metafields metafields)] |}).
Proof.
  intros Hlive Hne Hlookup Hpid Hreply Herr. unfold updateVariantMetafields.
  apply length_eqb_0 in Hne. rewrite Hne, Hlive. unfold bind.
  rewrite Hlookup. destruct productId as [|c pid]; [congruence|].
  unfold makeGraphQLRequest. rewrite Hreply.
  unfold mutation_error in Herr.
  destruct (productVariantsBulkUpdate_userErrors data) as [m | errors];
    [discriminate|].
  destruct (0 <? userErrors_length errors); [discriminate | reflexivity].
Qed.

Lemma forallb_all_failed (metafields : list Metafield) (message : jsstring) :
  metafields <> [] ->
  forallb result_success (all_failed metafields message) = false.
Proof. destruct metafields; [congruence | reflexivity]. Qed.

Lemma forallb_updated (metafields : list Metafield) (data : Data) :
  forallb result_success
          (map (fun metafield => UpdatedResult metafield data) metafields)
  = true.
Proof. induction metafields; simpl; auto. Qed.

Lemma forallb_dry (metafields : list Metafield) :
  forallb result_success (map DryRunResult metafields) = true.
Proof. induction metafields; simpl; auto. Qed.

Lemma would_update_iff (variant : Importer.row) :
  would_update variant = true <-> extractMetafields variant <> [].
Proof.
  unfold would_update. rewrite negb_true_iff. apply length_eqb_0.
Qed.

End NetworkStage.

(* ================================================================== *)
(** * The batch writer, batch by batch *)
(* ================================================================== *)

Section Batches.

Variable World : Type.
Variable endpoint : Request -> World -> Response * World.

Local Abbreviation batch := (processBatch endpoint).

(** In either mode the skipped rows are the rows with nothing to write, and
    the detail list holds the other rows, in order, with what was
    extracted from them. *)
Lemma batch_classification (config : Config) (variants : list Importer.row) :
  forall net : Net World,
    let r := fst (batch config variants net) in
    skipped r = length (filter (fun v => negb (would_update v)) variants)
    /\ success r + failed r = length (filter would_update variants)
    /\ map entry_payload (details r)
       = map row_payload (filter would_update variants).
Proof.
  induction variants as [|v vs IH]; intros net.
  - simpl. auto.
  - cbv zeta. rewrite processBatch_cons, process_variant_alone.
    destruct (would_update v) eqn:Ev.
    + pose proof (update_payload endpoint config (get v VARIANT_ID)
                                 (extractMetafields v) net) as Hpay.
      destruct (updateVariantMetafields endpoint config _ _ net) as [rs net1].
      simpl in Hpay. specialize (IH net1). cbv zeta in IH.
      destruct (batch config vs net1) as [r2 net2]. simpl in IH.
      destruct IH as [Hs [Hc Hd]].
      simpl filter. rewrite Ev. simpl negb. cbv iota.
      destruct (forallb result_success rs); simpl;
        (split; [exact Hs | split; [lia|]]);
        unfold entry_payload at 1, row_payload at 1; simpl;
        rewrite Hpay, Hd; reflexivity.
    + specialize (IH net). cbv zeta in IH.
      destruct (batch config vs net) as [r2 net2]. simpl in IH.
      destruct IH as [Hs [Hc Hd]].
      simpl filter. rewrite Ev. simpl.
      split; [lia | split; [exact Hc | exact Hd]].
Qed.

(** A dry run leaves the network alone and reports no failure. *)
Lemma batch_dry (config : Config) (variants : list Importer.row) :
  dryRun config = true ->
  forall net : Net World,
    snd (batch config variants net) = net
    /\ failed (fst (batch config variants net)) = 0.
Proof.
  intros Hdry. induction variants as [|v vs IH]; intros net.
  - simpl. auto.
  - rewrite processBatch_cons, process_variant_alone.
    destruct (would_update v).
    + rewrite update_dry by exact Hdry. rewrite forallb_dry.
      specialize (IH net). destruct (batch config vs net) as [r2 net2].
      simpl in *. exact IH.
    + specialize (IH net). destruct (batch config vs net) as [r2 net2].
      simpl in *. exact IH.
Qed.

(** A live run does, for the rows with something to write and in their
    order, the network stage of each; nothing else reaches the network. *)
Lemma batch_live_requests (config : Config) (variants : list Importer.row) :
  dryRun config = false ->
  forall net : Net World,
  exists stages,
    Forall2 network_stage (filter would_update variants) stages
    /\ trace (snd (batch config variants net)) = trace net ++ concat stages.
Proof.
  intros Hlive. induction variants as [|v vs IH]; intros net.
  - exists []. split; [constructor|]. simpl. rewrite app_nil_r. reflexivity.
  - rewrite processBatch_cons, process_variant_alone.
    simpl filter. destruct (would_update v) eqn:Ev.
    + destruct (update_live_requests endpoint config (get v VARIANT_ID)
                  (metafields := extractMetafields v) net Hlive)
        as [w [requests [Hnet Hshape]]].
      { apply would_update_iff. exact Ev. }
      destruct (updateVariantMetafields endpoint config _ _ net) as [rs net1].
      simpl in Hnet. subst net1.
      destruct (IH {| world := w; trace := trace net ++ requests |})
        as [stages [Hst Htr]].
      destruct (batch config vs _) as [r2 net2]. simpl in Htr.
      exists (requests :: stages). split.
      * constructor; [exact Hshape | exact Hst].
      * destruct (forallb result_success rs); simpl; rewrite Htr;
          rewrite <- app_assoc; reflexivity.
    + destruct (IH net) as [stages [Hst Htr]].
      destruct (batch config vs net) as [r2 net2].
      exists stages. split; [exact Hst | exact Htr].
Qed.

(** A property of requests that the lookup and the mutation of every row
    have holds of every request a run adds to the trace. *)
Lemma batch_trace_invariant (P : Request -> Prop) (config : Config)
      (variants : list Importer.row) :
  (forall v, P (lookup_of v)) ->
  (forall productId v, P (mutation_of productId v)) ->
  forall net : Net World,
    Forall P (trace net) ->
    Forall P (trace (snd (batch config variants net))).
Proof.
  intros Hlookup Hmutation net Hnet.
  destruct (dryRun config) eqn:Hmode.
  - destruct (batch_dry config variants Hmode net) as [-> _]. exact Hnet.
  - destruct (batch_live_requests config variants Hmode net)
      as [stages [Hst ->]].
    apply Forall_app. split; [exact Hnet|].
    clear Hnet. induction Hst as [|v requests vs stages Hv _ IH]; [constructor|].
    simpl. apply Forall_app. split; [|exact IH].
    destruct Hv as [-> | [productId ->]]; repeat constructor; auto.
Qed.

End Batches.

(* ================================================================== *)
(** * The run: batches of a fixed size *)
(* ================================================================== *)

Section Run.

Variable World : Type.
Variable endpoint : Request -> World -> Response * World.

(** With a batch size of one at least the loop ends, and cutting the rows
    into batches changes nothing: the totals are those of one pass over
    the rows that remain. *)
Lemma import_loop_total (config : Config) (variants : list Importer.row) :
  1 <= batchSize config ->
  forall fuel i totalResults (net : Net World),
    length variants - i <= fuel ->
    import_loop endpoint fuel config variants i totalResults net
    = let (r, net') := processBatch endpoint config (skipn i variants) net in
      (Some (add_results totalResults r), net').
Proof.
  intros Hsize. induction fuel as [|fuel IH]; intros i total net Hfuel.
  - simpl. destruct (i <? length variants) eqn:Ei.
    + apply Nat.ltb_lt in Ei. lia.
    + apply Nat.ltb_ge in Ei. rewrite skipn_all2 by exact Ei.
      rewrite processBatch_nil, add_no_results_r. reflexivity.
  - simpl. destruct (i <? length variants) eqn:Ei.
    + apply Nat.ltb_lt in Ei. unfold bind.
      rewrite <- (firstn_skipn (batchSize config) (skipn i variants)) at 2.
      rewrite processBatch_app.
      destruct (processBatch endpoint config
                  (firstn (batchSize config) (skipn i variants)) net)
        as [r1 net1].
      rewrite IH by lia.
      rewrite skipn_skipn, (Nat.add_comm (batchSize config) i).
      destruct (processBatch endpoint config
                  (skipn (i + batchSize config) variants) net1)
        as [r2 net2].
      rewrite add_results_assoc. reflexivity.
    + apply Nat.ltb_ge in Ei. rewrite skipn_all2 by exact Ei.
      rewrite processBatch_nil, add_no_results_r. reflexivity.
Qed.

(** With a batch size of zero and a row to process the loop makes no
    progress: whatever the fuel, it is used up. *)
Lemma import_loop_zero_size (config : Config) (variants : list Importer.row) :
  batchSize config = 0 -> variants <> [] ->
  forall fuel totalResults (net : Net World),
    import_loop endpoint fuel config variants 0 totalResults net = (None, net).
Proof.
  intros Hsize Hne.
  assert (Hlt : (0 <? length variants) = true).
  { apply Nat.ltb_lt. destruct variants; [congruence | simpl; lia]. }
  induction fuel as [|fuel IH]; intros total net; simpl; rewrite Hlt.
  - reflexivity.
  - rewrite Hsize. simpl. unfold bind. rewrite processBatch_nil. apply IH.
Qed.

(** The whole run on a file that parses. *)
Lemma importVariants_total (config : Config) (csvContent : jsstring)
      (variants : list Importer.row) (warnings : list jsstring)
      (fuel : nat) (net : Net World) :
  1 <= batchSize config ->
  length variants <= fuel ->
  parseCSV csvContent = Return (variants, warnings) ->
  importVariants endpoint fuel config csvContent net
  = let (r, net') := processBatch endpoint config variants net in
    (Some (Return (r, warnings)), net').
Proof.
  intros Hsize Hfuel Hparse. unfold importVariants. rewrite Hparse.
  unfold bind. rewrite import_loop_total by (try exact Hsize; lia).
  simpl skipn.
  destruct (processBatch endpoint config variants net) as [r net'].
  rewrite add_no_results_l. reflexivity.
Qed.

End Run.

(* ================================================================== *)
(** * Column names and the extraction *)
(* ================================================================== *)

Lemma truthy_iff (s : jsstring) : truthy s = true <-> s <> [].
Proof. destruct s; simpl; split; congruence. Qed.


Lemma column_parts_of_name (ns k : jsstring) :
  column_parts (column_name ns k) = split UNDERSCORE (ns ++ [UNDERSCORE] ++ k).
Proof.
  unfold column_parts, column_name. rewrite replace_first_prefix. reflexivity.
Qed.

(** A column that pushes an entry holds a non-empty cell, and its name is
    the exporter's name for the namespace and key of the entry. *)
Lemma extract_column_inv (r : Importer.row) (k : jsstring) (mf : Metafield) :
  In mf (extract_column r k) ->
  get r k = Some (value mf) /\ value mf <> []
  /\ column_name (namespace mf) (key mf) = k
  /\ type mf = SINGLE_LINE_TEXT_FIELD.
Proof.
  unfold extract_column. destruct (get r k) as [v|]; [|intros []].
  destruct (startsWith METAFIELD_PREFIX k) eqn:Hp; [|intros []].
  destruct (truthy v) eqn:Hv; [|intros []]. simpl andb. cbv iota.
  destruct (column_parts k) as [|ns [|q rest]] eqn:Hparts;
    [intros [] | intros [] |].
  intros [<- | []]. simpl.
  apply truthy_iff in Hv. repeat split; try assumption.
  destruct (startsWith_inv _ _ Hp) as [t ->].
  unfold column_parts in Hparts. rewrite replace_first_prefix in Hparts.
  simpl app in Hparts.
  unfold column_name. f_equal.
  rewrite <- (join_split UNDERSCORE t), Hparts. reflexivity.
Qed.


(** With no underscore in the namespace the entry has the namespace and
    the key the column was named from. *)
Lemma extract_column_inverse (r : Importer.row) (ns k v : jsstring) :
  includes UNDERSCORE ns = false ->
  get r (column_name ns k) = Some v -> v <> [] ->
  extract_column r (column_name ns k)
  = [ {| namespace := ns; key := k; value := v;
         type := SINGLE_LINE_TEXT_FIELD |} ].
Proof.
  intros Hns Hget Hv. unfold extract_column. rewrite Hget.
  unfold column_name at 1. rewrite startsWith_app.
  apply truthy_iff in Hv. rewrite Hv. simpl andb. cbv iota.
  rewrite column_parts_of_name. simpl app.
  rewrite split_app_sep by exact Hns.
  pose proof (split_nonempty UNDERSCORE k) as Hne.
  pose proof (join_split UNDERSCORE k) as Hjoin.
  destruct (split UNDERSCORE k) as [|q rest]; [congruence|].
  rewrite Hjoin. reflexivity.
Qed.

Lemma in_extractMetafields (r : Importer.row) (mf : Metafield) :
  In mf (extractMetafields r)
  <-> exists k, In k (keys r) /\ In mf (extract_column r k).
Proof. unfold extractMetafields. apply in_flat_map. Qed.

(** ** Assignment and the keys of an object *)

Lemma keys_update {A} (k : jsstring) (v : A) (o : obj A) :
  keys (update k v o) = keys o.
Proof.
  induction o as [|[k' v'] o IH]; simpl; [reflexivity|].
  destruct (str_eqb k k'); simpl; [reflexivity | f_equal; exact IH].
Qed.

Lemma in_keys_insert_index {A} (n : N) (k : jsstring) (v : A) (o : obj A)
      (x : jsstring) :
  In x (keys (insert_index n k v o)) <-> x = k \/ In x (keys o).
Proof.
  induction o as [|[k' v'] o IH]; simpl.
  - intuition congruence.
  - destruct (array_index k') as [n'|]; [destruct (n' <? n)%N|]; simpl;
      rewrite ?IH; intuition congruence.
Qed.

Lemma has_true_In {A} (o : obj A) (k : jsstring) :
  has o k = true -> In k (keys o).
Proof.
  unfold has. destruct (get o k) as [v|] eqn:E; [|discriminate].
  intros _. apply (get_In_keys _ _ E).
Qed.

(** After [o[k] = v] the keys are those of [o] and [k]. *)
Lemma in_keys_set {A} (k : jsstring) (v : A) (o : obj A) (x : jsstring) :
  k <> PROTO ->
  In x (keys (JsObject.set k v o)) <-> x = k \/ In x (keys o).
Proof.
  intros Hk. unfold JsObject.set.
  apply str_eqb_neq in Hk. rewrite Hk.
  destruct (has o k) eqn:Eh.
  - rewrite keys_update. apply has_true_In in Eh.
    split; [auto | intros [-> | H]; assumption].
  - destruct (array_index k) as [n|].
    + apply in_keys_insert_index.
    + rewrite keys_app, in_app_iff. simpl. intuition congruence.
Qed.

Lemma column_name_not_proto (ns k : jsstring) : column_name ns k <> PROTO.
Proof. discriminate. Qed.


(* ================================================================== *)
(** * The reader, line by line *)
(* ================================================================== *)

(** The loop keeps the lines with the right number of fields, in order,
    and warns about each of the others. *)
Lemma parseCSV_loop_spec (headers : list jsstring) (lines : list jsstring) :
  forall i data warnings,
    parseCSV_loop headers lines i data warnings
    = (data ++ map (row_of_line headers) (filter (kept headers) lines),
       warnings
       ++ map (warning_of headers)
              (filter (fun il => negb (kept headers (snd il)))
                      (numbered i lines))).
Proof.
  induction lines as [|line lines IH]; intros i data warnings.
  - simpl. rewrite !app_nil_r. reflexivity.
  - unfold numbered in *. simpl.
    change (length (parseCSVLine line) =? length headers)
      with (kept headers line).
    destruct (kept headers line); simpl; rewrite IH, <- app_assoc;
      reflexivity.
Qed.

Lemma filter_partition_length {A} (f : A -> bool) (l : list A) :
  length (filter f l) + length (filter (fun x => negb (f x)) l) = length l.
Proof.
  induction l as [|x l IH]; simpl; [reflexivity|].
  destruct (f x); simpl; lia.
Qed.

Lemma filter_numbered (f : jsstring -> bool) (lines : list jsstring) :
  forall i,
    length (filter (fun il => f (snd il)) (numbered i lines))
    = length (filter f lines).
Proof.
  induction lines as [|line lines IH]; intros i; [reflexivity|].
  unfold numbered. simpl. destruct (f line); simpl;
    [f_equal|]; apply (IH (S i)).
Qed.

(** Every data line is either kept or dropped. *)
Lemma kept_or_dropped (headers : list jsstring) (lines : list jsstring) :
  length (filter (kept headers) lines) + length (dropped_lines headers lines)
  = length lines.
Proof.
  unfold dropped_lines.
  rewrite (filter_numbered (fun l => negb (kept headers l))).
  apply filter_partition_length.
Qed.

Lemma split_cons_length (c x : char) (s : jsstring) :
  char_eqb x c = false -> length (split c (x :: s)) = length (split c s).
Proof.
  intros E. simpl. rewrite E.
  pose proof (split_nonempty c s). destruct (split c s); [congruence | reflexivity].
Qed.

(** On a line without a double quote the line reader counts the fields as
    splitting at every comma does. *)
Lemma loop_count_unquoted (line : jsstring) :
  includes QUOTE line = false ->
  forall values current,
    length (parseCSVLine_loop line values current false)
    = length values + length (split COMMA line).
Proof.
  induction line as [|c line IH]; intros Hq values current.
  - simpl. rewrite length_app. reflexivity.
  - unfold includes in Hq. simpl in Hq.
    apply orb_false_iff in Hq. destruct Hq as [Hc Hq].
    assert (E : char_eqb c QUOTE = false).
    { rewrite char_eqb_sym. exact Hc. }
    simpl parseCSVLine_loop. rewrite E.
    destruct (char_eqb c COMMA) eqn:Ec; simpl andb; cbv iota.
    + rewrite (IH Hq), length_app. simpl. rewrite Ec. simpl. lia.
    + rewrite (IH Hq), (@split_cons_length COMMA c line Ec). reflexivity.
Qed.

Lemma kept_unquoted (headers : list jsstring) (line : jsstring) :
  includes QUOTE line = false ->
  kept headers line = (length (split COMMA line) =? length headers).
Proof.
  intros Hq. unfold kept, parseCSVLine.
  rewrite loop_count_unquoted by exact Hq. reflexivity.
Qed.

(* ================================================================== *)
(** * The properties of the specification *)
(* ================================================================== *)

(** ** Malformed data lines *)

(** C8 (as amended).  In a file with a header line and at least one data
    line (blank lines apart), [parseCSV] never throws: every data line for
    which the quote-aware line reader finds a number of fields other than
    the number of headers is dropped with one warning, the other lines
    become the rows, in order.  On a line without a double quote that
    number is the raw comma-split count.  The run that follows sees the
    kept rows only: its three counts add up to their number. *)
Theorem malformed_lines_dropped (content header : jsstring)
        (rest : list jsstring) :
  filter non_blank (split NEWLINE content) = header :: rest ->
  rest <> [] ->
  let headers := parse_headers header in
  let rows := map (row_of_line headers) (filter (kept headers) rest) in
  let warnings := map (warning_of headers) (dropped_lines headers rest) in
  parseCSV content = Return (rows, warnings)
  /\ length rows + length warnings = length rest
  /\ (forall line, includes QUOTE line = false ->
                   kept headers line
                   = (length (split COMMA line) =? length headers))
  /\ forall World (endpoint : Request -> World -> Response * World)
            config fuel net,
      1 <= batchSize config -> length rest <= fuel ->
      exists total net',
        importVariants endpoint fuel config content net
        = (Some (Return (total, warnings)), net')
        /\ success total + failed total + skipped total = length rows.
Proof.
  intros Hlines Hrest headers rows warnings.
  assert (Hparse : parseCSV content = Return (rows, warnings)).
  { unfold parseCSV. rewrite Hlines.
    destruct rest as [|line rest']; [congruence|].
    rewrite parseCSV_loop_spec. reflexivity. }
  assert (Hlen : length rows + length warnings = length rest).
  { unfold rows, warnings. rewrite !length_map. apply kept_or_dropped. }
  split; [exact Hparse|]. split; [exact Hlen|].
  split; [intros line Hq; apply kept_unquoted; exact Hq|].
  intros World endpoint config fuel net Hsize Hfuel.
  rewrite (importVariants_total endpoint config content (variants := rows)
             (warnings := warnings) (fuel := fuel) net Hsize)
    by (try exact Hparse; lia).
  pose proof (batch_classification endpoint config rows net) as Hc.
  cbv zeta in Hc.
  destruct (processBatch endpoint config rows net) as [total net'].
  simpl in Hc. destruct Hc as [Hs [Hsf _]].
  exists total, net'. split; [reflexivity|].
  rewrite <- (filter_partition_length would_update rows). lia.
Qed.

(** The run on a file with one malformed line between two good ones: the
    line is dropped with a warning and the two other rows are counted. *)
Lemma malformed_lines_dropped_witness :
  filter non_blank (split NEWLINE ragged_file)
  = [lit "variant_id,metafield_custom_popular"; lit "v1,true";
     lit "v2,true,extra"; lit "v3,"]
  /\ parseCSV ragged_file
     = Return ([ [(VARIANT_ID, lit "v1");
                  (lit "metafield_custom_popular", lit "true")];
                 [(VARIANT_ID, lit "v3");
                  (lit "metafield_custom_popular", [])] ],
               [lit "Warning: Row 3 has 3 values but expected 2"]).
Proof.
  split; [vm_compute; reflexivity|].
  destruct (@malformed_lines_dropped
              ragged_file (lit "variant_id,metafield_custom_popular")
              [lit "v1,true"; lit "v2,true,extra"; lit "v3,"]) as [H _];
    [vm_compute; reflexivity | discriminate | exact H].
Defined.

(** C8, as stated, fails: the raw comma-split count of the data line is 3,
    the header count is 2, and the line is kept, without a warning. *)
Lemma quoted_comma_line_kept :
  filter non_blank (split NEWLINE quoted_comma_file)
  = [lit "a,b"; quoted_comma_line]
  /\ length (split COMMA quoted_comma_line) = 3
  /\ length (parse_headers (lit "a,b")) = 2
  /\ parseCSV quoted_comma_file
     = Return ([ [(lit "a", lit "x,y"); (lit "b", lit "z")] ], []).
Proof. vm_compute. repeat split. Qed.

(** ** Rows with nothing to write *)

(** A row whose metafield columns are all empty yields no entry. *)
Lemma unpopulated_extracts_nothing (variant : Importer.row) :
  (forall k v, In (k, v) variant ->
               startsWith METAFIELD_PREFIX k = true -> v = []) ->
  extractMetafields variant = [].
Proof.
  intros H. destruct (extractMetafields variant) as [|mf rest] eqn:E;
    [reflexivity|].
  assert (Hin : In mf (extractMetafields variant)) by (rewrite E; left; reflexivity).
  apply in_extractMetafields in Hin. destruct Hin as [k [_ Hmf]].
  destruct (extract_column_inv _ _ _ Hmf) as [Hget [Hv [Hname _]]].
  exfalso. apply Hv. apply (H k).
  - apply get_In. exact Hget.
  - rewrite <- Hname. unfold column_name. apply startsWith_app.
Qed.

(** C7.  A row from which no metafield entry is extracted (so, by
    [unpopulated_extracts_nothing], a row whose metafield columns are all
    empty) is counted as skipped, and as nothing else: alone it gives the
    aggregate with [skipped = 1], no success, no failure and no detail, and
    the network state is untouched; inside a batch it adds exactly that to
    what the rows before and after it give, and the rows after it start
    from the network state the rows before it left, so no request was
    issued for it.  This holds in both modes and for every endpoint. *)
Theorem skip_rule (World : Type)
        (endpoint : Request -> World -> Response * World) (config : Config)
        (front : list Importer.row) (variant : Importer.row)
        (back : list Importer.row) (net : Net World) :
  extractMetafields variant = [] ->
  processBatch endpoint config [variant] net = (skipped_one, net)
  /\ processBatch endpoint config (front ++ variant :: back) net
     = let (r1, net1) := processBatch endpoint config front net in
       let (r2, net2) := processBatch endpoint config back net1 in
       (add_results (add_results r1 skipped_one) r2, net2).
Proof.
  intros Hnone.
  assert (Hrow : forall n : Net World,
             process_variant endpoint config no_results variant n
             = (skipped_one, n)).
  { intros n. rewrite process_variant_alone. unfold would_update.
    rewrite Hnone. reflexivity. }
  split.
  - rewrite processBatch_cons, Hrow, processBatch_nil. reflexivity.
  - rewrite processBatch_app.
    destruct (processBatch endpoint config front net) as [r1 net1].
    rewrite processBatch_cons, Hrow.
    destruct (processBatch endpoint config back net1) as [r2 net2].
    rewrite add_results_assoc. reflexivity.
Qed.

(** Five rows, the third with an empty metafield column, in a live run
    against a shop that serves every request: four successes, one skipped
    row, four detail entries, and no request about the third variant. *)
Lemma skip_rule_witness :
  extractMetafields (untouched_row "v3" "Three") = []
  /\ let run :=
       processBatch (shop None) (live 10)
         ([variant_row "v1" "One"; variant_row "v2" "Two"]
          ++ untouched_row "v3" "Three"
          :: [variant_row "v4" "Four"; variant_row "v5" "Five"]) fresh in
     success (fst run) = 4 /\ failed (fst run) = 0 /\ skipped (fst run) = 1
     /\ length (details (fst run)) = 4
     /\ length (trace (snd run)) = 8
     /\ existsb (about "v3") (trace (snd run)) = false.
Proof.
  split.
  - apply unpopulated_extracts_nothing.
    intros k v [E | [E | [E | []]]]; inversion E; subst;
      (discriminate || reflexivity).
  - cbv zeta.
    rewrite (proj2 (@skip_rule nat (shop None) (live 10)
                      [variant_row "v1" "One"; variant_row "v2" "Two"]
                      (untouched_row "v3" "Three")
                      [variant_row "v4" "Four"; variant_row "v5" "Five"]
                      fresh eq_refl)).
    vm_compute. repeat split.
Defined.

(** ** The aggregate of a run *)

(** C9 (as amended).  For every file that parses and every batch size of
    one at least, the run ends and returns the aggregate of one pass over
    the rows: the three counts add up to the number of rows, [skipped]
    counts the rows with nothing to write, and the detail list holds one
    entry for every row that was not skipped -- as many as [success] and
    [failed] together, in row order, each with the variant and the
    metafields extracted from it.  A skipped row is counted and has no
    detail entry. *)
Theorem aggregate_counts_and_details (World : Type)
        (endpoint : Request -> World -> Response * World) (config : Config)
        (csvContent : jsstring) (variants : list Importer.row)
        (warnings : list jsstring) (fuel : nat) (net : Net World) :
  1 <= batchSize config ->
  length variants <= fuel ->
  parseCSV csvContent = Return (variants, warnings) ->
  exists total net',
    importVariants endpoint fuel config csvContent net
    = (Some (Return (total, warnings)), net')
    /\ processBatch endpoint config variants net = (total, net')
    /\ success total + failed total + skipped total = length variants
    /\ skipped total
       = length (filter (fun v => negb (would_update v)) variants)
    /\ length (details total) = success total + failed total
    /\ map entry_payload (details total)
       = map row_payload (filter would_update variants).
Proof.
  intros Hsize Hfuel Hparse.
  rewrite (importVariants_total endpoint config csvContent net Hsize Hfuel Hparse).
  pose proof (batch_classification endpoint config variants net) as Hc.
  cbv zeta in Hc.
  destruct (processBatch endpoint config variants net) as [total net'].
  simpl in Hc. destruct Hc as [Hs [Hsf Hd]].
  exists total, net'. repeat split; try assumption.
  - rewrite <- (filter_partition_length would_update variants). lia.
  - rewrite Hsf, <- (length_map entry_payload), Hd, length_map. reflexivity.
Qed.

(** The run on the file with three data lines, one of them malformed and
    one with an empty metafield column, in batches of one: one success,
    one skipped row, one detail entry. *)
Lemma aggregate_counts_and_details_witness :
  1 <= batchSize (live 1)
  /\ exists total net',
      importVariants (shop None) 5 (live 1) ragged_file fresh
      = (Some (Return (total,
                       [lit "Warning: Row 3 has 3 values but expected 2"])),
         net')
      /\ success total = 1 /\ failed total = 0 /\ skipped total = 1
      /\ length (details total) = 1.
Proof.
  split; [apply le_n|].
  destruct (@aggregate_counts_and_details
              nat (shop None) (live 1) ragged_file
              [ [(VARIANT_ID, lit "v1");
                 (lit "metafield_custom_popular", lit "true")];
                [(VARIANT_ID, lit "v3");
                 (lit "metafield_custom_popular", [])] ]
              [lit "Warning: Row 3 has 3 values but expected 2"]
              5 fresh)
    as [total [net' [Hrun [Hbatch _]]]];
    [apply le_n | repeat constructor | vm_compute; reflexivity |].
  exists total, net'. split; [exact Hrun|].
  vm_compute in Hbatch. inversion Hbatch. repeat split.
Defined.

(** C9, as stated, fails: a row with an empty metafield column is
    processed and counted as skipped, and the detail list has no entry for
    it. *)
Lemma skipped_row_has_no_detail :
  processBatch (shop None) (live 10) [untouched_row "v1" "One"] fresh
  = ({| success := 0; failed := 0; skipped := 1; details := [] |}, fresh).
Proof. vm_compute. reflexivity. Qed.

(** ** Empty cells *)

Lemma extracted_values_not_empty (r : Importer.row) (mf : Metafield) :
  In mf (extractMetafields r) -> value mf <> [].
Proof.
  intros Hin. apply in_extractMetafields in Hin. destruct Hin as [k [_ Hmf]].
  apply (extract_column_inv _ _ _ Hmf).
Qed.

Lemma mutation_writes_no_empty_value (productId : jsstring)
      (variant : Importer.row) :
  writes_no_empty_value (mutation_of productId variant).
Proof.
  unfold mutation_of, writes_no_empty_value, mutation_metafields.
  apply Forall_map. apply Forall_forall. intros mf Hin. simpl.
  apply (extracted_values_not_empty _ _ Hin).
Qed.

(** Whatever the batch size and the fuel, a property that every lookup and
    every mutation of a row has holds along the whole run. *)
Lemma import_loop_trace_invariant (World : Type)
      (endpoint : Request -> World -> Response * World)
      (P : Request -> Prop) (config : Config) (variants : list Importer.row) :
  (forall v, P (lookup_of v)) ->
  (forall productId v, P (mutation_of productId v)) ->
  forall fuel i totalResults (net : Net World),
    Forall P (trace net) ->
    Forall P (trace (snd (import_loop endpoint fuel config variants i
                                      totalResults net))).
Proof.
  intros Hlookup Hmutation.
  induction fuel as [|fuel IH]; intros i total net Hnet; simpl;
    destruct (i <? length variants); try exact Hnet.
  unfold bind.
  pose proof (@batch_trace_invariant _ endpoint P config
                (firstn (batchSize config) (skipn i variants))
                Hlookup Hmutation net Hnet) as Hbatch.
  destruct (processBatch endpoint config _ net) as [r net1].
  apply IH. exact Hbatch.
Qed.

(** C10.  An entry is extracted from populated cells only: every extracted
    entry has a non-empty value, and no extracted entry has the namespace
    and key of a column whose cell is empty.  So along a whole import run,
    whatever the file, the mode, the batch size and the replies, every
    mutation request carries non-empty values only: no run sets a remote
    metafield to the empty string. *)
Theorem empty_cells_never_written :
  (forall (r : Importer.row) mf,
      In mf (extractMetafields r) -> value mf <> [])
  /\ (forall (r : Importer.row) k mf,
         get r k = Some [] -> In mf (extractMetafields r) ->
         column_name (namespace mf) (key mf) <> k)
  /\ (forall World (endpoint : Request -> World -> Response * World)
             fuel config csvContent (net : Net World),
         Forall writes_no_empty_value (trace net) ->
         Forall writes_no_empty_value
                (trace (snd (importVariants endpoint fuel config
                                            csvContent net)))).
Proof.
  split; [exact extracted_values_not_empty|]. split.
  - intros r k mf Hempty Hin Hname.
    apply in_extractMetafields in Hin. destruct Hin as [k' [_ Hmf]].
    destruct (extract_column_inv _ _ _ Hmf) as [Hget [Hv [Hname' _]]].
    rewrite Hname' in Hname. subst k'. rewrite Hempty in Hget.
    inversion Hget as [E]. apply Hv. symmetry. exact E.
  - intros World endpoint fuel config csvContent net Hnet.
    unfold importVariants.
    destruct (parseCSV csvContent) as [[variants warnings] | message];
      [|exact Hnet].
    unfold bind.
    pose proof (@import_loop_trace_invariant
                  _ endpoint writes_no_empty_value config variants
                  (fun _ => I) mutation_writes_no_empty_value
                  fuel 0 no_results net Hnet) as Hloop.
    destruct (import_loop endpoint fuel config variants 0 no_results net)
      as [[total|] net']; exact Hloop.
Qed.

(** A row with an empty and a populated metafield column gives the entry
    of the populated one only; and in the live run on the file whose last
    data line has an empty metafield cell the only mutation sent is the
    one of the first variant. *)
Lemma empty_cells_never_written_witness :
  extractMetafields mixed_row = [custom_size]
  /\ column_name (namespace custom_size) (key custom_size)
     <> lit "metafield_custom_popular"
  /\ Forall writes_no_empty_value
            (trace (snd (importVariants (shop None) 5 (live 1) ragged_file fresh)))
  /\ filter is_mutation
            (trace (snd (importVariants (shop None) 5 (live 1) ragged_file fresh)))
     = [ProductVariantsBulkUpdate
          (lit "gid://shopify/Product/7") (Some (lit "v1"))
          [ {| namespace := lit "custom"; key := lit "popular";
               value := lit "true"; type := SINGLE_LINE_TEXT_FIELD |} ]].
Proof.
  split; [reflexivity|]. split; [|split].
  - apply (proj1 (proj2 empty_cells_never_written) mixed_row
                 (lit "metafield_custom_popular") custom_size eq_refl).
    left. reflexivity.
  - apply (proj2 (proj2 empty_cells_never_written)). constructor.
  - vm_compute. reflexivity.
Defined.

(** ** The naming of metafield columns *)

Lemma array_index_column_name (ns k : jsstring) :
  array_index (column_name ns k) = None.
Proof. reflexivity. Qed.

(** The object flattened from one metafield has one property. *)
Lemma flatten_one (mf : Metafield) :
  flattenMetafields [mf]
  = [(column_name (namespace mf) (key mf), value mf)].
Proof. reflexivity. Qed.




(** The naming is not one-to-one: no reader can tell these two pairs
    apart. *)
Lemma column_name_not_injective :
  column_name (lit "cross_sell") (lit "x") = column_name (lit "cross") (lit "sell_x").
Proof. reflexivity. Qed.

(** C6 (as amended).  For every namespace without an underscore, every key
    and every non-empty value, extracting from the column produced by
    flattening recovers exactly the namespace, the key and the value; so
    does the extraction from that column in any row. *)
Theorem decomposition_inverts_flattening (ns k v t : jsstring) :
  includes UNDERSCORE ns = false ->
  v <> [] ->
  extractMetafields
    (flattenMetafields [ {| namespace := ns; key := k; value := v; type := t |} ])
  = [ {| namespace := ns; key := k; value := v;
         type := SINGLE_LINE_TEXT_FIELD |} ]
  /\ forall r : Importer.row,
      get r (column_name ns k) = Some v ->
      extract_column r (column_name ns k)
      = [ {| namespace := ns; key := k; value := v;
             type := SINGLE_LINE_TEXT_FIELD |} ].
Proof.
  intros Hns Hv. split.
  - rewrite flatten_one. simpl namespace. simpl key. simpl value.
    unfold extractMetafields. simpl keys. simpl flat_map.
    rewrite app_nil_r. apply extract_column_inverse; [exact Hns | | exact Hv].
    simpl. rewrite str_eqb_refl. reflexivity.
  - intros r Hget. apply extract_column_inverse; assumption.
Qed.

(** The pair [custom], [popular_item]: the key may hold underscores. *)
Lemma decomposition_inverts_flattening_witness :
  includes UNDERSCORE (lit "custom") = false
  /\ extractMetafields
       (flattenMetafields
          [ {| namespace := lit "custom"; key := lit "popular_item";
               value := lit "true"; type := lit "boolean" |} ])
     = [ {| namespace := lit "custom"; key := lit "popular_item";
            value := lit "true"; type := SINGLE_LINE_TEXT_FIELD |} ].
Proof.
  split; [reflexivity|].
  apply (@decomposition_inverts_flattening
           (lit "custom") (lit "popular_item") (lit "true") (lit "boolean"));
    [reflexivity | discriminate].
Defined.

(** C6, as stated, fails: for the namespace [cross_sell] and the key [x]
    the extraction gives the namespace [cross] and the key [sell_x]. *)
Lemma underscore_namespace_not_recovered :
  extractMetafields (flattenMetafields [cross_sell_x])
  = [ {| namespace := lit "cross"; key := lit "sell_x"; value := lit "1";
         type := SINGLE_LINE_TEXT_FIELD |} ].
Proof. reflexivity. Qed.

(** ** Encoding, then decoding *)

(** The reader on rows whose values are not plain: every value comes
    back trimmed. *)
Lemma combine_keys_trimmed (r : Importer.row) :
  combine (keys r) (map trim (values_of r)) = trimmed_row r.
Proof.
  induction r as [|[k v] r IH]; [reflexivity|].
  simpl. f_equal. exact IH.
Qed.

Lemma decode_readable_row (headers : list jsstring) (r : Importer.row) :
  NoDup headers -> keys_ordered headers = true -> ~ In PROTO headers ->
  headers <> [] -> keys r = headers ->
  parseCSVLine (line_of (values_of r)) = map trim (values_of r)
  /\ make_row headers (map trim (values_of r)) = trimmed_row r.
Proof.
  intros Hnd Hord Hproto Hne Hk.
  assert (Hlen : length (values_of r) = length headers).
  { rewrite values_of_length, Hk. reflexivity. }
  split.
  - unfold line_of. apply parseCSVLine_encoded.
    intros E. rewrite E in Hlen. destruct headers; [congruence | discriminate].
  - rewrite make_row_combine; try assumption.
    + rewrite <- Hk. apply combine_keys_trimmed.
    + rewrite length_map. exact Hlen.
Qed.

Lemma parseCSV_loop_readable (headers : list jsstring)
      (rows : list Importer.row) :
  NoDup headers -> keys_ordered headers = true -> ~ In PROTO headers ->
  headers <> [] -> Forall (fun r => keys r = headers) rows ->
  forall i data warnings,
    parseCSV_loop headers (map (fun r => line_of (values_of r)) rows)
                  i data warnings
    = (data ++ map trimmed_row rows, warnings).
Proof.
  intros Hnd Hord Hproto Hne Hrows.
  induction Hrows as [|r rows Hr _ IH]; intros i data warnings.
  - simpl. rewrite app_nil_r. reflexivity.
  - destruct (@decode_readable_row headers r Hnd Hord Hproto Hne Hr)
      as [Hline Hrow].
    simpl. rewrite Hline, Hrow.
    replace (length (map trim (values_of r)) =? length headers) with true.
    + simpl. rewrite IH, <- app_assoc. reflexivity.
    + symmetry. apply Nat.eqb_eq.
      rewrite length_map, values_of_length, Hr. reflexivity.
Qed.

Lemma line_of_one_line (vs : list jsstring) :
  Forall (fun v => includes NEWLINE v = false) vs ->
  includes NEWLINE (line_of vs) = false.
Proof.
  intros H. unfold line_of. apply includes_join; [discriminate|].
  apply Forall_map. eapply Forall_impl; [|exact H].
  intros v Hv. apply encode_string_no_newline. exact Hv.
Qed.

Lemma decode_encode_trimmed (first : Importer.row) (rest : list Importer.row) :
  NoDup (keys first) -> keys_ordered (keys first) = true ->
  keys first <> [] -> keys first <> [[]] ->
  Forall plain_header (keys first) ->
  Forall (readable_row (keys first)) (first :: rest) ->
  parseCSV (arrayToCSV (map to_cells (first :: rest)))
  = Return (map trimmed_row (first :: rest), []).
Proof.
  intros Hnd Hord Hne Hne' Hhdr Hrows.
  set (headers := keys first) in *.
  rewrite arrayToCSV_lines.
  2: exact Hnd.
  2:{ eapply Forall_impl; [|exact Hrows]. intros r [Hk _]. exact Hk. }
  fold headers. unfold parseCSV.
  rewrite split_join.
  2: discriminate.
  2:{ constructor.
      - apply includes_join; [discriminate|].
        eapply Forall_impl; [|exact Hhdr]. intros h [_ [_ [Hn _]]]. exact Hn.
      - apply Forall_map. eapply Forall_impl; [|exact Hrows].
        intros r [_ [Hv _]]. apply line_of_one_line. exact Hv. }
  rewrite filter_all.
  2:{ constructor.
      - apply header_line_non_blank; assumption.
      - apply Forall_map. eapply Forall_impl; [|exact Hrows].
        intros r [_ [_ Hb]]. exact Hb. }
  simpl map at 1. rewrite parse_headers_join by assumption.
  change (line_of (values_of first)
          :: map (fun r => line_of (values_of r)) rest)
    with (map (fun r => line_of (values_of r)) (first :: rest)).
  rewrite parseCSV_loop_readable; try assumption.
  - reflexivity.
  - apply plain_headers_no_proto. exact Hhdr.
  - eapply Forall_impl; [|exact Hrows]. intros r [Hk _]. exact Hk.
Qed.

(** The column names of a header line without a double quote are the
    pieces between its commas, trimmed. *)
Lemma parse_headers_trims (headers : list jsstring) :
  headers <> [] ->
  Forall (fun h => includes COMMA h = false /\ includes QUOTE h = false)
         headers ->
  parse_headers (join [COMMA] headers) = map trim headers.
Proof.
  intros Hne H. unfold parse_headers.
  rewrite split_join; [|exact Hne|].
  - apply map_ext_in. intros h Hh. rewrite Forall_forall in H.
    destruct (H _ Hh) as [_ Hq].
    rewrite replace_all_quotes_none by exact Hq. reflexivity.
  - eapply Forall_impl; [|exact H]. intros h [Hc _]. exact Hc.
Qed.

(** C2 (as amended).  For every non-empty set of rows of strings that
    share the columns of the first row (distinct keys in own-key order, as
    every object has them), whose column names are plain (no
    comma, double quote or line feed, no white space at either end, not
    [__proto__], and not one lone empty name) and whose values are plain
    (no line feed, no white space at either end; commas and double quotes
    are allowed; a one-column row is not empty): decoding the encoded text
    gives exactly the original rows, and no warning.  The reader trims
    every value and every column name.  When the values, still on one
    line, are not trimmed, decoding the encoded text gives the rows with
    every value trimmed: white space at the ends of a value does not
    survive.  Line by line, the reader gives back every encoded value with
    the white space at its ends removed, whatever the value holds, and it
    takes the pieces of a header line, trimmed, as the column names. *)
Theorem round_trip_of_plain_rows :
  (forall (first : Importer.row) (rest : list Importer.row),
      NoDup (keys first) ->
      keys_ordered (keys first) = true ->
      keys first <> [] ->
      keys first <> [[]] ->
      Forall plain_header (keys first) ->
      Forall (plain_row (keys first)) (first :: rest) ->
      parseCSV (arrayToCSV (map to_cells (first :: rest)))
      = Return (first :: rest, []))
  /\ (forall (first : Importer.row) (rest : list Importer.row),
         NoDup (keys first) ->
         keys_ordered (keys first) = true ->
         keys first <> [] ->
         keys first <> [[]] ->
         Forall plain_header (keys first) ->
         Forall (readable_row (keys first)) (first :: rest) ->
         parseCSV (arrayToCSV (map to_cells (first :: rest)))
         = Return (map trimmed_row (first :: rest), []))
  /\ (forall vs : list jsstring,
         vs <> [] -> parseCSVLine (line_of vs) = map trim vs)
  /\ (forall headers : list jsstring,
         headers <> [] ->
         Forall (fun h => includes COMMA h = false
                          /\ includes QUOTE h = false) headers ->
         parse_headers (join [COMMA] headers) = map trim headers).
Proof.
  split; [|split; [|split]].
  - intros first rest Hnd Hord Hne Hne' Hhdr Hrows.
    apply decode_encode_plain; assumption.
  - intros first rest Hnd Hord Hne Hne' Hhdr Hrows.
    apply decode_encode_trimmed; assumption.
  - intros vs Hne. unfold line_of. apply parseCSVLine_encoded. exact Hne.
  - intros headers Hne H. apply parse_headers_trims; assumption.
Qed.

Lemma sample_keys_distinct : NoDup (keys (hd [] sample_rows)).
Proof.
  repeat constructor; simpl; intuition discriminate.
Defined.

Lemma padded_keys_distinct : NoDup (keys (hd [] padded_rows)).
Proof.
  repeat constructor; simpl; intuition discriminate.
Defined.

(** The two sample rows, one with a value that holds a comma and double
    quotes and one with an empty value, survive the round trip; the row
    with a value that starts with a space comes back with the value
    trimmed. *)
Lemma round_trip_of_plain_rows_witness :
  needs_quoting QUOTED_NOTE = true
  /\ parseCSV (arrayToCSV (map to_cells sample_rows))
     = Return (sample_rows, [])
  /\ parseCSV (arrayToCSV (map to_cells padded_rows))
     = Return ([ [ (lit "a", lit "x"); (lit "b", lit "y") ] ], []).
Proof.
  split; [reflexivity|]. split.
  - apply (proj1 round_trip_of_plain_rows (hd [] sample_rows)
                 (tl sample_rows)).
    + exact sample_keys_distinct.
    + reflexivity.
    + discriminate.
    + discriminate.
    + repeat constructor; try discriminate; vm_compute; reflexivity.
    + repeat constructor; try discriminate; vm_compute; reflexivity.
  - etransitivity;
      [apply (proj1 (proj2 round_trip_of_plain_rows) (hd [] padded_rows)
                    (tl padded_rows))|].
    + exact padded_keys_distinct.
    + reflexivity.
    + discriminate.
    + discriminate.
    + repeat constructor; try discriminate; vm_compute; reflexivity.
    + repeat constructor; try discriminate; vm_compute; reflexivity.
    + reflexivity.
Defined.

(** A value with a line feed is quoted by the encoder and cut in two by
    the reader, which splits the text into lines first: here both halves
    have the right number of fields, and one row comes back as two. *)
Lemma line_feed_cuts_a_row :
  encode_string line_feed_value
  = [QUOTE] ++ lit "x" ++ [NEWLINE] ++ lit "y" ++ [QUOTE]
  /\ parseCSV (arrayToCSV (map to_cells [[(lit "a", line_feed_value)]]))
     = Return ([[(lit "a", lit "x")]; [(lit "a", lit "y")]], []).
Proof. split; reflexivity. Qed.

(** C2, as stated, fails: no value of the row holds a comma, a double
    quote or a line feed, and decoding the encoded text gives a row whose
    first value has lost its leading space. *)
Lemma leading_space_is_lost :
  forallb (fun v => negb (needs_quoting v))
          (concat (map (@values_of jsstring) padded_rows)) = true
  /\ parseCSV (arrayToCSV (map to_cells padded_rows))
     = Return (padded_rows_read, [])
  /\ padded_rows_read <> padded_rows.
Proof. split; [reflexivity|]. split; [reflexivity | discriminate]. Qed.

(** ** The write path *)

Lemma needs_quoting_spec (s : jsstring) : needs_quoting s = spec_must_quote s.
Proof.
  unfold needs_quoting, spec_must_quote, includes.
  induction s as [|c s IH]; [reflexivity|].
  simpl. rewrite <- IH.
  rewrite (char_eqb_sym COMMA c), (char_eqb_sym QUOTE c),
    (char_eqb_sym NEWLINE c).
  destruct (char_eqb c COMMA), (char_eqb c QUOTE), (char_eqb c NEWLINE),
    (existsb (char_eqb COMMA) s), (existsb (char_eqb QUOTE) s),
    (existsb (char_eqb NEWLINE) s); reflexivity.
Qed.

Lemma encode_string_spec (s : jsstring) : encode_string s = spec_field s.
Proof.
  unfold encode_string, spec_field. rewrite needs_quoting_spec. reflexivity.
Qed.

Lemma encode_cell_of_strings (r : Importer.row) (column : jsstring) :
  In column (keys r) ->
  encode_cell (to_cells r) column = spec_field (cell_text r column).
Proof.
  intros Hin. destruct (In_keys_get r column Hin) as [v Hv].
  rewrite (encode_cell_own r column Hv). unfold cell_text. rewrite Hv.
  apply encode_string_spec.
Qed.

(** A cell that is not a string is written unquoted, whatever its text
    holds, and as the empty text when it is falsy ([0], [false], [null]). *)
Lemma encode_cell_not_a_string (r : Exporter.row) (h : jsstring)
      (b : bool) (t : jsstring) :
  get r h = Some (VOther b t) -> encode_cell r h = if b then t else [].
Proof.
  intros Hget. unfold encode_cell, cell_or_empty. rewrite Hget.
  destruct b; reflexivity.
Qed.

(** What the encoder writes under a column is the field of the value the
    row has there, for every row and every column. *)
Lemma encode_cell_spec (r : Exporter.row) (column : jsstring) :
  encode_cell r column = spec_cell (column_value r column).
Proof.
  unfold encode_cell, cell_or_empty, column_value, spec_cell.
  destruct (get r column) as [[s | [] t]|].
  - apply encode_string_spec.
  - reflexivity.
  - reflexivity.
  - destruct (inherited column); reflexivity.
Qed.

Lemma spec_cell_scalar (v : option cell) :
  scalar_value v -> spec_cell v = spec_field (value_text v).
Proof.
  destruct v as [[s | [] t]|]; simpl; intros H; try reflexivity.
  unfold spec_field. rewrite H. reflexivity.
Qed.

(** The text of every inherited member holds no comma, double quote or
    line feed. *)
Lemma inherited_scalar (column text : jsstring) :
  inherited column = Some text -> spec_must_quote text = false.
Proof.
  unfold inherited. intros H. apply get_In in H.
  assert (Hall : Forall (fun kv : jsstring * jsstring =>
                           spec_must_quote (snd kv) = false)
                        OBJECT_PROTOTYPE)
    by (repeat constructor).
  rewrite Forall_forall in Hall. exact (Hall _ H).
Qed.

Lemma absent_value_scalar (r : Exporter.row) (column : jsstring) :
  get r column = None -> scalar_value (column_value r column).
Proof.
  intros H. unfold column_value. rewrite H.
  destruct (inherited column) as [text|] eqn:E; simpl; [|exact I].
  exact (inherited_scalar _ E).
Qed.

(** C4 (as amended).  For every non-empty sequence of rows, whatever
    their values and their columns, the ordered column list being the keys
    of the first row, the encoder writes what the specification
    describes: the comma-joined column names, then one comma-joined line
    per row with one field per column, the lines joined by single line
    feeds.  The field of a string is the string wrapped in double quotes,
    its double quotes doubled, if and only if it contains a comma, a
    double quote or a line feed, and the string itself otherwise; the
    field of a value that is not a string is its text, and that of an
    absent or falsy value is empty.  So for strings, numbers and booleans
    the field is the text of the value under the quoting rule, and no line
    carries a trailing delimiter: the line reader finds exactly one field
    per column.  For the empty sequence the encoder writes the empty
    text, without a header line. *)
Theorem write_path_quoting_rule (first : Exporter.row)
        (rest : list Exporter.row) :
  let rows := first :: rest in
  let columns := keys first in
  arrayToCSV rows = encode_spec columns rows
  /\ (forall s, (encode_string s = spec_quoted s <-> needs_quoting s = true)
                /\ (needs_quoting s = false -> encode_string s = s)
                /\ needs_quoting s
                   = includes COMMA s || includes QUOTE s || includes NEWLINE s)
  /\ (forall v, scalar_value v -> spec_cell v = spec_field (value_text v))
  /\ (forall (r : Exporter.row) column,
         get r column = None -> scalar_value (column_value r column))
  /\ (columns <> [] ->
      forall r, In r rows ->
                Forall (fun c => scalar_value (column_value r c)) columns ->
                length (parseCSVLine
                          (join [COMMA] (map (encode_cell r) columns)))
                = length columns)
  /\ arrayToCSV [] = [].
Proof.
  intros rows columns.
  split; [|split; [|split; [|split; [|split]]]].
  - unfold rows, columns, encode_spec, arrayToCSV.
    f_equal. f_equal. apply map_ext. intros r.
    f_equal. apply map_ext. intros c. apply encode_cell_spec.
  - intros s. split; [split|split; [|reflexivity]].
    + intros E. destruct (needs_quoting s) eqn:En; [reflexivity|].
      unfold encode_string in E. rewrite En in E.
      assert (Hq : In QUOTE s) by (rewrite E; left; reflexivity).
      unfold needs_quoting in En.
      apply orb_false_iff in En. destruct En as [En _].
      apply orb_false_iff in En. destruct En as [_ En].
      apply includes_false_In in En. contradiction.
    + intros En. unfold encode_string. rewrite En. reflexivity.
    + intros En. unfold encode_string. rewrite En. reflexivity.
  - apply spec_cell_scalar.
  - apply absent_value_scalar.
  - intros Hne r _ Hscalar.
    replace (map (encode_cell r) columns)
      with (map encode_string
                (map (fun c => value_text (column_value r c)) columns)).
    + rewrite parseCSVLine_encoded, !length_map; [reflexivity|].
      intros E. apply Hne. destruct columns; [reflexivity | discriminate].
    + rewrite map_map. apply map_ext_in. intros c Hc.
      rewrite Forall_forall in Hscalar.
      rewrite encode_cell_spec, (spec_cell_scalar _ (Hscalar c Hc)).
      apply encode_string_spec.
  - reflexivity.
Qed.

(** The text of the two sample rows; that of two records of a real
    export, with a number, a boolean and cells that are not defined; and
    that of two records that do not have the same columns. *)
Lemma write_path_quoting_rule_witness :
  arrayToCSV (map to_cells sample_rows)
  = lit "variant_id,variant_title,metafield_custom_note" ++ [NEWLINE]
    ++ lit "gid://shopify/ProductVariant/1,Small / Black frame,"
    ++ [QUOTE] ++ lit "a," ++ [QUOTE; QUOTE] ++ lit "b" ++ [QUOTE; QUOTE; QUOTE]
    ++ [NEWLINE]
    ++ lit "gid://shopify/ProductVariant/2,Large,"
  /\ arrayToCSV irregular_records
     = lit "a,b" ++ [NEWLINE]
       ++ [QUOTE] ++ lit "x,y" ++ [QUOTE] ++ lit ",5" ++ [NEWLINE]
       ++ lit ",q"
  /\ arrayToCSV (allVariants
                   (allMetafieldKeys
                      (getVariantMetafieldDefinitions
                         false (Some sample_definitions)))
                   [sample_product])
     = EXPORTED_SAMPLE.
Proof.
  split; [|split].
  - etransitivity;
      [exact (proj1 (write_path_quoting_rule
                       (to_cells (hd [] sample_rows))
                       (map to_cells (tl sample_rows))))|].
    vm_compute. reflexivity.
  - etransitivity;
      [exact (proj1 (write_path_quoting_rule
                       (hd [] irregular_records) (tl irregular_records)))|].
    vm_compute. reflexivity.
  - etransitivity;
      [exact (proj1 (write_path_quoting_rule
                       (variant_record
                          (allMetafieldKeys
                             (getVariantMetafieldDefinitions
                                false (Some sample_definitions)))
                          sample_product
                          (sample_variant "gid://shopify/ProductVariant/1"
                                          [custom_popular; secret_note]))
                       [variant_record
                          (allMetafieldKeys
                             (getVariantMetafieldDefinitions
                                false (Some sample_definitions)))
                          sample_product
                          (sample_variant "gid://shopify/ProductVariant/2"
                                          [])]))|].
    vm_compute. reflexivity.
Defined.

(** C4, as stated, fails: for the column list of one column and the empty
    row sequence the specification has the header line, and the encoder,
    which takes the columns from the first row, writes the empty text. *)
Lemma no_rows_no_header :
  encode_spec [VARIANT_ID] [] = VARIANT_ID
  /\ arrayToCSV (map to_cells []) = []
  /\ arrayToCSV (map to_cells []) <> encode_spec [VARIANT_ID] [].
Proof. split; [reflexivity|]. split; [reflexivity | discriminate]. Qed.

(** ** Dry run and live run *)

Section LiveStages.

Variable World : Type.
Variable endpoint : Request -> World -> Response * World.

(** The requests of a live row and the state they leave: the lookup, and
    the mutation exactly when the lookup's reply names a product. *)
Lemma update_live_stage (config : Config) (variant : Importer.row)
      (net : Net World) :
  dryRun config = false ->
  would_update variant = true ->
  snd (updateVariantMetafields endpoint config (get variant VARIANT_ID)
                               (extractMetafields variant) net)
  = {| world := snd (stage_requests endpoint variant (world net));
       trace := trace net
                ++ fst (stage_requests endpoint variant (world net)) |}.
Proof.
  intros Hlive Hupd. apply would_update_iff in Hupd.
  apply length_eqb_0 in Hupd.
  unfold updateVariantMetafields. rewrite Hupd, Hlive.
  unfold getProductIdFromVariantId, bind, makeGraphQLRequest, stage_requests,
    lookup_of, product_of.
  destruct (endpoint (GetVariant (get variant VARIANT_ID)) (world net))
    as [reply w1].
  destruct reply as [message | data]; [reflexivity|].
  destruct (productVariant_product_id data) as [message | [[|c productId]|]];
    try reflexivity.
  unfold mutation_of, ret. cbv beta iota zeta. cbn [world trace].
  destruct (endpoint
              (ProductVariantsBulkUpdate
                 (c :: productId) (get variant VARIANT_ID)
                 (mutation_metafields (extractMetafields variant))) w1)
    as [response w2].
  simpl snd. simpl fst.
  assert (Htrace : (trace net ++ [GetVariant (get variant VARIANT_ID)])
                   ++ [ProductVariantsBulkUpdate
                         (c :: productId) (get variant VARIANT_ID)
                         (mutation_metafields (extractMetafields variant))]
                   = trace net
                     ++ [GetVariant (get variant VARIANT_ID);
                         ProductVariantsBulkUpdate
                           (c :: productId) (get variant VARIANT_ID)
                           (mutation_metafields (extractMetafields variant))])
    by (rewrite <- app_assoc; reflexivity).
  rewrite <- Htrace.
  destruct response as [message | data2]; [reflexivity|].
  destruct (productVariantsBulkUpdate_userErrors data2) as [message | errors];
    [reflexivity|].
  destruct (0 <? userErrors_length errors); reflexivity.
Qed.

(** The requests of a live batch are the stages of its rows with
    something to write, in row order, each from the state the one before
    left. *)
Lemma batch_live_stages (config : Config) (variants : list Importer.row) :
  dryRun config = false ->
  forall net : Net World,
    snd (processBatch endpoint config variants net)
    = {| world := snd (live_requests endpoint variants (world net));
         trace := trace net
                  ++ fst (live_requests endpoint variants (world net)) |}.
Proof.
  intros Hlive. induction variants as [|v vs IH]; intros net.
  - rewrite processBatch_nil. destruct net as [w tr]. simpl.
    rewrite app_nil_r. reflexivity.
  - rewrite processBatch_cons, process_variant_alone. simpl live_requests.
    destruct (would_update v) eqn:Ev.
    + pose proof (@update_live_stage config v net Hlive Ev) as Hstage.
      destruct (updateVariantMetafields endpoint config (get v VARIANT_ID)
                                        (extractMetafields v) net)
        as [rs net1].
      simpl snd in Hstage. subst net1.
      specialize (IH {| world := snd (stage_requests endpoint v (world net));
                        trace := trace net
                                 ++ fst (stage_requests endpoint v
                                                        (world net)) |}).
      destruct (processBatch endpoint config vs _) as [r2 net2].
      simpl snd in IH. simpl snd. rewrite IH. simpl world. simpl trace.
      destruct (stage_requests endpoint v (world net)) as [requests w1].
      simpl fst. simpl snd.
      destruct (live_requests endpoint vs w1) as [more w2].
      simpl. rewrite <- app_assoc. reflexivity.
    + specialize (IH net).
      destruct (processBatch endpoint config vs net) as [r2 net2].
      exact IH.
Qed.

End LiveStages.

(** C3 (as amended).  For every row set, endpoint and starting state, the
    dry run and the live run make the same extraction and skip decisions:
    the same rows are skipped, and the detail lists name the same rows, in
    the same order, with the same extracted metafields.  The dry run
    issues no request and leaves the remote state alone, and reports every
    row that is not skipped as a success.  The live run adds, for every row
    that is not skipped and in row order, the network stage of the row:
    the lookup of the product, followed, exactly when the reply to the
    lookup names a product, by the mutation under that product; each
    stage starts from the remote state the one before left.  The two
    modes differ in that whole stage. *)
Theorem dry_run_previews_extraction (World : Type)
        (endpoint : Request -> World -> Response * World) (size : nat)
        (variants : list Importer.row) (net : Net World) :
  let dry_run := processBatch endpoint (dry size) variants net in
  let live_run := processBatch endpoint (live size) variants net in
  skipped (fst dry_run) = skipped (fst live_run)
  /\ map entry_payload (details (fst dry_run))
     = map row_payload (filter would_update variants)
  /\ map entry_payload (details (fst live_run))
     = map row_payload (filter would_update variants)
  /\ snd dry_run = net
  /\ success (fst dry_run) = length (filter would_update variants)
  /\ failed (fst dry_run) = 0
  /\ (exists stages,
         Forall2 network_stage (filter would_update variants) stages
         /\ trace (snd live_run) = trace net ++ concat stages)
  /\ snd live_run
     = {| world := snd (live_requests endpoint variants (world net));
          trace := trace net
                   ++ fst (live_requests endpoint variants (world net)) |}.
Proof.
  intros dry_run live_run.
  destruct (batch_classification endpoint (dry size) variants net)
    as [Hds [Hdc Hdd]].
  destruct (batch_classification endpoint (live size) variants net)
    as [Hls [Hlc Hld]].
  destruct (@batch_dry _ endpoint (dry size) variants eq_refl net)
    as [Hnet Hfailed].
  fold dry_run in Hds, Hdc, Hdd, Hnet, Hfailed.
  fold live_run in Hls, Hlc, Hld.
  repeat split; try assumption.
  - rewrite Hds, Hls. reflexivity.
  - lia.
  - apply (@batch_live_requests _ endpoint (live size) variants eq_refl net).
  - apply (@batch_live_stages _ endpoint (live size) variants eq_refl net).
Qed.

(** Five rows, the third with nothing to write: both modes skip it and
    list the four others; the dry run sends nothing, the live run sends a
    lookup and a mutation for each of the four. *)
Lemma dry_run_previews_extraction_witness :
  let rows := [variant_row "v1" "One"; variant_row "v2" "Two";
               untouched_row "v3" "Three";
               variant_row "v4" "Four"; variant_row "v5" "Five"] in
  let dry_run := processBatch (shop None) (dry 10) rows fresh in
  let live_run := processBatch (shop None) (live 10) rows fresh in
  skipped (fst dry_run) = 1 /\ skipped (fst live_run) = 1
  /\ map entry_payload (details (fst dry_run))
     = map entry_payload (details (fst live_run))
  /\ snd dry_run = fresh
  /\ map is_mutation (trace (snd live_run))
     = [false; true; false; true; false; true; false; true].
Proof.
  intros rows dry_run live_run.
  destruct (dry_run_previews_extraction (shop None) 10 rows fresh)
    as [Hs [Hd [Hl [Hnet _]]]].
  fold dry_run in Hs, Hd, Hnet. fold live_run in Hs, Hl.
  split; [reflexivity|]. split; [reflexivity|].
  split; [rewrite Hd, Hl; reflexivity|].
  split; [exact Hnet | reflexivity].
Defined.

(** C3, as stated, fails: against a shop that knows no variant the live
    run differs from the dry run (a failure instead of a success, one
    request instead of none) although it never reaches the mutation call:
    the request it sent is the lookup. *)
Lemma failed_lookup_differs_without_mutation :
  let dry_run :=
    processBatch empty_shop (dry 10) [variant_row "v1" "One"] fresh in
  let live_run :=
    processBatch empty_shop (live 10) [variant_row "v1" "One"] fresh in
  success (fst dry_run) = 1 /\ failed (fst dry_run) = 0
  /\ trace (snd dry_run) = []
  /\ success (fst live_run) = 0 /\ failed (fst live_run) = 1
  /\ trace (snd live_run) = [GetVariant (Some (lit "v1"))]
  /\ existsb is_mutation (trace (snd live_run)) = false.
Proof. vm_compute. repeat split. Qed.

(** ** A row that fails *)

Section Isolation.

Variable World : Type.
Variable endpoint : Request -> World -> Response * World.
Variable config : Config.
Hypothesis Hlive : dryRun config = false.

Lemma lookup_found (variantId : option jsstring) (net : Net World)
      (data : Data) (productId : jsstring) (w : World) :
  endpoint (GetVariant variantId) (world net) = (Resolve data, w) ->
  productVariant_product_id data = Yields (Some productId) ->
  getProductIdFromVariantId endpoint variantId net
  = (Some productId,
     {| world := w; trace := trace net ++ [GetVariant variantId] |}).
Proof.
  intros Hreply Hid.
  unfold getProductIdFromVariantId, bind, makeGraphQLRequest.
  rewrite Hreply, Hid. reflexivity.
Qed.

(** A row whose mutation fails is one failure, with the error text on
    every metafield result. *)
Lemma row_fails (variant : Importer.row) (net net1 : Net World)
      (productId : jsstring) (response : Response) (w2 : World)
      (message : jsstring) :
  would_update variant = true ->
  getProductIdFromVariantId endpoint (get variant VARIANT_ID) net
  = (Some productId, net1) ->
  productId <> [] ->
  endpoint (mutation_of productId variant) (world net1) = (response, w2) ->
  mutation_error response = Some message ->
  process_variant endpoint config no_results variant net
  = (failed_one (entry_of variant
                          (all_failed (extractMetafields variant) message)),
     {| world := w2;
        trace := trace net1 ++ [mutation_of productId variant] |}).
Proof.
  intros Hupd Hlookup Hpid Hreply Herr.
  rewrite process_variant_alone, Hupd.
  apply would_update_iff in Hupd.
  rewrite (@update_mutation_fails
             World endpoint config (get variant VARIANT_ID)
             (extractMetafields variant) net net1 productId response w2
             message Hlive Hupd Hlookup Hpid Hreply Herr).
  rewrite forallb_all_failed by exact Hupd. reflexivity.
Qed.

(** A row whose mutation is accepted is one success. *)
Lemma row_succeeds (variant : Importer.row) (net net1 : Net World)
      (productId : jsstring) (data : Data) (w2 : World) :
  would_update variant = true ->
  getProductIdFromVariantId endpoint (get variant VARIANT_ID) net
  = (Some productId, net1) ->
  productId <> [] ->
  endpoint (mutation_of productId variant) (world net1) = (Resolve data, w2) ->
  mutation_error (Resolve data) = None ->
  process_variant endpoint config no_results variant net
  = (succeeded_one
       (entry_of variant
                 (map (fun metafield => UpdatedResult metafield data)
                      (extractMetafields variant))),
     {| world := w2;
        trace := trace net1 ++ [mutation_of productId variant] |}).
Proof.
  intros Hupd Hlookup Hpid Hreply Herr.
  rewrite process_variant_alone, Hupd.
  apply would_update_iff in Hupd.
  rewrite (@update_mutation_accepted
             World endpoint config (get variant VARIANT_ID)
             (extractMetafields variant) net net1 productId data w2
             Hlive Hupd Hlookup Hpid Hreply Herr).
  rewrite forallb_updated. reflexivity.
Qed.

(** Rows that the endpoint accepts or rejects whatever its state: the
    accepted ones succeed, the rejected ones fail, and the mutation of
    every one of them is sent. *)
Lemma batch_by_fate (tagged : list (Importer.row * bool)) :
  Forall (fun vb : Importer.row * bool =>
            would_update (fst vb) = true
            /\ if snd vb then accepts endpoint (fst vb)
               else rejects endpoint (fst vb)) tagged ->
  forall net : Net World,
    let run := processBatch endpoint config (map fst tagged) net in
    success (fst run) = length (filter snd tagged)
    /\ failed (fst run) = length (filter (fun vb => negb (snd vb)) tagged)
    /\ skipped (fst run) = 0
    /\ Forall (fun vb => attempted (fst vb) (trace (snd run))) tagged
    /\ exists more, trace (snd run) = trace net ++ more.
Proof.
  induction 1 as [|[v ok] tagged [Hupd Hfate] _ IH]; intros net.
  - simpl. repeat split; [constructor | exists []; symmetry; apply app_nil_r].
  - simpl fst in Hupd, Hfate. simpl snd in Hfate.
    cbv zeta. simpl map. rewrite processBatch_cons.
    assert (Hrow : exists r1 productId w2 (net1 : Net World),
               process_variant endpoint config no_results v net
               = (r1, {| world := w2;
                         trace := trace net1 ++ [mutation_of productId v] |})
               /\ trace net1 = trace net ++ [lookup_of v]
               /\ success r1 = (if ok then 1 else 0)
               /\ failed r1 = (if ok then 0 else 1)
               /\ skipped r1 = 0).
    { destruct ok.
      - destruct Hfate as [Hfind Hmut].
        destruct (Hfind (world net)) as [data [pid [w1 [Hreply [Hid Hpid]]]]].
        pose proof (@lookup_found _ net data pid w1 Hreply Hid) as Hlookup.
        destruct (Hmut w1 pid) as [data2 [w2 [Hreply2 Herr]]].
        eexists _, pid, w2, _. split.
        + apply (@row_succeeds v net _ pid data2 w2 Hupd Hlookup Hpid
                               Hreply2 Herr).
        + repeat split.
      - destruct Hfate as [Hfind Hmut].
        destruct (Hfind (world net)) as [data [pid [w1 [Hreply [Hid Hpid]]]]].
        pose proof (@lookup_found _ net data pid w1 Hreply Hid) as Hlookup.
        destruct (Hmut w1 pid) as [response [w2 [message [Hreply2 Herr]]]].
        eexists _, pid, w2, _. split.
        + apply (@row_fails v net _ pid response w2 message Hupd Hlookup
                            Hpid Hreply2 Herr).
        + repeat split. }
    destruct Hrow as [r1 [pid [w2 [net1 [Hrow [Htr1 [Hs1 [Hf1 Hk1]]]]]]]].
    rewrite Hrow.
    specialize (IH {| world := w2;
                      trace := trace net1 ++ [mutation_of pid v] |}).
    cbv zeta in IH.
    destruct (processBatch endpoint config (map fst tagged) _) as [r2 net2].
    simpl in IH. destruct IH as [Hs [Hf [Hk [Hall [more Hmore]]]]].
    simpl fst. simpl snd. simpl filter.
    repeat split.
    + simpl. rewrite Hs1, Hs. destruct ok; reflexivity.
    + simpl. rewrite Hf1, Hf. destruct ok; reflexivity.
    + simpl. rewrite Hk1, Hk. reflexivity.
    + constructor; [|exact Hall].
      exists pid. rewrite Hmore. apply in_or_app. left.
      apply in_or_app. right. left. reflexivity.
    + exists ([lookup_of v; mutation_of pid v] ++ more).
      rewrite Hmore, Htr1, <- !app_assoc. reflexivity.
Qed.

End Isolation.

(** C1.  In a live run, a row whose mutation fails -- the promise is
    rejected, at the transport layer or by the API, or the payload reports
    [userErrors] -- is recorded as one failure, whose detail entry names
    the variant and holds, for each of its metafields, a failure with the
    captured error text, and the rows after it are
    processed as they would be from the state that request left: the
    aggregate is that of the rows before, plus this failure, plus that of
    the rows after.  In particular, for a batch of five rows with
    something to write where the endpoint rejects the mutation of the
    third and accepts the others, the aggregate has [success = 4] and
    [failed = 1], and the mutations of the fourth and fifth rows are
    sent. *)
Theorem partial_failure_isolation :
  (forall World (endpoint : Request -> World -> Response * World) config
          front variant back (net net0 net1 : Net World) r_front
          productId response w2 message,
      dryRun config = false ->
      would_update variant = true ->
      processBatch endpoint config front net = (r_front, net0) ->
      getProductIdFromVariantId endpoint (get variant VARIANT_ID) net0
      = (Some productId, net1) ->
      productId <> [] ->
      endpoint (mutation_of productId variant) (world net1) = (response, w2) ->
      mutation_error response = Some message ->
      processBatch endpoint config (front ++ variant :: back) net
      = let (r_back, net3) :=
          processBatch endpoint config back
            {| world := w2;
               trace := trace net1 ++ [mutation_of productId variant] |} in
        (add_results
           (add_results r_front
              (failed_one
                 (entry_of variant
                    (each_failed_with message (extractMetafields variant)))))
           r_back,
         net3))
  /\ (forall World (endpoint : Request -> World -> Response * World) size
             r1 r2 r3 r4 r5 (net : Net World),
         Forall (fun v => would_update v = true) [r1; r2; r3; r4; r5] ->
         Forall (accepts endpoint) [r1; r2; r4; r5] ->
         rejects endpoint r3 ->
         let run :=
           processBatch endpoint (live size) [r1; r2; r3; r4; r5] net in
         success (fst run) = 4 /\ failed (fst run) = 1
         /\ skipped (fst run) = 0
         /\ attempted r4 (trace (snd run))
         /\ attempted r5 (trace (snd run))).
Proof.
  split.
  - intros World endpoint config front variant back net net0 net1 r_front
           productId response w2 message
           Hlive Hupd Hfront Hlookup Hpid Hreply Herr.
    rewrite processBatch_app, Hfront, processBatch_cons.
    rewrite (@row_fails World endpoint config Hlive variant net0 net1
                        productId response w2 message
                        Hupd Hlookup Hpid Hreply Herr).
    destruct (processBatch endpoint config back _) as [r_back net3].
    rewrite add_results_assoc. reflexivity.
  - intros World endpoint size r1 r2 r3 r4 r5 net Hupd Hacc Hrej run.
    inversion Hupd as [|? ? U1 Hupd2]; subst.
    inversion Hupd2 as [|? ? U2 Hupd3]; subst.
    inversion Hupd3 as [|? ? U3 Hupd4]; subst.
    inversion Hupd4 as [|? ? U4 Hupd5]; subst.
    inversion Hupd5 as [|? ? U5 _]; subst.
    inversion Hacc as [|? ? A1 Hacc2]; subst.
    inversion Hacc2 as [|? ? A2 Hacc4]; subst.
    inversion Hacc4 as [|? ? A4 Hacc5]; subst.
    inversion Hacc5 as [|? ? A5 _]; subst.
    destruct (@batch_by_fate World endpoint (live size) eq_refl
                [(r1, true); (r2, true); (r3, false); (r4, true); (r5, true)])
      with (net := net) as [Hs [Hf [Hk [Hall _]]]].
    { repeat (apply Forall_cons; [simpl; split; assumption|]).
      apply Forall_nil. }
    fold run in Hs, Hf, Hk, Hall.
    split; [exact Hs|]. split; [exact Hf|]. split; [exact Hk|].
    inversion Hall as [|? ? _ Hall2]; subst.
    inversion Hall2 as [|? ? _ Hall3]; subst.
    inversion Hall3 as [|? ? _ Hall4]; subst.
    inversion Hall4 as [|? ? T4 Hall5]; subst.
    inversion Hall5 as [|? ? T5 _]; subst.
    split; [exact T4 | exact T5].
Qed.

Lemma shop_finds_product (refused : option jsstring) (variant : Importer.row) :
  finds_product (shop refused) variant.
Proof.
  intros w. eexists _, _, _. split; [reflexivity|].
  split; [reflexivity | discriminate].
Qed.

Lemma shop_accepts (refused : option jsstring) (variant : Importer.row) :
  same_id (get variant VARIANT_ID) refused = false ->
  accepts (shop refused) variant.
Proof.
  intros Hid. split; [apply shop_finds_product|].
  intros w productId. eexists _, _. simpl. rewrite Hid.
  split; reflexivity.
Qed.

Lemma shop_rejects (refused : option jsstring) (variant : Importer.row) :
  same_id (get variant VARIANT_ID) refused = true ->
  rejects (shop refused) variant.
Proof.
  intros Hid. split; [apply shop_finds_product|].
  intros w productId. eexists _, _, _. simpl. rewrite Hid.
  split; reflexivity.
Qed.

(** The five variants against the shop that rejects the mutations of
    [v3]: four successes, one failure with the text of the rejection, and
    the mutations of [v4] and [v5] are sent. *)
Lemma partial_failure_isolation_witness :
  let run :=
    processBatch (shop (Some (lit "v3"))) (live 10) five_rows fresh in
  (success (fst run) = 4 /\ failed (fst run) = 1 /\ skipped (fst run) = 0
   /\ attempted (variant_row "v4" "Four") (trace (snd run))
   /\ attempted (variant_row "v5" "Five") (trace (snd run)))
  /\ In {| variantId := Some (lit "v3");
           variantTitle := Some (lit "Three");
           metafieldResults :=
             [ FailedResult
                 {| namespace := lit "custom"; key := lit "popular";
                    value := lit "true";
                    type := lit "single_line_text_field" |}
                 (lit "Throttled") ] |}
        (details (fst run)).
Proof.
  intros run. split.
  - apply (proj2 partial_failure_isolation nat (shop (Some (lit "v3"))) 10
                 (variant_row "v1" "One") (variant_row "v2" "Two")
                 (variant_row "v3" "Three") (variant_row "v4" "Four")
                 (variant_row "v5" "Five") fresh).
    + repeat constructor.
    + repeat constructor; apply shop_accepts; reflexivity.
    + apply shop_rejects. reflexivity.
  - unfold run.
    change five_rows
      with ([variant_row "v1" "One"; variant_row "v2" "Two"]
            ++ variant_row "v3" "Three"
            :: [variant_row "v4" "Four"; variant_row "v5" "Five"]).
    erewrite (proj1 partial_failure_isolation);
      [ | reflexivity | reflexivity | reflexivity | reflexivity
        | discriminate | reflexivity | reflexivity ].
    simpl. right. right. left. reflexivity.
Defined.

(* ================================================================== *)
(** * Further properties of the importer *)
(* ================================================================== *)

(** ** What an extracted entry looks like *)

(** The first part of a split holds no separator. *)
Lemma split_head_no_sep (c : char) (s p : jsstring) (rest : list jsstring) :
  split c s = p :: rest -> includes c p = false.
Proof.
  revert p rest. induction s as [|x s IH]; intros p rest H.
  - simpl in H. inversion H. reflexivity.
  - simpl in H. destruct (char_eqb x c) eqn:E.
    + inversion H. reflexivity.
    + destruct (split c s) as [|q qs] eqn:Es.
      * inversion H. unfold includes. simpl.
        rewrite char_eqb_sym, E. reflexivity.
      * inversion H. subst. unfold includes. simpl.
        rewrite char_eqb_sym, E. eapply IH. reflexivity.
Qed.

Lemma extract_column_namespace (r : Importer.row) (k : jsstring)
      (mf : Metafield) :
  In mf (extract_column r k) -> includes UNDERSCORE (namespace mf) = false.
Proof.
  unfold extract_column. destruct (get r k) as [v|]; [|intros []].
  destruct (startsWith METAFIELD_PREFIX k && truthy v); [|intros []].
  destruct (column_parts k) as [|ns [|q rest]] eqn:Hparts;
    [intros [] | intros [] |].
  intros [<- | []]. simpl.
  unfold column_parts in Hparts. apply (split_head_no_sep _ _ Hparts).
Qed.

Lemma extracted_entry_shape (r : Importer.row) (mf : Metafield) :
  In mf (extractMetafields r) ->
  includes UNDERSCORE (namespace mf) = false
  /\ type mf = SINGLE_LINE_TEXT_FIELD.
Proof.
  intros Hin. apply in_extractMetafields in Hin. destruct Hin as [k [_ Hmf]].
  split.
  - apply (extract_column_namespace _ _ _ Hmf).
  - apply (extract_column_inv _ _ _ Hmf).
Qed.

Lemma mutation_metafields_fixed (metafields : list Metafield) :
  Forall (fun mf => type mf = SINGLE_LINE_TEXT_FIELD) metafields ->
  mutation_metafields metafields = metafields.
Proof.
  induction 1 as [|mf mfs Hmf _ IH]; [reflexivity|].
  simpl. rewrite IH. f_equal. destruct mf as [ns k v t]. simpl in *.
  subst t. reflexivity.
Qed.

(** X1.  Whatever the row, an extracted entry has a namespace without
    underscore and the type [single_line_text_field], and the mutation
    sends the extracted entries as they are.  So along a whole import run,
    whatever the file, the mode, the batch size and the replies, no
    mutation writes into a namespace that holds an underscore or with
    another type. *)
Theorem import_writes_plain_text_only :
  (forall (r : Importer.row),
      Forall (fun mf => includes UNDERSCORE (namespace mf) = false
                        /\ type mf = SINGLE_LINE_TEXT_FIELD)
             (extractMetafields r)
      /\ mutation_metafields (extractMetafields r) = extractMetafields r)
  /\ (forall World (endpoint : Request -> World -> Response * World)
             fuel config csvContent (net : Net World),
         Forall writes_plain_text_only (trace net) ->
         Forall writes_plain_text_only
                (trace (snd (importVariants endpoint fuel config
                                            csvContent net)))).
Proof.
  assert (Hshape : forall r : Importer.row,
             Forall (fun mf => includes UNDERSCORE (namespace mf) = false
                               /\ type mf = SINGLE_LINE_TEXT_FIELD)
                    (extractMetafields r)).
  { intros r. apply Forall_forall. intros mf Hin.
    apply (extracted_entry_shape _ _ Hin). }
  assert (Hfixed : forall r : Importer.row,
             mutation_metafields (extractMetafields r) = extractMetafields r).
  { intros r. apply mutation_metafields_fixed.
    eapply Forall_impl; [|apply (Hshape r)]. intros mf [_ Ht]. exact Ht. }
  split; [intros r; split; [apply Hshape | apply Hfixed]|].
  intros World endpoint fuel config csvContent net Hnet.
  unfold importVariants.
  destruct (parseCSV csvContent) as [[variants warnings] | message];
    [|exact Hnet].
  unfold bind.
  assert (Hmut : forall productId v,
             writes_plain_text_only (mutation_of productId v)).
  { intros productId v. unfold mutation_of, writes_plain_text_only.
    rewrite Hfixed. apply Hshape. }
  pose proof (@import_loop_trace_invariant
                _ endpoint writes_plain_text_only config variants
                (fun _ => I) Hmut fuel 0 no_results net Hnet) as Hloop.
  destruct (import_loop endpoint fuel config variants 0 no_results net)
    as [[total|] net']; exact Hloop.
Qed.

(** A run on the file whose first data line has a populated metafield
    column: the only mutation sent writes [custom.popular] as
    [single_line_text_field]. *)
Lemma import_writes_plain_text_only_witness :
  Forall writes_plain_text_only
         (trace (snd (importVariants (shop None) 5 (live 2) ragged_file fresh)))
  /\ length (filter is_mutation
               (trace (snd (importVariants (shop None) 5 (live 2)
                                           ragged_file fresh)))) = 1.
Proof.
  split.
  - apply (proj2 import_writes_plain_text_only). constructor.
  - vm_compute. reflexivity.
Defined.

(** ** All or nothing, row by row *)

Section RowOutcome.

Variable World : Type.
Variable endpoint : Request -> World -> Response * World.

Lemma update_uniform (config : Config) (variantId : option jsstring)
      (metafields : list Metafield) (net : Net World) :
  uniform_results metafields
    (fst (updateVariantMetafields endpoint config variantId metafields net)).
Proof.
  assert (Hfail : forall m, uniform_results metafields (all_failed metafields m)).
  { intros m. right. right. exists m. reflexivity. }
  unfold updateVariantMetafields.
  destruct (length metafields =? 0) eqn:E.
  - destruct metafields; [left; reflexivity | discriminate].
  - destruct (dryRun config); [left; reflexivity|].
    unfold bind.
    destruct (getProductIdFromVariantId endpoint variantId net)
      as [[[|c pid]|] net1]; try (simpl; apply Hfail).
    unfold makeGraphQLRequest.
    destruct (endpoint _ (world net1)) as [[m | data] w]; [apply Hfail|].
    destruct (productVariantsBulkUpdate_userErrors data) as [m | errors];
      [apply Hfail|].
    destruct (0 <? userErrors_length errors); [apply Hfail|].
    right. left. exists data. reflexivity.
Qed.

Lemma no_failure_of_successes (results : list MetafieldResult) :
  forallb result_success results = true ->
  length (filter (fun r => negb (result_success r)) results) = 0.
Proof.
  induction results as [|r rs IH]; simpl; [reflexivity|].
  destruct (result_success r); simpl; [exact IH | discriminate].
Qed.

Lemma all_failed_count (metafields : list Metafield) (message : jsstring) :
  length (filter (fun r => negb (result_success r))
                 (all_failed metafields message))
  = length (all_failed metafields message).
Proof.
  unfold all_failed. induction metafields as [|mf mfs IH]; simpl; auto.
Qed.

(** X2.  In both modes and whatever the replies, every detail entry of a
    batch is about a row with something to write, and the results of its
    metafields are of one kind: all successes from a dry run, all
    successes with the same reply, or all failures with the same error
    text.  A row is never partly written as far as the script can tell:
    the count of failed metafields it prints is 0 or all of them. *)
Theorem row_outcome_is_all_or_nothing (config : Config)
        (variants : list Importer.row) (net : Net World) :
  Forall (fun entry : Detail =>
            metafieldResults entry <> []
            /\ uniform_results (map result_metafield (metafieldResults entry))
                               (metafieldResults entry)
            /\ (length (filter (fun r => negb (result_success r))
                               (metafieldResults entry)) = 0
                \/ length (filter (fun r => negb (result_success r))
                                  (metafieldResults entry))
                   = length (metafieldResults entry)))
         (details (fst (processBatch endpoint config variants net))).
Proof.
  revert net. induction variants as [|v vs IH]; intros net.
  - constructor.
  - rewrite processBatch_cons, process_variant_alone.
    destruct (would_update v) eqn:Ev.
    + pose proof (update_payload endpoint config (get v VARIANT_ID)
                                 (extractMetafields v) net) as Hpay.
      pose proof (update_uniform config (get v VARIANT_ID)
                                 (extractMetafields v) net) as Huni.
      destruct (updateVariantMetafields endpoint config _ _ net) as [rs net1].
      simpl in Hpay, Huni. specialize (IH net1).
      destruct (processBatch endpoint config vs net1) as [r2 net2].
      simpl in IH.
      assert (Hentry : rs <> []
                       /\ uniform_results (map result_metafield rs) rs
                       /\ (length (filter (fun r => negb (result_success r)) rs) = 0
                           \/ length (filter (fun r => negb (result_success r)) rs)
                              = length rs)).
      { apply would_update_iff in Ev. split; [|split].
        - intros E. rewrite E in Hpay. simpl in Hpay. congruence.
        - rewrite Hpay. exact Huni.
        - destruct Huni as [-> | [[data ->] | [m ->]]].
          + left. apply no_failure_of_successes. apply forallb_dry.
          + left. apply no_failure_of_successes. apply forallb_updated.
          + right. apply all_failed_count. }
      destruct (forallb result_success rs); simpl;
        (constructor; [exact Hentry | exact IH]).
    + specialize (IH net).
      destruct (processBatch endpoint config vs net) as [r2 net2].
      simpl in *. exact IH.
Qed.

(** X3.  A live run against an endpoint that never names a product sends
    one lookup for every row with something to write, in row order, and
    nothing else: no mutation is ever sent.  Every such row is a failure
    whose detail entry holds, for each of its metafields, a failure with
    the text that the product of the variant could not be found; no row
    succeeds. *)
Theorem no_product_no_mutation (config : Config)
        (variants : list Importer.row) (net : Net World) :
  dryRun config = false ->
  never_finds endpoint ->
  let run := processBatch endpoint config variants net in
  trace (snd run)
  = trace net ++ map lookup_of (filter would_update variants)
  /\ success (fst run) = 0
  /\ failed (fst run) = length (filter would_update variants)
  /\ details (fst run)
     = map (fun v => entry_of v (each_failed_with (NOT_FOUND_MESSAGE v)
                                                  (extractMetafields v)))
           (filter would_update variants).
Proof.
  intros Hlive Hnever. revert net.
  induction variants as [|v vs IH]; intros net.
  - simpl. rewrite app_nil_r. auto.
  - cbv zeta. rewrite processBatch_cons, process_variant_alone.
    simpl filter. destruct (would_update v) eqn:Ev.
    + assert (Hlookup : exists productId w,
                 getProductIdFromVariantId endpoint (get v VARIANT_ID) net
                 = (productId,
                    {| world := w; trace := trace net ++ [lookup_of v] |})
                 /\ (productId = None \/ productId = Some [])).
      { unfold getProductIdFromVariantId, bind, makeGraphQLRequest.
        pose proof (Hnever (get v VARIANT_ID) (world net)) as Hn.
        destruct (endpoint (GetVariant (get v VARIANT_ID)) (world net))
          as [response w].
        simpl in Hn. unfold product_of in Hn.
        destruct response as [m | data].
        - exists None, w. split; [reflexivity | left; reflexivity].
        - destruct (productVariant_product_id data) as [m | id].
          + exists None, w. split; [reflexivity | left; reflexivity].
          + exists id, w. split; [reflexivity | exact Hn]. }
      destruct Hlookup as [productId [w [Hlookup Hnone]]].
      apply would_update_iff in Ev.
      rewrite (@update_lookup_fails World endpoint config (get v VARIANT_ID)
                 (extractMetafields v) net _ productId Hlive Ev Hlookup Hnone).
      rewrite forallb_all_failed by exact Ev.
      specialize (IH {| world := w; trace := trace net ++ [lookup_of v] |}).
      cbv zeta in IH.
      destruct (processBatch endpoint config vs _) as [r2 net2].
      simpl in IH. destruct IH as [Htr [Hs [Hf Hd]]].
      simpl. rewrite Htr, Hs, Hf, Hd, <- app_assoc.
      repeat split.
    + specialize (IH net). cbv zeta in IH.
      destruct (processBatch endpoint config vs net) as [r2 net2].
      simpl in *. exact IH.
Qed.

End RowOutcome.

Lemma empty_shop_never_finds : never_finds empty_shop.
Proof. intros id w. left. reflexivity. Qed.

(** Two variants against the shop that knows no variant: two lookups, two
    failures, each with the text that names the variant. *)
Lemma no_product_no_mutation_witness :
  dryRun (live 10) = false
  /\ trace (snd (processBatch empty_shop (live 10)
                              [variant_row "v1" "One"; variant_row "v2" "Two"]
                              fresh))
     = [GetVariant (Some (lit "v1")); GetVariant (Some (lit "v2"))]
  /\ failed (fst (processBatch empty_shop (live 10)
                               [variant_row "v1" "One"; variant_row "v2" "Two"]
                               fresh)) = 2
  /\ details (fst (processBatch empty_shop (live 10)
                                [variant_row "v1" "One"; variant_row "v2" "Two"]
                                fresh))
     = [ {| variantId := Some (lit "v1");
            variantTitle := Some (lit "One");
            metafieldResults :=
              [ FailedResult
                  {| namespace := lit "custom"; key := lit "popular";
                     value := lit "true";
                     type := lit "single_line_text_field" |}
                  (lit "Could not find product for variant v1") ] |};
         {| variantId := Some (lit "v2");
            variantTitle := Some (lit "Two");
            metafieldResults :=
              [ FailedResult
                  {| namespace := lit "custom"; key := lit "popular";
                     value := lit "true";
                     type := lit "single_line_text_field" |}
                  (lit "Could not find product for variant v2") ] |} ].
Proof.
  split; [reflexivity|].
  destruct (@no_product_no_mutation
              nat empty_shop (live 10)
              [variant_row "v1" "One"; variant_row "v2" "Two"] fresh
              eq_refl empty_shop_never_finds)
    as [Htr [_ [Hf Hd]]].
  split; [exact Htr|]. split; [exact Hf|].
  rewrite Hd. reflexivity.
Defined.

(** ** The batch size *)

Section BatchSize.

Variable World : Type.
Variable endpoint : Request -> World -> Response * World.



(** X5.  With a batch size of zero and a file that gives one row at
    least, the run never ends: whatever the number of batches allowed, it
    has not returned, and it has sent no request. *)
Theorem zero_batch_size_never_ends (config : Config) (csvContent : jsstring)
        (variants : list Importer.row) (warnings : list jsstring)
        (net : Net World) :
  batchSize config = 0 ->
  parseCSV csvContent = Return (variants, warnings) ->
  variants <> [] ->
  forall fuel,
    importVariants endpoint fuel config csvContent net = (None, net).
Proof.
  intros Hsize Hparse Hne fuel. unfold importVariants. rewrite Hparse.
  unfold bind.
  rewrite (import_loop_zero_size endpoint config Hsize Hne). reflexivity.
Qed.

End BatchSize.

(** The run on the sample file with a batch size of zero, after a
    thousand batches. *)
Lemma zero_batch_size_never_ends_witness :
  batchSize (live 0) = 0
  /\ importVariants (shop None) 1000 (live 0) ragged_file fresh
     = (None, fresh).
Proof.
  split; [reflexivity|].
  apply (@zero_batch_size_never_ends
           nat (shop None) (live 0) ragged_file
           [ [(VARIANT_ID, lit "v1");
              (lit "metafield_custom_popular", lit "true")];
             [(VARIANT_ID, lit "v3");
              (lit "metafield_custom_popular", [])] ]
           [lit "Warning: Row 3 has 3 values but expected 2"] fresh);
    [reflexivity | reflexivity | discriminate].
Defined.

(** ** The batch size as a JavaScript number *)

Lemma firstn_min_length {A} (n : nat) (l : list A) :
  firstn (Nat.min n (length l)) l = firstn n l.
Proof.
  destruct (Nat.le_ge_cases n (length l)) as [H | H].
  - rewrite Nat.min_l by exact H. reflexivity.
  - rewrite Nat.min_r by exact H.
    rewrite firstn_all, firstn_all2 by exact H. reflexivity.
Qed.

(** A slice from an index inside the array and a natural number of
    elements on. *)
Lemma slice_forward {A} (l : list A) (i n : nat) :
  i <= length l ->
  slice l (Num (Z.of_nat i)) (number_add (Num (Z.of_nat i)) (Num (Z.of_nat n)))
  = firstn n (skipn i l).
Proof.
  intros Hi. unfold slice, number_add, relative_index.
  replace (Z.of_nat i <? 0)%Z with false by (symmetry; apply Z.ltb_ge; lia).
  replace (Z.of_nat i + Z.of_nat n <? 0)%Z with false
    by (symmetry; apply Z.ltb_ge; lia).
  replace (Z.to_nat (Z.min (Z.of_nat i) (Z.of_nat (length l)))) with i by lia.
  replace (Z.to_nat (Z.min (Z.of_nat i + Z.of_nat n) (Z.of_nat (length l))) - i)
    with (Nat.min n (length (skipn i l))) by (rewrite length_skipn; lia).
  apply firstn_min_length.
Qed.

Section NumberBatchSize.

Variable World : Type.
Variable endpoint : Request -> World -> Response * World.

(** On a natural batch size the loop on numbers is the loop on natural
    numbers. *)
Lemma import_loop_number_natural (config : Config)
      (variants : list Importer.row) :
  forall fuel i totalResults (net : Net World),
    import_loop_number endpoint fuel config
                       (Num (Z.of_nat (batchSize config))) variants
                       (Num (Z.of_nat i)) totalResults net
    = import_loop endpoint fuel config variants i totalResults net.
Proof.
  induction fuel as [|fuel IH]; intros i total net; simpl;
    replace (Z.of_nat i <? Z.of_nat (length variants))%Z
      with (i <? length variants)
      by (destruct (i <? length variants) eqn:E;
          [apply Nat.ltb_lt in E; symmetry; apply Z.ltb_lt; lia
          |apply Nat.ltb_ge in E; symmetry; apply Z.ltb_ge; lia]);
    destruct (i <? length variants) eqn:Ei; try reflexivity.
  apply Nat.ltb_lt in Ei.
  change (Num (Z.of_nat i + Z.of_nat (batchSize config)))
    with (number_add (Num (Z.of_nat i)) (Num (Z.of_nat (batchSize config)))).
  rewrite slice_forward by lia.
  unfold bind. destruct (processBatch endpoint config _ net) as [r net1].
  unfold number_add. rewrite <- Nat2Z.inj_add. apply IH.
Qed.

(** X6.  With the batch size [NaN] -- the argument of [--batch-size] is
    missing or does not start with a number -- the run ends after one
    empty batch: no row is processed, no request is sent, and the
    aggregate is returned as it was, all counts zero. *)
Theorem nan_batch_size_processes_nothing (config : Config)
        (variants : list Importer.row) (fuel : nat) (totalResults : Results)
        (net : Net World) :
  1 <= fuel ->
  import_loop_number endpoint fuel config NaN variants (Num 0)
                     totalResults net
  = (Some totalResults, net).
Proof.
  intros Hfuel. destruct fuel as [|fuel]; [lia|].
  simpl. destruct (0 <? Z.of_nat (length variants))%Z; [|reflexivity].
  unfold slice, relative_index. simpl.
  unfold bind. rewrite processBatch_nil, add_no_results_r.
  destruct fuel; reflexivity.
Qed.

(** Below zero the index stays below zero, every batch is empty and the
    loop goes on. *)
Lemma import_loop_number_below_zero (config : Config) (z : Z)
      (variants : list Importer.row) :
  (z < 0)%Z ->
  forall fuel i totalResults (net : Net World),
    (i < 0)%Z ->
    import_loop_number endpoint fuel config (Num z) variants (Num i)
                       totalResults net
    = (None, net).
Proof.
  intros Hz. induction fuel as [|fuel IH]; intros i total net Hi; simpl;
    replace (i <? Z.of_nat (length variants))%Z with true
      by (symmetry; apply Z.ltb_lt; lia); [reflexivity|].
  assert (Hbatch : slice variants (Num i) (Num (i + z)) = []).
  { unfold slice, relative_index.
    replace (i <? 0)%Z with true by (symmetry; apply Z.ltb_lt; lia).
    replace (i + z <? 0)%Z with true by (symmetry; apply Z.ltb_lt; lia).
    replace (Z.to_nat (Z.max (Z.of_nat (length variants) + (i + z)) 0)
             - Z.to_nat (Z.max (Z.of_nat (length variants) + i) 0))
      with 0 by lia.
    reflexivity. }
  rewrite Hbatch. unfold bind. rewrite processBatch_nil, add_no_results_r.
  apply IH. lia.
Qed.

(** X7.  With a negative batch size [-k] and one row at least, the run
    processes the rows but the last [k] in one batch and then never ends:
    whatever the number of batches allowed, it has not returned. *)
Theorem negative_batch_size_never_ends (config : Config) (k : nat)
        (variants : list Importer.row) (fuel : nat) (totalResults : Results)
        (net : Net World) :
  1 <= k ->
  variants <> [] ->
  import_loop_number endpoint (S fuel) config (Num (- Z.of_nat k)) variants
                     (Num 0) totalResults net
  = (None,
     snd (processBatch endpoint config
                       (firstn (length variants - k) variants) net)).
Proof.
  intros Hk Hne. simpl.
  replace (0 <? Z.of_nat (length variants))%Z with true
    by (symmetry; apply Z.ltb_lt; destruct variants; [congruence | simpl; lia]).
  assert (Hbatch : slice variants (Num 0) (Num (- Z.of_nat k))
                   = firstn (length variants - k) variants).
  { unfold slice, relative_index.
    replace (- Z.of_nat k <? 0)%Z with true by (symmetry; apply Z.ltb_lt; lia).
    change (0 <? 0)%Z with false. cbv iota.
    replace (Z.to_nat (Z.min 0 (Z.of_nat (length variants)))) with 0 by lia.
    replace (Z.to_nat (Z.max (Z.of_nat (length variants) + - Z.of_nat k) 0) - 0)
      with (length variants - k) by lia.
    reflexivity. }
  rewrite Hbatch. unfold bind.
  destruct (processBatch endpoint config _ net) as [r net1].
  simpl snd. apply import_loop_number_below_zero; lia.
Qed.

End NumberBatchSize.

(** The sample rows with the batch size [NaN]: nothing happens. *)
Lemma nan_batch_size_processes_nothing_witness :
  import_loop_number (shop None) 3 (live 10) NaN five_rows (Num 0)
                     no_results fresh
  = (Some no_results, fresh).
Proof.
  apply (@nan_batch_size_processes_nothing nat (shop None) (live 10)
                                           five_rows 3 no_results fresh).
  repeat constructor.
Defined.

(** The five rows with the batch size -2: the first three are processed,
    six requests, and the loop goes on. *)
Lemma negative_batch_size_never_ends_witness :
  fst (import_loop_number (shop None) 1000 (live 10) (Num (-2)) five_rows
                          (Num 0) no_results fresh) = None
  /\ length (trace (snd (import_loop_number (shop None) 1000 (live 10)
                                            (Num (-2)) five_rows (Num 0)
                                            no_results fresh))) = 6.
Proof.
  assert (Hk : 1 <= 2) by (repeat constructor).
  assert (Hne : five_rows <> []) by discriminate.
  pose proof (@negative_batch_size_never_ends nat (shop None) (live 10) 2
                five_rows 999 no_results fresh Hk Hne) as H.
  change (S 999) with 1000 in H.
  change (- Z.of_nat 2)%Z with (-2)%Z in H.
  rewrite H. split; reflexivity.
Defined.

(* ================================================================== *)
(** * Further properties of the reader *)
(* ================================================================== *)

(** ** Trimming *)

Lemma trimStart_shape (s : jsstring) :
  trimStart s = []
  \/ exists c t, trimStart s = c :: t /\ is_whitespace c = false.
Proof.
  induction s as [|x s IH]; [left; reflexivity|].
  simpl. destruct (is_whitespace x) eqn:E; [exact IH|].
  right. exists x, s. split; [reflexivity | exact E].
Qed.

(** What [trimStart] removes is white space. *)
Lemma trimStart_split (s : jsstring) :
  exists p, s = p ++ trimStart s /\ forallb is_whitespace p = true.
Proof.
  induction s as [|x s [p [Hs Hp]]]; [exists []; split; reflexivity|].
  simpl. destruct (is_whitespace x) eqn:E.
  - exists (x :: p). simpl. rewrite E, Hp. split; [f_equal; exact Hs | reflexivity].
  - exists []. split; reflexivity.
Qed.

Lemma trimStart_white (s : jsstring) :
  forallb is_whitespace s = true -> trimStart s = [].
Proof.
  induction s as [|x s IH]; [reflexivity|]. simpl.
  destruct (is_whitespace x); [exact IH | discriminate].
Qed.

Lemma trimStart_app_white (p s : jsstring) :
  forallb is_whitespace p = true -> trimStart (p ++ s) = trimStart s.
Proof.
  induction p as [|x p IH]; [reflexivity|]. simpl.
  destruct (is_whitespace x); [exact IH | discriminate].
Qed.

Lemma trimStart_head (c : char) (t : jsstring) :
  is_whitespace c = false -> trimStart (c :: t) = c :: t.
Proof. intros E. simpl. rewrite E. reflexivity. Qed.

(** White space at the end of a string is trimmed away. *)
Lemma trim_app_white (s p : jsstring) :
  forallb is_whitespace p = true -> trim (s ++ p) = trim s.
Proof.
  intros Hp. unfold trim.
  destruct (trimStart_shape s) as [E | [c [t [E Hc]]]].
  - destruct (trimStart_split s) as [q [Hs Hq]]. rewrite E, app_nil_r in Hs.
    subst q. rewrite E.
    rewrite trimStart_white; [reflexivity|].
    rewrite forallb_app, Hq, Hp. reflexivity.
  - destruct (trimStart_split s) as [q [Hs Hq]].
    rewrite Hs at 1. rewrite <- app_assoc, (@trimStart_app_white q _ Hq), E.
    simpl app. rewrite (@trimStart_head c _ Hc).
    unfold trimEnd. f_equal.
    change (c :: t ++ p) with ((c :: t) ++ p). rewrite rev_app_distr.
    apply trimStart_app_white. apply forallb_forall. intros x Hx.
    apply in_rev in Hx. rewrite forallb_forall in Hp. exact (Hp x Hx).
Qed.

(** [trim] leaves a trimmed string: trimming twice is trimming once. *)
Lemma trim_trimmed (s : jsstring) : trimmed (trim s).
Proof.
  unfold trimmed, trim.
  destruct (trimStart_shape s) as [E | [c [t [E Hc]]]].
  - rewrite E. reflexivity.
  - rewrite E. unfold trimEnd.
    destruct (trimStart_split (rev (c :: t))) as [q [Hs Hq]].
    destruct (trimStart_shape (rev (c :: t))) as [E' | [d [u [E' Hd]]]].
    + exfalso. rewrite E', app_nil_r in Hs. subst q.
      rewrite forallb_forall in Hq.
      assert (Hin : In c (rev (c :: t))) by (apply -> in_rev; left; reflexivity).
      rewrite (Hq c Hin) in Hc. discriminate.
    + rewrite E'.
      assert (Hrev : c :: t = rev (d :: u) ++ rev q).
      { rewrite <- rev_app_distr, <- E', <- Hs, rev_involutive. reflexivity. }
      assert (Hhead : exists u', rev (d :: u) = c :: u').
      { destruct (rev (d :: u)) as [|x u'] eqn:Er.
        - apply (f_equal (@rev char)) in Er. rewrite rev_involutive in Er.
          discriminate.
        - simpl in Hrev. inversion Hrev. subst x. exists u'. reflexivity. }
      destruct Hhead as [u' Hu]. rewrite Hu.
      rewrite (@trimStart_head c u' Hc). rewrite <- Hu, rev_involutive.
      rewrite (@trimStart_head d u Hd). reflexivity.
Qed.

Lemma trim_nil : trim [] = [].
Proof. reflexivity. Qed.

(** A trimmed string keeps the code units it had: [trim] only removes. *)
Lemma trim_incl (s : jsstring) (c : char) : In c (trim s) -> In c s.
Proof.
  unfold trim, trimEnd. intros Hin. apply in_rev in Hin.
  destruct (trimStart_split (rev (trimStart s))) as [q [Hs _]].
  assert (H1 : In c (rev (trimStart s))).
  { rewrite Hs. apply in_or_app. right. exact Hin. }
  apply in_rev in H1.
  destruct (trimStart_split s) as [p [Hs' _]].
  rewrite Hs'. apply in_or_app. right. exact H1.
Qed.

(* ================================================================== *)
(** * Further properties of the exporter *)
(* ================================================================== *)

(** ** Reads after assignments *)

Lemma get_app {A} (o1 o2 : obj A) (k : jsstring) :
  get (o1 ++ o2) k = match get o1 k with
                     | Some v => Some v
                     | None => get o2 k
                     end.
Proof.
  induction o1 as [|[k' v'] o1 IH]; [reflexivity|].
  simpl. destruct (str_eqb k k'); [reflexivity | exact IH].
Qed.

Lemma get_update_same {A} (k : jsstring) (v : A) (o : obj A) :
  has o k = true -> get (update k v o) k = Some v.
Proof.
  unfold has. induction o as [|[k' v'] o IH]; [discriminate|].
  simpl. destruct (str_eqb k k') eqn:E.
  - intros _. simpl. rewrite E. reflexivity.
  - intros H. simpl. rewrite E. exact (IH H).
Qed.

Lemma get_update_other {A} (k x : jsstring) (v : A) (o : obj A) :
  x <> k -> get (update k v o) x = get o x.
Proof.
  intros Hx. induction o as [|[k' v'] o IH]; [reflexivity|].
  simpl. destruct (str_eqb k k') eqn:E.
  - apply str_eqb_eq in E. subst k'. simpl.
    apply str_eqb_neq in Hx. rewrite Hx. reflexivity.
  - simpl. rewrite IH. reflexivity.
Qed.

Lemma get_insert_index_same {A} (n : N) (k : jsstring) (v : A) (o : obj A) :
  has o k = false -> get (insert_index n k v o) k = Some v.
Proof.
  unfold has. induction o as [|[k' v'] o IH].
  - intros _. simpl. rewrite str_eqb_refl. reflexivity.
  - simpl. destruct (str_eqb k k') eqn:E; [discriminate|]. intros H.
    destruct (array_index k') as [n'|].
    + destruct (n' <? n)%N.
      * simpl. rewrite E. exact (IH H).
      * simpl. rewrite str_eqb_refl. reflexivity.
    + simpl. rewrite str_eqb_refl. reflexivity.
Qed.

Lemma get_insert_index_other {A} (n : N) (k x : jsstring) (v : A)
      (o : obj A) :
  x <> k -> get (insert_index n k v o) x = get o x.
Proof.
  intros Hx. apply str_eqb_neq in Hx.
  induction o as [|[k' v'] o IH].
  - simpl. rewrite Hx. reflexivity.
  - simpl. destruct (array_index k') as [n'|].
    + destruct (n' <? n)%N.
      * simpl. rewrite IH. reflexivity.
      * simpl. rewrite Hx. reflexivity.
    + simpl. rewrite Hx. reflexivity.
Qed.

(** A read after an assignment finds the value assigned. *)
Lemma get_set_same {A} (k : jsstring) (v : A) (o : obj A) :
  k <> PROTO -> get (JsObject.set k v o) k = Some v.
Proof.
  intros Hp. unfold JsObject.set. apply str_eqb_neq in Hp. rewrite Hp.
  destruct (has o k) eqn:Hh.
  - apply get_update_same. exact Hh.
  - destruct (array_index k) as [n|].
    + apply get_insert_index_same. exact Hh.
    + rewrite get_app. unfold has in Hh.
      destruct (get o k); [discriminate|].
      simpl. rewrite str_eqb_refl. reflexivity.
Qed.

(** An assignment leaves the other properties as they are. *)
Lemma get_set_other {A} (k x : jsstring) (v : A) (o : obj A) :
  x <> k -> get (JsObject.set k v o) x = get o x.
Proof.
  intros Hx. unfold JsObject.set.
  destruct (str_eqb k PROTO); [reflexivity|].
  destruct (has o k).
  - apply get_update_other. exact Hx.
  - destruct (array_index k) as [n|].
    + apply get_insert_index_other. exact Hx.
    + rewrite get_app. destruct (get o x); [reflexivity|].
      simpl. apply str_eqb_neq in Hx. rewrite Hx. reflexivity.
Qed.

(** A new key that is no array index goes to the end. *)
Lemma set_fresh_key {A} (o : obj A) (k : jsstring) (v : A) :
  k <> PROTO -> array_index k = None -> ~ In k (keys o) ->
  JsObject.set k v o = o ++ [(k, v)].
Proof.
  intros Hp Hi Hn. unfold JsObject.set.
  apply str_eqb_neq in Hp. rewrite Hp, (has_not_In _ _ Hn), Hi. reflexivity.
Qed.

Lemma fold_set_fresh {A} (f : jsstring -> A) (ks : list jsstring) :
  forall o : obj A,
    NoDup (keys o ++ ks) ->
    Forall (fun k => k <> PROTO /\ array_index k = None) ks ->
    fold_left (fun r k => JsObject.set k (f k) r) ks o
    = o ++ map (fun k => (k, f k)) ks.
Proof.
  induction ks as [|k ks IH]; intros o Hnd Hks.
  - simpl. rewrite app_nil_r. reflexivity.
  - inversion Hks as [|? ? [Hp Hi] Hks']; subst. simpl.
    rewrite set_fresh_key; [| exact Hp | exact Hi |].
    2:{ apply NoDup_remove_2 in Hnd. intros Hin. apply Hnd.
        apply in_or_app. left. exact Hin. }
    rewrite IH; [| | exact Hks'].
    + rewrite <- app_assoc. reflexivity.
    + rewrite keys_app. simpl. rewrite <- app_assoc. exact Hnd.
Qed.

(** ** The set of metafield columns *)

Lemma in_set_add (k x : jsstring) (s : list jsstring) :
  In x (set_add k s) <-> x = k \/ In x s.
Proof.
  unfold set_add. destruct (existsb (str_eqb k) s) eqn:E.
  - split; [intros H; right; exact H|].
    intros [-> | H]; [|exact H].
    apply existsb_exists in E. destruct E as [y [Hy Hk]].
    apply str_eqb_eq in Hk. subst y. exact Hy.
  - rewrite in_app_iff. simpl. split.
    + intros [H | [<- | []]]; [right; exact H | left; reflexivity].
    + intros [-> | H]; [right; left; reflexivity | left; exact H].
Qed.

Lemma set_add_NoDup (k : jsstring) (s : list jsstring) :
  NoDup s -> NoDup (set_add k s).
Proof.
  intros Hnd. unfold set_add. destruct (existsb (str_eqb k) s) eqn:E.
  - exact Hnd.
  - apply NoDup_app; [exact Hnd | repeat constructor; intros [] |].
    intros x Hx [<- | []].
    assert (Hex : existsb (str_eqb k) s = true).
    { apply existsb_exists. exists k. split; [exact Hx | apply str_eqb_refl]. }
    congruence.
Qed.

Lemma fold_set_add_spec {D} (name : D -> jsstring) (definitions : list D) :
  forall s,
    NoDup s ->
    let s' := fold_left (fun keys d => set_add (name d) keys) definitions s in
    NoDup s'
    /\ forall x, In x s' <-> In x s \/ exists d, In d definitions /\ x = name d.
Proof.
  induction definitions as [|d ds IH]; intros s Hnd; simpl.
  - split; [exact Hnd|]. intros x. split; [intros H; left; exact H|].
    intros [H | [d [[] _]]]. exact H.
  - destruct (IH (set_add (name d) s) (set_add_NoDup _ Hnd)) as [Hnd' Hin].
    split; [exact Hnd'|]. intros x. rewrite Hin, in_set_add. split.
    + intros [[-> | H] | [d' [Hd' ->]]].
      * right. exists d. split; [left; reflexivity | reflexivity].
      * left. exact H.
      * right. exists d'. split; [right; exact Hd' | reflexivity].
    + intros [H | [d' [[<- | Hd'] ->]]].
      * left. right. exact H.
      * left. left. reflexivity.
      * right. exists d'. split; [exact Hd' | reflexivity].
Qed.

Lemma allMetafieldKeys_NoDup (definitions : list MetafieldDefinition.t) :
  NoDup (allMetafieldKeys definitions).
Proof.
  unfold allMetafieldKeys.
  apply (fold_set_add_spec
           (fun d => column_name (MetafieldDefinition.namespace d)
                                 (MetafieldDefinition.key d))
           definitions (NoDup_nil _)).
Qed.

Lemma in_allMetafieldKeys (definitions : list MetafieldDefinition.t)
      (x : jsstring) :
  In x (allMetafieldKeys definitions)
  <-> exists d, In d definitions
                /\ x = column_name (MetafieldDefinition.namespace d)
                                   (MetafieldDefinition.key d).
Proof.
  unfold allMetafieldKeys.
  destruct (fold_set_add_spec
              (fun d => column_name (MetafieldDefinition.namespace d)
                                    (MetafieldDefinition.key d))
              definitions (NoDup_nil _)) as [_ H].
  rewrite H. split; [intros [[] | E]; exact E | intros E; right; exact E].
Qed.

(** No name that starts with [metafield_] is among names that do not. *)
Lemma prefixed_not_among (names : list jsstring) (ns k : jsstring) :
  forallb (fun n => negb (startsWith METAFIELD_PREFIX n)) names = true ->
  ~ In (column_name ns k) names.
Proof.
  intros H Hin. rewrite forallb_forall in H. specialize (H _ Hin).
  unfold column_name in H. rewrite startsWith_app in H. discriminate.
Qed.

Lemma column_name_not_fixed (ns k : jsstring) :
  ~ In (column_name ns k) FIXED_COLUMNS.
Proof. apply prefixed_not_among. reflexivity. Qed.

Lemma column_name_not_inherited (ns k : jsstring) :
  inherited (column_name ns k) = None.
Proof.
  unfold inherited. apply get_not_In. apply prefixed_not_among. reflexivity.
Qed.

Lemma export_columns_NoDup (definitions : list MetafieldDefinition.t) :
  NoDup (FIXED_COLUMNS ++ allMetafieldKeys definitions).
Proof.
  apply NoDup_app.
  - unfold FIXED_COLUMNS. repeat (constructor; [simpl; intuition discriminate|]).
    constructor.
  - apply allMetafieldKeys_NoDup.
  - intros x Hf Hk. apply in_allMetafieldKeys in Hk.
    destruct Hk as [d [_ ->]]. exact (@column_name_not_fixed _ _ Hf).
Qed.

(** The record of a variant is the literal followed by one cell per
    metafield column. *)
Lemma variant_record_shape (definitions : list MetafieldDefinition.t)
      (product : Product.t) (variant : Variant.t) :
  variant_record (allMetafieldKeys definitions) product variant
  = variantRecord_literal product variant
    ++ map (fun k =>
              (k, metafield_cell
                    (flattenMetafields (extractVariantMetafields variant)) k))
           (allMetafieldKeys definitions).
Proof.
  unfold variant_record. apply fold_set_fresh.
  - exact (export_columns_NoDup definitions).
  - apply Forall_forall. intros x Hx. apply in_allMetafieldKeys in Hx.
    destruct Hx as [d [_ ->]]. split.
    + apply column_name_not_proto.
    + apply array_index_column_name.
Qed.

Lemma variant_record_keys (definitions : list MetafieldDefinition.t)
      (product : Product.t) (variant : Variant.t) :
  keys (variant_record (allMetafieldKeys definitions) product variant)
  = FIXED_COLUMNS ++ allMetafieldKeys definitions.
Proof.
  rewrite variant_record_shape, keys_app. f_equal.
  unfold keys. rewrite map_map. simpl. apply map_id.
Qed.

Lemma allVariants_keys (definitions : list MetafieldDefinition.t)
      (products : list Product.t) :
  Forall (fun r => keys r = FIXED_COLUMNS ++ allMetafieldKeys definitions)
         (allVariants (allMetafieldKeys definitions) products).
Proof.
  apply Forall_forall. intros r Hr. unfold allVariants in Hr.
  apply in_flat_map in Hr. destruct Hr as [p [_ Hr]].
  apply in_map_iff in Hr. destruct Hr as [v [<- _]].
  apply variant_record_keys.
Qed.

Lemma get_tabulated {A} (f : jsstring -> A) (ks : list jsstring)
      (x : jsstring) :
  In x ks -> get (map (fun k => (k, f k)) ks) x = Some (f x).
Proof.
  induction ks as [|k ks IH]; [intros []|].
  intros Hin. simpl. destruct (str_eqb x k) eqn:E.
  - apply str_eqb_eq in E. subst k. reflexivity.
  - destruct Hin as [-> | Hin]; [rewrite str_eqb_refl in E; discriminate|].
    exact (IH Hin).
Qed.

Lemma flattenMetafields_snoc (metafields : list Metafield) (mf : Metafield) :
  flattenMetafields (metafields ++ [mf])
  = JsObject.set (column_name (namespace mf) (key mf)) (value mf)
                 (flattenMetafields metafields).
Proof. unfold flattenMetafields. rewrite fold_left_app. reflexivity. Qed.

(** Of the metafields that share a column, [flattenMetafields] keeps the
    value of the last. *)
Lemma get_flattened (metafields : list Metafield) (x : jsstring) :
  get (flattenMetafields metafields) x
  = option_map value
      (find (fun mf => str_eqb x (column_name (namespace mf) (key mf)))
            (rev metafields)).
Proof.
  induction metafields as [|mf metafields IH] using rev_ind; [reflexivity|].
  rewrite flattenMetafields_snoc, rev_unit. simpl find.
  destruct (str_eqb x (column_name (namespace mf) (key mf))) eqn:E.
  - apply str_eqb_eq in E. subst x. simpl.
    apply get_set_same. apply column_name_not_proto.
  - apply str_eqb_neq in E. rewrite get_set_other by exact E. exact IH.
Qed.

(** X8. Whatever the two replies, every record the exporter builds has the
    same columns in the same order: the seventeen fixed ones, then one per
    metafield definition that passed the filter, named [metafield_ns_key],
    without repetition.  The text written is empty when there is no variant
    and otherwise the line of these columns followed by one line per
    variant; when the definitions cannot be fetched the columns are the
    fixed ones only. *)
Theorem export_has_every_declared_column
        (includeAllMetafields : bool)
        (reply : option (list MetafieldDefinition.t))
        (products : list Product.t) :
  let definitions :=
    getVariantMetafieldDefinitions includeAllMetafields reply in
  let columns := FIXED_COLUMNS ++ allMetafieldKeys definitions in
  let records := allVariants (allMetafieldKeys definitions) products in
  NoDup columns
  /\ (forall x, In x (allMetafieldKeys definitions)
                <-> exists d, In d definitions
                              /\ x = column_name
                                       (MetafieldDefinition.namespace d)
                                       (MetafieldDefinition.key d))
  /\ Forall (fun r => keys r = columns) records
  /\ length records
     = length (flat_map Product.variants products)
  /\ exportVariants includeAllMetafields reply (Return products)
     = Return
         match records with
         | [] => []
         | _ :: _ =>
             join [NEWLINE]
                  (join [COMMA] columns
                   :: map (fun r => join [COMMA] (map (encode_cell r) columns))
                          records)
         end
  /\ FIXED_COLUMNS
     ++ allMetafieldKeys
          (getVariantMetafieldDefinitions includeAllMetafields None)
     = FIXED_COLUMNS.
Proof.
  intros definitions columns records.
  assert (Hkeys : Forall (fun r => keys r = columns) records)
    by apply allVariants_keys.
  split; [apply export_columns_NoDup|].
  split; [apply in_allMetafieldKeys|].
  split; [exact Hkeys|].
  split.
  { unfold records, allVariants. clear Hkeys.
    induction products as [|p ps IH]; [reflexivity|].
    simpl. rewrite !length_app, length_map, IH. reflexivity. }
  split; [|reflexivity].
  unfold exportVariants. fold definitions. fold records.
  destruct records as [|first rest]; [reflexivity|].
  unfold arrayToCSV. inversion Hkeys as [|? ? Hfirst _]; subst.
  rewrite Hfirst. reflexivity.
Qed.

(** The cell of a declared metafield column is the one assigned from the
    flattened metafields of the variant; the cell of a fixed column is the
    one of the literal. *)
Lemma variant_record_declared_cell
      (definitions : list MetafieldDefinition.t)
      (product : Product.t) (variant : Variant.t) (x : jsstring) :
  In x (allMetafieldKeys definitions) ->
  get (variant_record (allMetafieldKeys definitions) product variant) x
  = Some (metafield_cell
            (flattenMetafields (extractVariantMetafields variant)) x).
Proof.
  intros Hx. rewrite variant_record_shape, get_app.
  rewrite (@get_not_In _ (variantRecord_literal product variant) x).
  - exact (get_tabulated _ _ _ Hx).
  - apply in_allMetafieldKeys in Hx. destruct Hx as [d [_ ->]].
    exact (@column_name_not_fixed _ _).
Qed.

Lemma variant_record_fixed_cell
      (definitions : list MetafieldDefinition.t)
      (product : Product.t) (variant : Variant.t) (x : jsstring) :
  In x FIXED_COLUMNS ->
  get (variant_record (allMetafieldKeys definitions) product variant) x
  = get (variantRecord_literal product variant) x.
Proof.
  intros Hx. rewrite variant_record_shape, get_app.
  destruct (@In_keys_get _ (variantRecord_literal product variant) x Hx)
    as [c Hc].
  rewrite Hc. reflexivity.
Qed.

(** The cell assigned to a metafield column: the value of the last
    metafield of that column, or the empty string. *)
Lemma metafield_cell_last (metafields : list Metafield) (ns k : jsstring) :
  metafield_cell (flattenMetafields metafields) (column_name ns k)
  = match find (fun mf => str_eqb (column_name ns k)
                                  (column_name (namespace mf) (key mf)))
               (rev metafields) with
    | Some mf => VString (value mf)
    | None => EMPTY
    end.
Proof.
  unfold metafield_cell. rewrite get_flattened.
  destruct (find _ (rev metafields)) as [mf|]; [reflexivity|].
  unfold option_map. rewrite column_name_not_inherited. reflexivity.
Qed.

(** X9. The cell of a declared metafield column holds the value of the
    variant's metafield of that column, the last one when several share
    it, and the empty string when the variant has none. *)
Theorem exported_metafield_cell
        (definitions : list MetafieldDefinition.t)
        (product : Product.t) (variant : Variant.t) (x : jsstring) :
  In x (allMetafieldKeys definitions) ->
  get (variant_record (allMetafieldKeys definitions) product variant) x
  = Some match find (fun mf =>
                       str_eqb x (column_name (namespace mf) (key mf)))
                    (rev (extractVariantMetafields variant)) with
         | Some mf => VString (value mf)
         | None => EMPTY
         end.
Proof.
  intros Hx.
  rewrite (@variant_record_declared_cell definitions product variant x Hx).
  f_equal.
  apply in_allMetafieldKeys in Hx. destruct Hx as [d [_ ->]].
  apply metafield_cell_last.
Qed.

Lemma exported_metafield_cell_witness :
  In (lit "metafield_custom_popular")
     (allMetafieldKeys
        (getVariantMetafieldDefinitions false (Some sample_definitions)))
  /\ get (variant_record
            (allMetafieldKeys
               (getVariantMetafieldDefinitions false (Some sample_definitions)))
            sample_product
            (sample_variant "gid://shopify/ProductVariant/1"
                            [custom_popular; secret_note]))
         (lit "metafield_custom_popular")
     = Some (VString (value custom_popular)).
Proof.
  assert (H : In (lit "metafield_custom_popular")
                 (allMetafieldKeys
                    (getVariantMetafieldDefinitions
                       false (Some sample_definitions))))
    by (vm_compute; left; reflexivity).
  split; [exact H|].
  rewrite (exported_metafield_cell _ sample_product _ _ H). reflexivity.
Defined.

(** X10. A metafield whose column is not among the declared ones is not
    exported, whether the variant has it or not: the record has no such
    column, and the fixed columns keep the cells of the literal. *)
Theorem undeclared_metafield_not_exported
        (definitions : list MetafieldDefinition.t)
        (product : Product.t) (variant : Variant.t) (mf : Metafield) :
  ~ In (column_name (namespace mf) (key mf)) (allMetafieldKeys definitions) ->
  ~ In (column_name (namespace mf) (key mf))
       (keys (variant_record (allMetafieldKeys definitions) product variant))
  /\ forall x, In x FIXED_COLUMNS ->
               get (variant_record (allMetafieldKeys definitions)
                                   product variant) x
               = get (variantRecord_literal product variant) x.
Proof.
  intros Hnot. split.
  - rewrite variant_record_keys, in_app_iff. intros [Hf | Hk].
    + exact (@column_name_not_fixed _ _ Hf).
    + exact (Hnot Hk).
  - intros x Hx. apply variant_record_fixed_cell. exact Hx.
Qed.

Lemma undeclared_metafield_not_exported_witness :
  In secret_note
     (extractVariantMetafields
        (sample_variant "gid://shopify/ProductVariant/1"
                        [custom_popular; secret_note]))
  /\ ~ In (lit "metafield_internal_note")
          (keys (variant_record
                   (allMetafieldKeys
                      (getVariantMetafieldDefinitions
                         false (Some sample_definitions)))
                   sample_product
                   (sample_variant "gid://shopify/ProductVariant/1"
                                   [custom_popular; secret_note]))).
Proof.
  assert (Hin : In secret_note
                   (extractVariantMetafields
                      (sample_variant "gid://shopify/ProductVariant/1"
                                      [custom_popular; secret_note])))
    by (right; left; reflexivity).
  split; [exact Hin|].
  refine (proj1 (@undeclared_metafield_not_exported
                   (getVariantMetafieldDefinitions
                      false (Some sample_definitions))
                   sample_product
                   (sample_variant "gid://shopify/ProductVariant/1"
                                   [custom_popular; secret_note])
                   secret_note _)).
  vm_compute. intuition discriminate.
Defined.

(** X11. Without [--include-all-metafields] the definitions kept are, in
    the order of the reply, those whose namespace is not one of the twenty
    excluded ones; the test for the namespace [custom] adds nothing to
    that, [custom] not being excluded.  With the flag every definition is
    kept, and a failed query gives none. *)
Theorem definitions_filter (nodes : list MetafieldDefinition.t) :
  (forall d,
      keeps_definition d
      = negb (existsb (str_eqb (MetafieldDefinition.namespace d))
                      excludedNamespaces))
  /\ getVariantMetafieldDefinitions false (Some nodes)
     = filter (fun d =>
                 negb (existsb (str_eqb (MetafieldDefinition.namespace d))
                               excludedNamespaces)) nodes
  /\ (forall d,
         In d (getVariantMetafieldDefinitions false (Some nodes))
         <-> In d nodes
             /\ ~ In (MetafieldDefinition.namespace d) excludedNamespaces)
  /\ getVariantMetafieldDefinitions true (Some nodes) = nodes
  /\ forall includeAllMetafields,
       allMetafieldKeys
         (getVariantMetafieldDefinitions includeAllMetafields None) = [].
Proof.
  assert (Hkeep : forall d,
             keeps_definition d
             = negb (existsb (str_eqb (MetafieldDefinition.namespace d))
                             excludedNamespaces)).
  { intros d. unfold keeps_definition.
    destruct (str_eqb (MetafieldDefinition.namespace d) CUSTOM) eqn:E.
    - apply str_eqb_eq in E. rewrite E. reflexivity.
    - reflexivity. }
  split; [exact Hkeep|].
  split.
  { simpl. apply filter_ext. exact Hkeep. }
  split.
  { intros d. simpl. rewrite filter_In, Hkeep.
    split; intros [Hin H]; (split; [exact Hin|]).
    - intros Hex. apply negb_true_iff in H.
      assert (Ht : existsb (str_eqb (MetafieldDefinition.namespace d))
                           excludedNamespaces = true).
      { apply existsb_exists. eexists. split; [exact Hex | apply str_eqb_refl]. }
      congruence.
    - apply negb_true_iff.
      destruct (existsb (str_eqb (MetafieldDefinition.namespace d))
                        excludedNamespaces) eqn:Ex; [|reflexivity].
      apply existsb_exists in Ex. destruct Ex as [y [Hy Hey]].
      apply str_eqb_eq in Hey. subst y. contradiction. }
  split; reflexivity.
Qed.

(* ================================================================== *)
(** * Further properties of the reader: lines *)
(* ================================================================== *)

(** The loop of [parseCSVLine] on what is left of a line without a double
    quote, outside quotes: the fields of the comma split, the first one
    after what was read of the current field. *)
Lemma loop_unquoted (line : jsstring) :
  includes QUOTE line = false ->
  forall values current,
    parseCSVLine_loop line values current false
    = values ++ match split COMMA line with
                | [] => [trim current]
                | h :: t => trim (current ++ h) :: map trim t
                end.
Proof.
  induction line as [|c rest IH]; intros Hq values current.
  - simpl. rewrite app_nil_r. reflexivity.
  - unfold includes in Hq. simpl in Hq. apply orb_false_iff in Hq.
    destruct Hq as [Hc Hrest]. rewrite char_eqb_sym in Hc.
    simpl parseCSVLine_loop. rewrite Hc.
    simpl split. destruct (char_eqb c COMMA) eqn:Ec.
    + simpl. rewrite (IH Hrest). rewrite app_nil_r, <- app_assoc. simpl.
      destruct (split COMMA rest) as [|h t] eqn:Es.
      * exfalso. exact (split_nonempty _ _ Es).
      * reflexivity.
    + simpl. rewrite (IH Hrest).
      destruct (split COMMA rest) as [|h t] eqn:Es.
      * exfalso. exact (split_nonempty _ _ Es).
      * rewrite <- app_assoc. reflexivity.
Qed.

(** Every field the loop of [parseCSVLine] returns is trimmed when those
    it started with are. *)
Lemma loop_trimmed (line : jsstring) :
  forall n, length line <= n ->
  forall values current inQuotes,
    Forall trimmed values ->
    Forall trimmed (parseCSVLine_loop line values current inQuotes).
Proof.
  intros n. revert line.
  induction n as [|n IH]; intros line Hlen values current inQuotes Hv.
  - destruct line; [|simpl in Hlen; lia].
    simpl. apply Forall_app. split; [exact Hv|].
    constructor; [apply trim_trimmed | constructor].
  - destruct line as [|c rest].
    + simpl. apply Forall_app. split; [exact Hv|].
      constructor; [apply trim_trimmed | constructor].
    + simpl in Hlen. simpl.
      destruct (char_eqb c QUOTE).
      * destruct inQuotes.
        -- destruct rest as [|c' rest'].
           ++ apply IH; [simpl; lia | exact Hv].
           ++ destruct (char_eqb c' QUOTE).
              ** apply IH; [simpl in Hlen; lia | exact Hv].
              ** apply IH; [simpl in *; lia | exact Hv].
        -- apply IH; [lia | exact Hv].
      * destruct (char_eqb c COMMA && negb inQuotes).
        -- apply IH; [lia|]. apply Forall_app. split; [exact Hv|].
           constructor; [apply trim_trimmed | constructor].
        -- apply IH; [lia | exact Hv].
Qed.

Lemma parseCSVLine_trimmed (line : jsstring) :
  Forall trimmed (parseCSVLine line).
Proof.
  unfold parseCSVLine. apply (@loop_trimmed line (length line)).
  - apply Nat.le_refl.
  - constructor.
Qed.

(** X12. A line without a double quote is read as its comma split, every
    field trimmed. *)
Theorem unquoted_line_is_split_and_trimmed (line : jsstring) :
  includes QUOTE line = false ->
  parseCSVLine line = map trim (split COMMA line).
Proof.
  intros Hq. unfold parseCSVLine. rewrite (@loop_unquoted line Hq). simpl.
  destruct (split COMMA line) as [|h t] eqn:Es; [|reflexivity].
  exfalso. exact (split_nonempty _ _ Es).
Qed.

Lemma unquoted_line_is_split_and_trimmed_witness :
  includes QUOTE (lit " v1 , true ,") = false
  /\ parseCSVLine (lit " v1 , true ,") = [lit "v1"; lit "true"; []].
Proof.
  split; [reflexivity|].
  rewrite (@unquoted_line_is_split_and_trimmed (lit " v1 , true ,"));
    reflexivity.
Defined.

(* ================================================================== *)
(** * Further properties of the reader: rows *)
(* ================================================================== *)

(** ** What an assignment puts into an object *)

Lemma In_update {A} (k : jsstring) (v : A) (o : obj A) (x : jsstring * A) :
  In x (update k v o) -> x = (k, v) \/ In x o.
Proof.
  induction o as [|[k' v'] o IH]; [intros []|].
  simpl. destruct (str_eqb k k') eqn:E.
  - apply str_eqb_eq in E. subst k'.
    intros [<- | H]; [left; reflexivity | right; right; exact H].
  - intros [<- | H]; [right; left; reflexivity|].
    destruct (IH H) as [-> | H']; [left; reflexivity | right; right; exact H'].
Qed.

Lemma In_insert_index {A} (n : N) (k : jsstring) (v : A) (o : obj A)
      (x : jsstring * A) :
  In x (insert_index n k v o) -> x = (k, v) \/ In x o.
Proof.
  induction o as [|[k' v'] o IH].
  - simpl. intros [<- | []]. left. reflexivity.
  - simpl. destruct (array_index k') as [n'|].
    + destruct (n' <? n)%N.
      * intros [<- | H]; [right; left; reflexivity|].
        destruct (IH H) as [-> | H'];
          [left; reflexivity | right; right; exact H'].
      * intros [<- | H]; [left; reflexivity | right; exact H].
    + intros [<- | H]; [left; reflexivity | right; exact H].
Qed.

Lemma In_set {A} (k : jsstring) (v : A) (o : obj A) (x : jsstring * A) :
  In x (JsObject.set k v o) -> x = (k, v) \/ In x o.
Proof.
  unfold JsObject.set. destruct (str_eqb k PROTO); [intros H; right; exact H|].
  destruct (has o k); [apply In_update|].
  destruct (array_index k); [apply In_insert_index|].
  intros H. apply in_app_or in H.
  destruct H as [H | [<- | []]]; [right; exact H | left; reflexivity].
Qed.

Lemma has_false_not_In {A} (o : obj A) (k : jsstring) :
  has o k = false -> ~ In k (keys o).
Proof.
  unfold has. intros H Hin. destruct (In_keys_get _ _ Hin) as [v Hv].
  rewrite Hv in H. discriminate.
Qed.

Lemma keys_insert_index_split {A} (n : N) (k : jsstring) (v : A)
      (o : obj A) :
  exists l1 l2,
    keys o = l1 ++ l2 /\ keys (insert_index n k v o) = l1 ++ k :: l2.
Proof.
  induction o as [|[k' v'] o [l1 [l2 [H1 H2]]]].
  - exists [], []. split; reflexivity.
  - simpl. destruct (array_index k') as [n'|].
    + destruct (n' <? n)%N.
      * exists (k' :: l1), l2. simpl. unfold keys in *.
        rewrite H1, H2. split; reflexivity.
      * exists [], (k' :: keys o). split; reflexivity.
    + exists [], (k' :: keys o). split; reflexivity.
Qed.

(** An assignment never makes two properties of one name. *)
Lemma set_NoDup {A} (k : jsstring) (v : A) (o : obj A) :
  NoDup (keys o) -> NoDup (keys (JsObject.set k v o)).
Proof.
  intros Hnd. unfold JsObject.set. destruct (str_eqb k PROTO); [exact Hnd|].
  destruct (has o k) eqn:Hh; [rewrite keys_update; exact Hnd|].
  apply has_false_not_In in Hh.
  destruct (array_index k) as [n|].
  - destruct (keys_insert_index_split n k v o) as [l1 [l2 [H1 H2]]].
    rewrite H2. apply (NoDup_Add (Add_app k l1 l2)). rewrite <- H1.
    split; assumption.
  - rewrite keys_app. simpl. apply NoDup_app; [exact Hnd | |].
    + repeat constructor. intros [].
    + intros x Hx [<- | []]. exact (Hh Hx).
Qed.

Lemma in_keys_set_any {A} (k : jsstring) (v : A) (o : obj A) (x : jsstring) :
  In x (keys (JsObject.set k v o))
  <-> In x (keys o) \/ (x = k /\ x <> PROTO).
Proof.
  destruct (str_eqb k PROTO) eqn:E.
  - unfold JsObject.set. rewrite E. apply str_eqb_eq in E. subst k.
    split; [intros H; left; exact H|].
    intros [H | [-> H]]; [exact H | contradiction].
  - apply str_eqb_neq in E. rewrite (in_keys_set _ _ _ E). split.
    + intros [-> | H]; [right; split; [reflexivity | exact E] | left; exact H].
    + intros [H | [-> _]]; [right; exact H | left; reflexivity].
Qed.

(** ** The row of a line *)

Lemma value_at_In (values : list jsstring) (index : nat) :
  value_at values index = [] \/ In (value_at values index) values.
Proof.
  unfold value_at. destruct (nth_error values index) as [v|] eqn:E.
  - right. exact (nth_error_In _ _ E).
  - left. reflexivity.
Qed.

Lemma In_fill_row (headers : list jsstring) :
  forall (index : nat) (values : list jsstring) (r : Importer.row)
         (x : jsstring * jsstring),
    In x (fill_row headers index values r) ->
    In x r \/ (In (fst x) headers /\ (snd x = [] \/ In (snd x) values)).
Proof.
  induction headers as [|h headers IH]; intros index values r x Hx.
  - left. exact Hx.
  - simpl in Hx. destruct (IH _ _ _ _ Hx) as [H | [Hk Hv]].
    + destruct (In_set _ _ _ _ H) as [-> | H'].
      * right. simpl. split; [left; reflexivity | apply value_at_In].
      * left. exact H'.
    + right. split; [right; exact Hk | exact Hv].
Qed.

Lemma fill_row_NoDup (headers : list jsstring) :
  forall (index : nat) (values : list jsstring) (r : Importer.row),
    NoDup (keys r) -> NoDup (keys (fill_row headers index values r)).
Proof.
  induction headers as [|h headers IH]; intros index values r Hnd.
  - exact Hnd.
  - simpl. apply IH. apply set_NoDup. exact Hnd.
Qed.

Lemma in_keys_fill_row (headers : list jsstring) :
  forall (index : nat) (values : list jsstring) (r : Importer.row)
         (x : jsstring),
    In x (keys (fill_row headers index values r))
    <-> In x (keys r) \/ (In x headers /\ x <> PROTO).
Proof.
  induction headers as [|h headers IH]; intros index values r x.
  - simpl. split; [intros H; left; exact H | intros [H | [[] _]]; exact H].
  - simpl. rewrite IH, in_keys_set_any. split.
    + intros [[H | [-> Hp]] | [H Hp]].
      * left. exact H.
      * right. split; [left; reflexivity | exact Hp].
      * right. split; [right; exact H | exact Hp].
    + intros [H | [[<- | H] Hp]].
      * left. left. exact H.
      * left. right. split; [reflexivity | exact Hp].
      * right. split; [exact H | exact Hp].
Qed.

Lemma find_snoc {A} (f : A -> bool) (l : list A) (a : A) :
  find f (l ++ [a]) = match find f l with
                      | Some x => Some x
                      | None => if f a then Some a else None
                      end.
Proof.
  induction l as [|b l IH]; [reflexivity|].
  simpl. destruct (f b); [reflexivity | exact IH].
Qed.

(** A read of a filled row finds the value of the last column of that
    name, or what the row held before. *)
Lemma get_fill_row (headers : list jsstring) :
  forall (pre vs : list jsstring) (r : Importer.row) (h : jsstring),
    length vs = length headers ->
    h <> PROTO ->
    get (fill_row headers (length pre) (pre ++ vs) r) h
    = match find (fun hv => str_eqb h (fst hv)) (rev (combine headers vs)) with
      | Some hv => Some (snd hv)
      | None => get r h
      end.
Proof.
  induction headers as [|hd headers IH]; intros pre vs r h Hlen Hp.
  - reflexivity.
  - destruct vs as [|v vs]; [discriminate|].
    simpl fill_row. rewrite value_at_app.
    replace (pre ++ v :: vs) with ((pre ++ [v]) ++ vs)
      by (rewrite <- app_assoc; reflexivity).
    replace (S (length pre)) with (length (pre ++ [v]))
      by (rewrite length_app; simpl; lia).
    rewrite IH; [| simpl in Hlen; lia | exact Hp].
    simpl combine. simpl rev. rewrite find_snoc.
    destruct (find _ (rev (combine headers vs))); [reflexivity|].
    simpl fst. destruct (str_eqb h hd) eqn:E.
    + apply str_eqb_eq in E. subst hd. apply get_set_same. exact Hp.
    + apply str_eqb_neq in E. apply get_set_other. exact E.
Qed.

Lemma includes_quote_removed (s : jsstring) :
  includes QUOTE (replace_all_quotes [] s) = false.
Proof.
  unfold replace_all_quotes, includes.
  induction s as [|c s IH]; [reflexivity|].
  simpl. destruct (char_eqb c QUOTE) eqn:E.
  - exact IH.
  - simpl. rewrite IH, char_eqb_sym, E. reflexivity.
Qed.

Lemma parse_headers_clean (line : jsstring) :
  Forall (fun h => trimmed h /\ includes QUOTE h = false)
         (parse_headers line).
Proof.
  unfold parse_headers. apply Forall_map. apply Forall_forall.
  intros h _. split; [apply trim_trimmed|].
  apply includes_false_In. intros Hin. apply trim_incl in Hin.
  pose proof (includes_quote_removed h) as Hq.
  apply includes_false_In in Hq. exact (Hq Hin).
Qed.

(** X13. Every column name of a row read from a file is trimmed and holds
    no double quote, and every cell is trimmed: white space at either end
    of a field never reaches the import. *)
Theorem parsed_cells_are_trimmed (content : jsstring)
        (rows : list Importer.row) (warnings : list jsstring) :
  parseCSV content = Return (rows, warnings) ->
  Forall (fun r =>
            Forall (fun kv => trimmed (fst kv)
                              /\ includes QUOTE (fst kv) = false
                              /\ trimmed (snd kv)) r) rows.
Proof.
  unfold parseCSV.
  destruct (filter non_blank (split NEWLINE content)) as [|header rest];
    [discriminate|].
  destruct rest as [|line rest]; [discriminate|].
  rewrite parseCSV_loop_spec. intros H. inversion H as [[Hrows Hw]].
  simpl app. apply Forall_map. apply Forall_forall. intros l _.
  apply Forall_forall. intros [k v] Hin.
  unfold row_of_line, make_row in Hin.
  destruct (In_fill_row _ _ _ _ _ Hin) as [[] | [Hk Hv]].
  simpl in Hk, Hv. simpl.
  pose proof (parse_headers_clean header) as Hh.
  rewrite Forall_forall in Hh. destruct (Hh k Hk) as [Ht Hq].
  split; [exact Ht|]. split; [exact Hq|].
  destruct Hv as [-> | Hv]; [reflexivity|].
  pose proof (parseCSVLine_trimmed l) as Hl.
  rewrite Forall_forall in Hl. exact (Hl v Hv).
Qed.

Lemma parsed_cells_are_trimmed_witness :
  parseCSV (lit " variant_id , metafield_custom_popular" ++ [NEWLINE]
            ++ lit "  v1,   true  ")
  = Return ([[(lit "variant_id", lit "v1");
              (lit "metafield_custom_popular", lit "true")]], [])
  /\ Forall (fun r =>
               Forall (fun kv => trimmed (fst kv)
                                 /\ includes QUOTE (fst kv) = false
                                 /\ trimmed (snd kv)) r)
            [[(lit "variant_id", lit "v1");
              (lit "metafield_custom_popular", lit "true")]].
Proof.
  assert (H : parseCSV (lit " variant_id , metafield_custom_popular"
                        ++ [NEWLINE] ++ lit "  v1,   true  ")
              = Return ([[(lit "variant_id", lit "v1");
                          (lit "metafield_custom_popular", lit "true")]], []))
    by reflexivity.
  split; [exact H|].
  exact (parsed_cells_are_trimmed _ H).
Defined.

(** X14. A row has one property for each distinct column name other than
    [__proto__], and of the columns that share a name the last one gives
    the cell. *)
Theorem duplicate_header_last_wins (headers values : list jsstring) :
  length values = length headers ->
  NoDup (keys (make_row headers values))
  /\ (forall k, In k (keys (make_row headers values))
                <-> In k headers /\ k <> PROTO)
  /\ forall h, h <> PROTO ->
               get (make_row headers values) h
               = option_map snd
                   (find (fun hv => str_eqb h (fst hv))
                         (rev (combine headers values))).
Proof.
  intros Hlen. unfold make_row. split; [|split].
  - apply fill_row_NoDup. constructor.
  - intros k. rewrite in_keys_fill_row. simpl.
    split; [intros [[] | H]; exact H | intros H; right; exact H].
  - intros h Hp.
    pose proof (get_fill_row headers [] values [] Hlen Hp) as H.
    simpl in H. rewrite H.
    destruct (find _ (rev (combine headers values))); reflexivity.
Qed.

Lemma duplicate_header_last_wins_witness :
  make_row [lit "a"; lit "b"; lit "a"] [lit "1"; lit "2"; lit "3"]
  = [(lit "a", lit "3"); (lit "b", lit "2")]
  /\ get (make_row [lit "a"; lit "b"; lit "a"] [lit "1"; lit "2"; lit "3"])
         (lit "a")
     = Some (lit "3").
Proof.
  split; [reflexivity|].
  assert (Hlen : length [lit "1"; lit "2"; lit "3"]
                 = length [lit "a"; lit "b"; lit "a"]) by reflexivity.
  assert (Hp : lit "a" <> PROTO) by discriminate.
  rewrite (proj2 (proj2 (duplicate_header_last_wins _ _ Hlen)) _ Hp).
  reflexivity.
Defined.

(* ================================================================== *)
(** * Further properties of the reader: line ends and blank lines *)
(* ================================================================== *)

Lemma Forall2_map_eq {A B} (R : A -> A -> Prop) (f : A -> B)
      (l l' : list A) :
  (forall a b, R a b -> f a = f b) ->
  Forall2 R l l' -> map f l = map f l'.
Proof.
  intros Hf H. induction H as [|a b l l' Hab _ IH]; [reflexivity|].
  simpl. rewrite (Hf _ _ Hab), IH. reflexivity.
Qed.

Lemma Forall2_filter {A} (R : A -> A -> Prop) (f : A -> bool)
      (l l' : list A) :
  (forall a b, R a b -> f a = f b) ->
  Forall2 R l l' -> Forall2 R (filter f l) (filter f l').
Proof.
  intros Hf H. induction H as [|a b l l' Hab _ IH]; [constructor|].
  simpl. rewrite <- (Hf _ _ Hab). destruct (f a); [constructor|]; assumption.
Qed.

(** The pieces of a string with one more code unit at its end: the same,
    but for the last, which has the code unit at its end. *)
Lemma split_snoc_related (c x : char) (l : jsstring) :
  char_eqb x c = false ->
  Forall2 (fun a b => b = a \/ b = a ++ [x]) (split c l) (split c (l ++ [x])).
Proof.
  intros Hx. induction l as [|a l IH].
  - simpl. rewrite Hx. constructor; [right; reflexivity | constructor].
  - simpl. destruct (char_eqb a c).
    + constructor; [left; reflexivity | exact IH].
    + inversion IH as [|cur cur' rest rest' Hcur Hrest E1 E2].
      * constructor; [left; reflexivity | constructor].
      * constructor; [|exact Hrest].
        destruct Hcur as [-> | ->]; [left | right]; reflexivity.
Qed.

(** The lines of a text with carriage returns before its line feeds: the
    lines of the text, some with a carriage return at their end. *)
Lemma crlf_lines (content : jsstring) :
  Forall2 (fun a b => b = a \/ b = a ++ [CR])
          (split NEWLINE content) (split NEWLINE (crlf content)).
Proof.
  induction content as [|c content IH].
  - simpl. constructor; [left; reflexivity | constructor].
  - unfold crlf. simpl flat_map. fold (crlf content).
    simpl split at 1. destruct (char_eqb c NEWLINE) eqn:E.
    + change ([CR; NEWLINE] ++ crlf content)
        with (CR :: NEWLINE :: crlf content).
      change (split NEWLINE (CR :: NEWLINE :: crlf content))
        with ([CR] :: split NEWLINE (crlf content)).
      constructor; [right; reflexivity | exact IH].
    + change ([c] ++ crlf content) with (c :: crlf content).
      simpl split. rewrite E.
      inversion IH as [|cur cur' rest rest' Hcur Hrest E1 E2].
      * constructor; [left; reflexivity | constructor].
      * constructor; [|exact Hrest].
        destruct Hcur as [-> | ->]; [left | right]; reflexivity.
Qed.

Lemma cr_is_white : forallb is_whitespace [CR] = true.
Proof. reflexivity. Qed.

Lemma non_blank_cr (line : jsstring) :
  non_blank (line ++ [CR]) = non_blank line.
Proof. unfold non_blank. rewrite (@trim_app_white _ _ cr_is_white). reflexivity. Qed.

Lemma replace_all_quotes_app (r a b : jsstring) :
  replace_all_quotes r (a ++ b)
  = replace_all_quotes r a ++ replace_all_quotes r b.
Proof. unfold replace_all_quotes. apply flat_map_app. Qed.

Lemma parse_headers_cr (line : jsstring) :
  parse_headers (line ++ [CR]) = parse_headers line.
Proof.
  unfold parse_headers. symmetry.
  apply (Forall2_map_eq (R := fun a b => b = a \/ b = a ++ [CR])).
  - intros a b [-> | ->]; [reflexivity|].
    rewrite replace_all_quotes_app.
    change (replace_all_quotes [] [CR]) with [CR].
    rewrite (@trim_app_white _ _ cr_is_white). reflexivity.
  - apply split_snoc_related. reflexivity.
Qed.

(** A carriage return at the end of a line ends up in the last field,
    where it is trimmed away, inside quotes or not. *)
Lemma loop_cr (n : nat) :
  forall line, length line <= n ->
  forall values current inQuotes,
    parseCSVLine_loop (line ++ [CR]) values current inQuotes
    = parseCSVLine_loop line values current inQuotes.
Proof.
  assert (Hbase : forall values current inQuotes,
             parseCSVLine_loop [CR] values current inQuotes
             = parseCSVLine_loop [] values current inQuotes).
  { intros values current inQuotes. simpl.
    change (char_eqb CR QUOTE) with false.
    change (char_eqb CR COMMA) with false. simpl.
    rewrite (@trim_app_white _ _ cr_is_white). reflexivity. }
  induction n as [|n IH]; intros line Hlen values current inQuotes.
  - destruct line; [apply Hbase | simpl in Hlen; lia].
  - destruct line as [|c rest]; [apply Hbase|].
    simpl in Hlen. simpl app. simpl parseCSVLine_loop.
    destruct (char_eqb c QUOTE).
    + destruct inQuotes.
      * destruct rest as [|c' rest'].
        -- simpl app. change (char_eqb CR QUOTE) with false.
           cbv iota. apply Hbase.
        -- simpl app. cbv iota beta. destruct (char_eqb c' QUOTE).
           ++ apply IH. simpl in Hlen. lia.
           ++ apply (IH (c' :: rest')). simpl in *. lia.
      * destruct rest as [|c' rest'].
        -- apply Hbase.
        -- apply (IH (c' :: rest')). simpl in *. lia.
    + destruct (char_eqb c COMMA && negb inQuotes); apply IH; lia.
Qed.

Lemma parseCSVLine_cr (line : jsstring) :
  parseCSVLine (line ++ [CR]) = parseCSVLine line.
Proof.
  unfold parseCSVLine. apply (@loop_cr (length line) line). apply Nat.le_refl.
Qed.

Lemma parseCSV_loop_ext (headers : list jsstring) (lines lines' : list jsstring) :
  Forall2 (fun a b => parseCSVLine b = parseCSVLine a) lines lines' ->
  forall i data warnings,
    parseCSV_loop headers lines' i data warnings
    = parseCSV_loop headers lines i data warnings.
Proof.
  intros H. induction H as [|a b l l' Hab _ IH]; intros i data warnings.
  - reflexivity.
  - simpl. rewrite Hab. destruct (negb _); apply IH.
Qed.

(** X15. A file with carriage returns before its line feeds reads as the
    file without them: the same rows, the same warnings, or the same
    failure. *)
Theorem carriage_returns_change_nothing (content : jsstring) :
  parseCSV (crlf content) = parseCSV content.
Proof.
  unfold parseCSV.
  pose proof (Forall2_filter non_blank
                (fun a b (H : b = a \/ b = a ++ [CR]) =>
                   match H with
                   | or_introl E => eq_sym (f_equal non_blank E)
                   | or_intror E =>
                       eq_sym (eq_trans (f_equal non_blank E) (non_blank_cr a))
                   end)
                (crlf_lines content)) as F.
  inversion F as [|header header' rest rest' Hh Hrest E1 E2]; [reflexivity|].
  inversion Hrest as [|line line' more more' Hl Hmore E3 E4]; [reflexivity|].
  f_equal.
  assert (Hhead : parse_headers header' = parse_headers header).
  { destruct Hh as [-> | ->]; [reflexivity | apply parse_headers_cr]. }
  rewrite Hhead. apply parseCSV_loop_ext.
  rewrite E3, E4. eapply Forall2_impl; [|exact Hrest].
  intros a b [-> | ->]; [reflexivity | apply parseCSVLine_cr].
Qed.

Lemma split_parts_no_sep (c : char) (s : jsstring) :
  Forall (fun p => includes c p = false) (split c s).
Proof.
  induction s as [|x s IH].
  - constructor; [reflexivity | constructor].
  - simpl. destruct (char_eqb x c) eqn:E.
    + constructor; [reflexivity | exact IH].
    + destruct (split c s) as [|cur rest].
      * constructor; [|constructor]. unfold includes. simpl.
        rewrite char_eqb_sym, E. reflexivity.
      * inversion IH as [|? ? Hcur Hrest]; subst.
        constructor; [|exact Hrest]. unfold includes in *. simpl.
        rewrite char_eqb_sym, E. exact Hcur.
Qed.

Lemma filter_filter {A} (f : A -> bool) (l : list A) :
  filter f (filter f l) = filter f l.
Proof.
  induction l as [|a l IH]; [reflexivity|].
  simpl. destruct (f a) eqn:E; [|exact IH].
  simpl. rewrite E, IH. reflexivity.
Qed.

Lemma Forall_filter_keeps {A} (P : A -> Prop) (f : A -> bool) (l : list A) :
  Forall P l -> Forall P (filter f l).
Proof.
  intros H. apply Forall_forall. intros x Hx. apply filter_In in Hx.
  rewrite Forall_forall in H. exact (H x (proj1 Hx)).
Qed.

(** X16. Blank lines, empty or of white space only, change nothing
    wherever they are: a file reads as the file of its other lines, with
    the same rows, the same warnings and the same row numbers in them. *)
Theorem blank_lines_change_nothing (content : jsstring) :
  parseCSV (join [NEWLINE] (filter non_blank (split NEWLINE content)))
  = parseCSV content.
Proof.
  unfold parseCSV.
  destruct (filter non_blank (split NEWLINE content)) as [|l ls] eqn:E.
  - reflexivity.
  - rewrite split_join.
    + rewrite <- E, filter_filter, E. reflexivity.
    + discriminate.
    + rewrite <- E. apply Forall_filter_keeps. apply split_parts_no_sep.
Qed.

(* ================================================================== *)
(** * From the exporter to the importer *)
(* ================================================================== *)

Lemma get_shown (r : Exporter.row) (h : jsstring) :
  get (shown r) h = option_map written_text (get r h).
Proof.
  induction r as [|[k c] r IH]; [reflexivity|].
  simpl. destruct (str_eqb h k); [reflexivity | exact IH].
Qed.

Lemma keys_shown (r : Exporter.row) : keys (shown r) = keys r.
Proof. unfold keys, shown. rewrite map_map. reflexivity. Qed.

Lemma values_shown (r : Exporter.row) :
  values_of (shown r) = map written_text (values_of r).
Proof. unfold values_of, shown. rewrite !map_map. reflexivity. Qed.

(** What the encoder writes for a plain cell is the encoding of its
    text. *)
Lemma encode_cell_shown (r : Exporter.row) (h : jsstring) :
  In h (keys r) -> Forall plain_cell (values_of r) ->
  encode_cell (to_cells (shown r)) h = encode_cell r h.
Proof.
  intros Hin Hplain. destruct (In_keys_get _ _ Hin) as [c Hc].
  rewrite (@encode_cell_own (shown r) h (written_text c)).
  2:{ rewrite get_shown, Hc. reflexivity. }
  assert (Hcell : plain_cell c).
  { rewrite Forall_forall in Hplain. apply Hplain.
    apply get_In in Hc. unfold values_of.
    apply in_map_iff. exists (h, c). split; [reflexivity | exact Hc]. }
  unfold encode_cell, cell_or_empty. rewrite Hc.
  destruct c as [s | [] t]; simpl.
  - reflexivity.
  - destruct Hcell as [_ Hq]. unfold encode_string. rewrite Hq. reflexivity.
  - reflexivity.
Qed.

Lemma arrayToCSV_shown (columns : list jsstring) (records : list Exporter.row) :
  Forall (fun r => keys r = columns) records ->
  Forall (fun r => Forall plain_cell (values_of r)) records ->
  arrayToCSV (map to_cells (map shown records)) = arrayToCSV records.
Proof.
  intros Hkeys Hplain. destruct records as [|first rest]; [reflexivity|].
  change (map to_cells (map shown (first :: rest)))
    with (to_cells (shown first) :: map to_cells (map shown rest)).
  unfold arrayToCSV. rewrite keys_to_cells, keys_shown.
  inversion Hkeys as [|? ? Hfirst _]; subst. f_equal. f_equal.
  change (to_cells (shown first) :: map to_cells (map shown rest))
    with (map to_cells (map shown (first :: rest))).
  rewrite !map_map. apply map_ext_in. intros r Hr. f_equal.
  apply map_ext_in. intros h Hh.
  rewrite Forall_forall in Hkeys, Hplain.
  apply encode_cell_shown; [rewrite (Hkeys r Hr); exact Hh | exact (Hplain r Hr)].
Qed.

Lemma keys_ordered_no_index (ks : list jsstring) :
  Forall (fun k => array_index k = None) ks -> keys_ordered ks = true.
Proof.
  intros H. unfold keys_ordered. destruct ks as [|k ks]; [reflexivity|].
  inversion H as [|? ? Hk Hks]; subst. simpl. rewrite Hk.
  apply forallb_forall. intros x Hx. rewrite Forall_forall in Hks.
  rewrite (Hks x Hx). reflexivity.
Qed.

Lemma fixed_columns_no_index :
  Forall (fun k => array_index k = None) FIXED_COLUMNS.
Proof. repeat constructor. Qed.

Lemma fixed_columns_plain : Forall plain_header FIXED_COLUMNS.
Proof.
  repeat (apply Forall_cons;
          [repeat split; try discriminate; vm_compute; reflexivity|]).
  apply Forall_nil.
Qed.

Lemma export_columns_ordered (definitions : list MetafieldDefinition.t) :
  keys_ordered (FIXED_COLUMNS ++ allMetafieldKeys definitions) = true.
Proof.
  apply keys_ordered_no_index. apply Forall_app.
  split; [exact fixed_columns_no_index|].
  apply Forall_forall. intros x Hx. apply in_allMetafieldKeys in Hx.
  destruct Hx as [d [_ ->]]. apply array_index_column_name.
Qed.

(** X17. When the column names of the definitions and the cells of the
    records are plain (on one line, without white space at either end,
    the names without comma or double quote), the file the exporter
    writes is read by the importer as one row per variant, in order, with
    the columns of the export and the text of every cell, and without a
    warning. *)
Theorem exported_file_reads_back
        (includeAllMetafields : bool)
        (reply : option (list MetafieldDefinition.t))
        (products : list Product.t) :
  let definitions :=
    getVariantMetafieldDefinitions includeAllMetafields reply in
  let records := allVariants (allMetafieldKeys definitions) products in
  records <> [] ->
  Forall plain_definition definitions ->
  Forall (fun r => Forall plain_cell (values_of r)) records ->
  exists text,
    exportVariants includeAllMetafields reply (Return products) = Return text
    /\ parseCSV text = Return (map shown records, [])
    /\ Forall (fun r => keys r
                        = FIXED_COLUMNS ++ allMetafieldKeys definitions)
              (map shown records).
Proof.
  intros definitions records Hne Hdefs Hplain.
  pose proof (allVariants_keys definitions products) as Hkeys.
  fold records in Hkeys.
  exists (arrayToCSV records). split; [reflexivity|].
  assert (Hshown : Forall (fun r => keys r
                             = FIXED_COLUMNS ++ allMetafieldKeys definitions)
                          (map shown records)).
  { apply Forall_map. eapply Forall_impl; [|exact Hkeys].
    intros r Hr. rewrite keys_shown. exact Hr. }
  split; [|exact Hshown].
  rewrite <- (arrayToCSV_shown Hkeys Hplain).
  destruct records as [|first rest]; [contradiction|].
  simpl map in *.
  inversion Hshown as [|? ? Hfirst _]; subst.
  apply decode_encode_plain; rewrite Hfirst.
  - apply export_columns_NoDup.
  - apply export_columns_ordered.
  - discriminate.
  - discriminate.
  - apply Forall_app. split; [exact fixed_columns_plain|].
    apply Forall_forall. intros x Hx. apply in_allMetafieldKeys in Hx.
    destruct Hx as [d [Hd ->]]. rewrite Forall_forall in Hdefs.
    exact (Hdefs d Hd).
  - change (shown first :: map shown rest) with (map shown (first :: rest)).
    apply Forall_map. rewrite Forall_forall in Hkeys, Hplain.
    apply Forall_forall. intros r Hr. split; [|split].
    + rewrite keys_shown. exact (Hkeys r Hr).
    + rewrite values_shown. apply Forall_map.
      eapply Forall_impl; [|exact (Hplain r Hr)].
      intros c [Hc _]. exact Hc.
    + intros E. apply (f_equal (@length jsstring)) in E.
      rewrite values_of_length, keys_shown, (Hkeys r Hr), length_app in E.
      simpl in E. lia.
Qed.

Lemma exported_file_reads_back_witness :
  exists text,
    exportVariants false (Some sample_definitions) (Return [sample_product])
    = Return text
    /\ parseCSV text
       = Return (map shown
                     (allVariants
                        (allMetafieldKeys
                           (getVariantMetafieldDefinitions
                              false (Some sample_definitions)))
                        [sample_product]), []).
Proof.
  destruct (@exported_file_reads_back false (Some sample_definitions)
                                      [sample_product])
    as [text [Ht [Hp _]]].
  - discriminate.
  - repeat (apply Forall_cons;
            [repeat split; try discriminate; vm_compute; reflexivity|]).
    apply Forall_nil.
  - repeat (apply Forall_cons;
            [repeat (apply Forall_cons;
                     [repeat split; vm_compute; reflexivity|]);
             apply Forall_nil|]).
    apply Forall_nil.
  - exists text. split; [exact Ht | exact Hp].
Defined.

(** What the importer extracts from the text of the cells of one record:
    a declared metafield with a namespace without underscore and a value
    that is not empty, the last of its column, with its namespace, key and
    value; and only entries of declared columns. *)
Lemma record_writes_back
      (definitions : list MetafieldDefinition.t)
      (product : Product.t) (variant : Variant.t) (mf : Metafield) :
  In (column_name (namespace mf) (key mf)) (allMetafieldKeys definitions) ->
  includes UNDERSCORE (namespace mf) = false ->
  value mf <> [] ->
  find (fun m => str_eqb (column_name (namespace mf) (key mf))
                         (column_name (namespace m) (key m)))
       (rev (extractVariantMetafields variant)) = Some mf ->
  let row :=
    shown (variant_record (allMetafieldKeys definitions) product variant) in
  In {| namespace := namespace mf; key := key mf; value := value mf;
        type := SINGLE_LINE_TEXT_FIELD |}
     (extractMetafields row)
  /\ forall entry,
       In entry (extractMetafields row) ->
       type entry = SINGLE_LINE_TEXT_FIELD
       /\ In (column_name (namespace entry) (key entry))
             (allMetafieldKeys definitions).
Proof.
  intros Hdecl Hns Hv Hlast row.
  assert (Hkeys : keys row = FIXED_COLUMNS ++ allMetafieldKeys definitions).
  { unfold row. rewrite keys_shown. apply variant_record_keys. }
  split.
  - apply in_extractMetafields.
    exists (column_name (namespace mf) (key mf)). split.
    + rewrite Hkeys. apply in_or_app. right. exact Hdecl.
    + rewrite (@extract_column_inverse row (namespace mf) (key mf) (value mf));
        [left; reflexivity | exact Hns | | exact Hv].
      unfold row. rewrite get_shown.
      rewrite (@variant_record_declared_cell definitions product variant
                 _ Hdecl).
      rewrite metafield_cell_last, Hlast. reflexivity.
  - intros entry Hentry. split.
    + apply (extracted_entry_shape _ _ Hentry).
    + apply in_extractMetafields in Hentry.
      destruct Hentry as [k [Hk Hin]].
      destruct (extract_column_inv _ _ _ Hin) as [_ [_ [Hname _]]].
      rewrite Hname. rewrite Hkeys in Hk. apply in_app_or in Hk.
      destruct Hk as [Hf | Hd]; [|exact Hd].
      exfalso. rewrite <- Hname in Hf. exact (@column_name_not_fixed _ _ Hf).
Qed.

Lemma record_entries_declared
      (definitions : list MetafieldDefinition.t)
      (product : Product.t) (variant : Variant.t) (entry : Metafield) :
  In entry (extractMetafields
              (shown (variant_record (allMetafieldKeys definitions)
                                     product variant))) ->
  type entry = SINGLE_LINE_TEXT_FIELD
  /\ In (column_name (namespace entry) (key entry))
        (allMetafieldKeys definitions).
Proof.
  intros Hentry. split.
  - apply (extracted_entry_shape _ _ Hentry).
  - apply in_extractMetafields in Hentry.
    destruct Hentry as [k [Hk Hin]].
    destruct (extract_column_inv _ _ _ Hin) as [_ [_ [Hname _]]].
    rewrite Hname. rewrite keys_shown, variant_record_keys in Hk.
    apply in_app_or in Hk.
    destruct Hk as [Hf | Hd]; [|exact Hd].
    exfalso. rewrite <- Hname in Hf. exact (@column_name_not_fixed _ _ Hf).
Qed.

(** The records of an export are those of its variants, in order. *)
Lemma allVariants_exported (metafieldKeys : list jsstring)
      (products : list Product.t) :
  allVariants metafieldKeys products
  = map (fun pv => variant_record metafieldKeys (fst pv) (snd pv))
        (exported_variants products).
Proof.
  unfold allVariants, exported_variants.
  induction products as [|p ps IH]; [reflexivity|].
  simpl. rewrite map_app, map_map, IH. reflexivity.
Qed.

Lemma Forall2_map_right {A B} (R : A -> B -> Prop) (f : A -> B) (l : list A) :
  (forall x, In x l -> R x (f x)) -> Forall2 R l (map f l).
Proof.
  induction l as [|x l IH]; intros H; [constructor|].
  simpl. constructor.
  - apply H. left. reflexivity.
  - apply IH. intros y Hy. apply H. right. exact Hy.
Qed.

(** The text of plain records is read back as the text of their cells. *)
Lemma plain_records_read_back (columns : list jsstring)
      (records : list Exporter.row) :
  records <> [] ->
  NoDup columns -> keys_ordered columns = true ->
  columns <> [] -> columns <> [[]] ->
  Forall plain_header columns ->
  Forall (fun r => keys r = columns) records ->
  Forall (fun r => Forall plain_cell (values_of r)) records ->
  length columns <> 1 ->
  parseCSV (arrayToCSV records) = Return (map shown records, []).
Proof.
  intros Hne Hnd Hord Hc Hc' Hhdr Hkeys Hplain Hwide.
  rewrite <- (arrayToCSV_shown Hkeys Hplain).
  destruct records as [|first rest]; [contradiction|].
  assert (Hshown : Forall (fun r => keys r = columns)
                          (map shown (first :: rest))).
  { apply Forall_map. eapply Forall_impl; [|exact Hkeys].
    intros r Hr. rewrite keys_shown. exact Hr. }
  pose proof (Forall_inv Hshown) as Hfirst. simpl in Hfirst.
  change (map shown (first :: rest)) with (shown first :: map shown rest).
  apply decode_encode_plain; rewrite Hfirst; try assumption.
  change (shown first :: map shown rest) with (map shown (first :: rest)).
  apply Forall_map. rewrite Forall_forall in Hkeys, Hplain.
  apply Forall_forall. intros r Hr. split; [|split].
  - rewrite keys_shown. exact (Hkeys r Hr).
  - rewrite values_shown. apply Forall_map.
    eapply Forall_impl; [|exact (Hplain r Hr)].
    intros c [Hcell _]. exact Hcell.
  - intros E. apply (f_equal (@length jsstring)) in E.
    rewrite values_of_length, keys_shown, (Hkeys r Hr) in E.
    simpl in E. exact (Hwide E).
Qed.

(** X18. What an import of the unedited export file would write.  When
    the column names of the definitions and the cells of the records are
    plain, the file the exporter writes is read as one row per variant,
    in order, and from the row of a variant the importer extracts: for a
    metafield of the variant with a declared column, a namespace without
    underscore and a value that is not empty, the last of its column, an
    entry with its namespace, key and value and with the type
    [single_line_text_field], whatever its type was; and only entries of
    declared columns and of that type. *)
Theorem unedited_export_writes_back
        (includeAllMetafields : bool)
        (reply : option (list MetafieldDefinition.t))
        (products : list Product.t) :
  let definitions :=
    getVariantMetafieldDefinitions includeAllMetafields reply in
  let records := allVariants (allMetafieldKeys definitions) products in
  records <> [] ->
  Forall plain_definition definitions ->
  Forall (fun r => Forall plain_cell (values_of r)) records ->
  exists text rows,
    exportVariants includeAllMetafields reply (Return products) = Return text
    /\ parseCSV text = Return (rows, [])
    /\ Forall2
         (fun (pv : Product.t * Variant.t) (row : Importer.row) =>
            (forall mf,
                In (column_name (namespace mf) (key mf))
                   (allMetafieldKeys definitions) ->
                includes UNDERSCORE (namespace mf) = false ->
                value mf <> [] ->
                find (fun m => str_eqb (column_name (namespace mf) (key mf))
                                       (column_name (namespace m) (key m)))
                     (rev (extractVariantMetafields (snd pv))) = Some mf ->
                In {| namespace := namespace mf; key := key mf;
                      value := value mf; type := SINGLE_LINE_TEXT_FIELD |}
                   (extractMetafields row))
            /\ forall entry,
                 In entry (extractMetafields row) ->
                 type entry = SINGLE_LINE_TEXT_FIELD
                 /\ In (column_name (namespace entry) (key entry))
                       (allMetafieldKeys definitions))
         (exported_variants products) rows.
Proof.
  intros definitions records Hne Hdefs Hplain.
  exists (arrayToCSV records), (map shown records).
  split; [reflexivity|]. split.
  - apply (@plain_records_read_back
             (FIXED_COLUMNS ++ allMetafieldKeys definitions) records Hne).
    + apply export_columns_NoDup.
    + apply export_columns_ordered.
    + discriminate.
    + discriminate.
    + apply Forall_app. split; [exact fixed_columns_plain|].
      apply Forall_forall. intros x Hx. apply in_allMetafieldKeys in Hx.
      destruct Hx as [d [Hd ->]]. rewrite Forall_forall in Hdefs.
      exact (Hdefs d Hd).
    + apply allVariants_keys.
    + exact Hplain.
    + rewrite length_app. simpl. lia.
  - unfold records. rewrite allVariants_exported, map_map.
    apply Forall2_map_right. intros [p v] _. simpl fst. simpl snd. split.
    + intros mf Hdecl Hns Hv Hlast.
      exact (proj1 (@record_writes_back definitions p v mf
                      Hdecl Hns Hv Hlast)).
    + intros entry Hentry.
      exact (@record_entries_declared definitions p v entry Hentry).
Qed.

(** The export of the sample product, whose first variant has the
    metafield [custom.popular] of type [boolean]: the file is read back,
    and the row of the first variant gives [custom.popular] as a
    [single_line_text_field]. *)
Lemma unedited_export_writes_back_witness :
  exists text rows row more,
    exportVariants false (Some sample_definitions) (Return [sample_product])
    = Return text
    /\ parseCSV text = Return (rows, [])
    /\ rows = row :: more
    /\ In {| namespace := lit "custom"; key := lit "popular";
             value := lit "true"; type := SINGLE_LINE_TEXT_FIELD |}
          (extractMetafields row).
Proof.
  destruct (@unedited_export_writes_back false (Some sample_definitions)
                                         [sample_product])
    as [text [rows [Ht [Hp HF]]]].
  - discriminate.
  - repeat (apply Forall_cons;
            [repeat split; try discriminate; vm_compute; reflexivity|]).
    apply Forall_nil.
  - repeat (apply Forall_cons;
            [repeat (apply Forall_cons;
                     [repeat split; vm_compute; reflexivity|]);
             apply Forall_nil|]).
    apply Forall_nil.
  - change (exported_variants [sample_product])
      with [ (sample_product,
              sample_variant "gid://shopify/ProductVariant/1"
                             [custom_popular; secret_note]);
             (sample_product,
              sample_variant "gid://shopify/ProductVariant/2" []) ] in HF.
    inversion HF as [|pv row pvs more [Hback _] _ Hpv Hrows].
    exists text, rows, row, more.
    split; [exact Ht|]. split; [exact Hp|]. split; [symmetry; exact Hrows|].
    apply (Hback custom_popular).
    + vm_compute. left. reflexivity.
    + reflexivity.
    + discriminate.
    + reflexivity.
Defined.

(** X19. The cells of the columns [variant_option1], [variant_option2]
    and [variant_option3] are empty unless a selected option of the
    variant is named [Option1], [Option2] or [Option3] itself. *)
Theorem option_columns_need_literal_names
        (definitions : list MetafieldDefinition.t)
        (product : Product.t) (variant : Variant.t) :
  (forall options opt wanted,
      Variant.selectedOptions variant = Some options ->
      In opt options ->
      In wanted [lit "Option1"; lit "Option2"; lit "Option3"] ->
      SelectedOption.name opt <> VString wanted) ->
  let record :=
    variant_record (allMetafieldKeys definitions) product variant in
  get record (lit "variant_option1") = Some EMPTY
  /\ get record (lit "variant_option2") = Some EMPTY
  /\ get record (lit "variant_option3") = Some EMPTY.
Proof.
  intros Hnames record.
  assert (Hempty : forall wanted,
             In wanted [lit "Option1"; lit "Option2"; lit "Option3"] ->
             option_value variant wanted = EMPTY).
  { intros wanted Hw. unfold option_value.
    destruct (Variant.selectedOptions variant) as [options|] eqn:Eo;
      [|reflexivity].
    destruct (find _ options) as [opt|] eqn:Ef; [|reflexivity].
    exfalso. apply find_some in Ef. destruct Ef as [Hin Hname].
    apply (Hnames options opt wanted eq_refl Hin Hw).
    destruct (SelectedOption.name opt) as [s|b t]; [|discriminate].
    apply str_eqb_eq in Hname. subst s. reflexivity. }
  unfold record.
  rewrite !variant_record_fixed_cell
    by (unfold FIXED_COLUMNS; simpl; tauto).
  repeat split.
  - change (get (variantRecord_literal product variant) (lit "variant_option1"))
      with (Some (option_value variant (lit "Option1"))).
    rewrite Hempty by (simpl; tauto). reflexivity.
  - change (get (variantRecord_literal product variant) (lit "variant_option2"))
      with (Some (option_value variant (lit "Option2"))).
    rewrite Hempty by (simpl; tauto). reflexivity.
  - change (get (variantRecord_literal product variant) (lit "variant_option3"))
      with (Some (option_value variant (lit "Option3"))).
    rewrite Hempty by (simpl; tauto). reflexivity.
Qed.

Lemma option_columns_need_literal_names_witness :
  Variant.selectedOptions (sample_variant "gid://shopify/ProductVariant/1" [])
  = Some [ {| SelectedOption.name := text_cell "Size";
              SelectedOption.value := text_cell "Small" |} ]
  /\ get (variant_record (allMetafieldKeys sample_definitions) sample_product
                         (sample_variant "gid://shopify/ProductVariant/1" []))
         (lit "variant_option1")
     = Some EMPTY.
Proof.
  split; [reflexivity|].
  refine (proj1 (@option_columns_need_literal_names
                   sample_definitions sample_product
                   (sample_variant "gid://shopify/ProductVariant/1" []) _)).
  intros options opt wanted Ho Hin Hw. inversion Ho; subst options.
  destruct Hin as [<- | []].
  destruct Hw as [<- | [<- | [<- | []]]]; discriminate.
Defined.

(** X20. A falsy cell of a fixed column is written as the empty text: a
    stock of zero (for which the literal has the default 0) and a variant
    that is not taxable leave their cells empty in the file. *)
Theorem falsy_cells_are_written_empty
        (definitions : list MetafieldDefinition.t)
        (product : Product.t) (variant : Variant.t)
        (column : jsstring) (c : cell) :
  get (variantRecord_literal product variant) column = Some c ->
  cell_truthy c = false ->
  encode_cell (variant_record (allMetafieldKeys definitions) product variant)
              column
  = [].
Proof.
  intros Hget Hfalsy. unfold encode_cell, cell_or_empty.
  rewrite variant_record_fixed_cell.
  2:{ change FIXED_COLUMNS
        with (keys (variantRecord_literal product variant)).
      exact (get_In_keys _ _ Hget). }
  rewrite Hget. destruct c as [s | [] t]; simpl in Hfalsy.
  - destruct s; [reflexivity | discriminate].
  - discriminate.
  - reflexivity.
Qed.

Lemma falsy_cells_are_written_empty_witness :
  get (variantRecord_literal
         sample_product (sample_variant "gid://shopify/ProductVariant/2" []))
      (lit "variant_inventory_quantity")
  = Some ZERO
  /\ encode_cell (variant_record
                    (allMetafieldKeys sample_definitions) sample_product
                    (sample_variant "gid://shopify/ProductVariant/2" []))
                 (lit "variant_inventory_quantity")
     = [].
Proof.
  assert (H : get (variantRecord_literal
                     sample_product
                     (sample_variant "gid://shopify/ProductVariant/2" []))
                  (lit "variant_inventory_quantity")
              = Some ZERO) by reflexivity.
  split; [exact H|].
  exact (@falsy_cells_are_written_empty sample_definitions sample_product _ _ _
                                        H eq_refl).
Defined.

(* ================================================================== *)
(** * Further properties of a run *)
(* ================================================================== *)

Section Runs.

Variable World : Type.
Variable endpoint : Request -> World -> Response * World.

Lemma import_loop_no_rows (fuel : nat) (config : Config)
      (totalResults : Results) (net : Net World) :
  import_loop endpoint fuel config [] 0 totalResults net
  = (Some totalResults, net).
Proof. destruct fuel; reflexivity. Qed.

(** X21. A file with fewer than two lines that are not blank makes the
    run end with the error of the reader, before any request and whatever
    the mode and the batch size. *)
Theorem short_file_fails_before_any_request
        (fuel : nat) (config : Config) (csvContent : jsstring)
        (net : Net World) :
  length (filter non_blank (split NEWLINE csvContent)) < 2 ->
  importVariants endpoint fuel config csvContent net
  = (Some (Throw TOO_SHORT), net).
Proof.
  intros Hshort. unfold importVariants, parseCSV.
  destruct (filter non_blank (split NEWLINE csvContent)) as [|header rest];
    [reflexivity|].
  destruct rest as [|line rest]; [reflexivity|].
  simpl in Hshort. lia.
Qed.

(** X22. A file whose data lines are all dropped is read as no row: the
    run ends as a success with all counts zero and no detail, one warning
    per data line, and without a request. *)
Theorem all_lines_dropped_is_an_empty_success
        (fuel : nat) (config : Config) (csvContent header : jsstring)
        (rest : list jsstring) (net : Net World) :
  filter non_blank (split NEWLINE csvContent) = header :: rest ->
  rest <> [] ->
  Forall (fun line => kept (parse_headers header) line = false) rest ->
  exists warnings,
    length warnings = length rest
    /\ importVariants endpoint fuel config csvContent net
       = (Some (Return (no_results, warnings)), net).
Proof.
  intros Hlines Hne Hdropped.
  exists (map (warning_of (parse_headers header))
              (dropped_lines (parse_headers header) rest)).
  assert (Hnone : filter (kept (parse_headers header)) rest = []).
  { clear Hlines Hne. induction Hdropped as [|l ls Hl _ IH]; [reflexivity|].
    simpl. rewrite Hl. exact IH. }
  split.
  - rewrite length_map.
    pose proof (kept_or_dropped (parse_headers header) rest) as H.
    rewrite Hnone in H. exact H.
  - unfold importVariants, parseCSV. rewrite Hlines.
    destruct rest as [|line rest]; [contradiction|].
    rewrite parseCSV_loop_spec, Hnone. simpl app.
    unfold bind. rewrite import_loop_no_rows. reflexivity.
Qed.

(** One stage of the network: one lookup, and one mutation at most. *)
Lemma stages_budget (variants : list Importer.row)
      (stages : list (list Request)) :
  Forall2 network_stage variants stages ->
  length (filter (fun r => negb (is_mutation r)) (concat stages))
  = length variants
  /\ length (filter is_mutation (concat stages)) <= length variants.
Proof.
  induction 1 as [|v stage vs stages Hstage _ [IH1 IH2]]; [split; simpl; lia|].
  simpl concat. rewrite !filter_app, !length_app.
  destruct Hstage as [-> | [productId ->]]; simpl; lia.
Qed.

(** X23. In a live batch every row with something to write costs one
    lookup and one mutation at most, and the other rows cost nothing:
    nothing is sent twice and nothing is retried. *)
Theorem live_batch_request_budget (config : Config)
        (variants : list Importer.row) (net : Net World) :
  dryRun config = false ->
  exists issued,
    trace (snd (processBatch endpoint config variants net))
    = trace net ++ issued
    /\ length (filter (fun r => negb (is_mutation r)) issued)
       = length (filter would_update variants)
    /\ length (filter is_mutation issued)
       <= length (filter would_update variants).
Proof.
  intros Hlive.
  destruct (@batch_live_requests _ endpoint config variants Hlive net)
    as [stages [Hstages Htrace]].
  exists (concat stages). split; [exact Htrace|].
  exact (stages_budget Hstages).
Qed.

End Runs.

Lemma short_file_fails_before_any_request_witness :
  length (filter non_blank
                 (split NEWLINE
                        (lit "variant_id,metafield_custom_popular"
                         ++ [NEWLINE; NEWLINE]))) < 2
  /\ importVariants (shop None) 0 (live 10)
                    (lit "variant_id,metafield_custom_popular"
                     ++ [NEWLINE; NEWLINE]) fresh
     = (Some (Throw TOO_SHORT), fresh).
Proof.
  assert (H : length (filter non_blank
                             (split NEWLINE
                                    (lit "variant_id,metafield_custom_popular"
                                     ++ [NEWLINE; NEWLINE]))) < 2)
    by (vm_compute; lia).
  split; [exact H|].
  exact (@short_file_fails_before_any_request nat (shop None) 0 (live 10) _
                                              fresh H).
Defined.

Lemma all_lines_dropped_is_an_empty_success_witness :
  exists warnings,
    length warnings = 2
    /\ importVariants (shop None) 0 (live 10)
                      (lit "variant_id,metafield_custom_popular" ++ [NEWLINE]
                       ++ lit "v1" ++ [NEWLINE] ++ lit "v2,true,extra")
                      fresh
       = (Some (Return (no_results, warnings)), fresh).
Proof.
  apply (@all_lines_dropped_is_an_empty_success
           nat (shop None) 0 (live 10)
           (lit "variant_id,metafield_custom_popular" ++ [NEWLINE]
            ++ lit "v1" ++ [NEWLINE] ++ lit "v2,true,extra")
           (lit "variant_id,metafield_custom_popular")
           [lit "v1"; lit "v2,true,extra"] fresh).
  - reflexivity.
  - discriminate.
  - repeat constructor.
Defined.

Lemma live_batch_request_budget_witness :
  dryRun (live 10) = false
  /\ exists issued,
       trace (snd (processBatch (shop None) (live 10) five_rows fresh))
       = trace fresh ++ issued
       /\ length (filter (fun r => negb (is_mutation r)) issued)
          = length (filter would_update five_rows)
       /\ length (filter is_mutation issued)
          <= length (filter would_update five_rows).
Proof.
  split; [reflexivity|].
  exact (@live_batch_request_budget nat (shop None) (live 10) five_rows fresh
                                    eq_refl).
Defined.

(** The sample file with carriage returns, a blank line and a line feed at
    its end reads as the file without them. *)
Example windows_file_reads_as_unix_file :
  parseCSV windows_file = parseCSV unix_file
  /\ parseCSV unix_file
     = Return ([ [(lit "variant_id", lit "v1");
                  (lit "metafield_custom_popular", lit "true")];
                 [(lit "variant_id", lit "v2");
                  (lit "metafield_custom_popular", [])] ], []).
Proof. split; reflexivity. Qed.

(* ================================================================== *)
(** * The batch size and the pauses *)
(* ================================================================== *)

Section TimedRuns.

Variable World : Type.
Variable endpoint : Request -> World -> Response * World.
Variable pause : World -> World.





End TimedRuns.


(** Against the shop with a rate limit the batch size of a live run does
    change the outcome: row by row, with a pause after each, the five rows
    are written; in one batch the limit is reached after two rows and the
    three others fail. *)
Example batch_size_matters_when_throttled :
  option_map (fun r => (success r, failed r))
             (fst (import_loop_timed throttled_shop recover 5 (live 1)
                                     five_rows 0 no_results fresh))
  = Some (5, 0)
  /\ option_map (fun r => (success r, failed r))
                (fst (import_loop_timed throttled_shop recover 5 (live 10)
                                        five_rows 0 no_results fresh))
     = Some (2, 3).
Proof. split; vm_compute; reflexivity. Qed.
